(** * benchi: the run builder, the test-run engine and the collector
    configuration, embedded from [runner.go], [metrics/kafka] and
    [metrics/prometheus].

    Part I holds the embedding, Parts II and III the properties. *)

From Stdlib Require Import ZArith List String Lia.
From stdpp Require Import base option list gmap strings pretty sorting.

#[local] Set Warnings "-register-all".

(* ================================================================== *)
(** * Part I: the embedding                                            *)
(* ================================================================== *)

(** ** Go values the packages share *)

Module Go.

(** Go [error] values, kept as the calls that build them: [errors.New],
    [fmt.Errorf] with its format and arguments (an [ArgErr] stands under a
    [%w] or [%v] verb), and the value [errors.Join] returns. Errors handed
    back by the operating system, the container engine or a context are
    whatever value the environment gives. *)
Inductive error :=
| errors_New (text : string)
| fmt_Errorf (format : string) (args : list fmtArg)
| joinError (errs : list error)
with fmtArg :=
| ArgString (s : string)
| ArgInt (n : Z)
| ArgErr (e : error).

(** [errors.Join(errs...)]: nil values are discarded; the result is nil when
    nothing is left. *)
Definition errors_Join (errs : list (option error)) : option error :=
  match omap id errs with
  | [] => None
  | e :: es => Some (joinError (e :: es))
  end.

(** Values of type [any] as a settings bag holds them: nil, strings,
    integers, booleans, slices and maps (floating-point numbers are left
    out). The slice of maps is kept apart from the slice of [any]: a type
    assertion tells them apart. *)
Inductive any :=
| nil_any
| str (s : string)
| int (z : Z)
| boolean (b : bool)
| slice_any (l : list any)
| slice_map (l : list (gmap string any))
| map_any (m : gmap string any).

(** A Go [map[string]V] where the order of [range] matters: the pairs in the
    order the iteration takes them. [map_index] is [m[k]] with its [ok]. *)
Definition gomap (V : Type) := list (string * V).

Fixpoint map_index {V} (m : gomap V) (k : string) : option V :=
  match m with
  | [] => None
  | (k', v) :: m' => if String.eqb k' k then Some v else map_index m' k
  end.

(** [maps.Keys] collected by [slices.Collect]. *)
Definition maps_Keys {V} (m : gomap V) : list string := map fst m.

(** Functions of the Go standard library that the packages call and that are
    not embedded here. *)
Class GoLib := {
  filepath_Join : string -> string -> string;
  strconv_Quote : string -> string;
  strings_EqualFold : string -> string -> bool;
  url_Parse : string -> option error;
  time_ParseDuration : string -> error + Z;
}.

End Go.
Export Go.

(** ** Package config *)

(** Modelled from the spec: the declarations of package [config] are not among
    the sources. A service is its composition file; a metrics collector is a
    type name with a free-form settings bag; a scenario has a name, a
    duration (nanoseconds), hook scripts per hook name and its own
    infrastructure, tools and metrics. [Infrastructure] is the sequence of
    values [range] yields, [Tools] a map from tool name to service. *)
Module config.

Record ServiceConfig := { DockerCompose : string }.

Record MetricsCollector := { Collector : string; Settings : gmap string any }.

Definition TestSteps := list (string * list string).

Module Test.
Record t := {
  Name : string;
  Duration : Z;
  Steps : TestSteps;
  Infrastructure : list ServiceConfig;
  Tools : gomap ServiceConfig;
  Metrics : list MetricsCollector;
}.
End Test.

Module Config.
Record t := {
  Infrastructure : list ServiceConfig;
  Tools : gomap ServiceConfig;
  Metrics : list MetricsCollector;
  Tests : list Test.t;
}.
End Config.

End config.

(** ** Package benchi: the run builder *)

Module benchi.

Import config.

Section Builder.
Context {lib : GoLib} {APIClient : Type}.

Record RunOptions := {
  opt_OutPath : string;
  FilterTests : list string;
  opt_DockerClient : APIClient;
}.

(** [testRun], the fields [buildTestRuns] fills. The three unexported fields
    that change while a run executes are [runState] below. *)
Record testRun := {
  Infrastructure : list ServiceConfig;
  Tools : list ServiceConfig;
  Metrics : list MetricsCollector;
  Name : string;
  Duration : Z;
  Steps : TestSteps;
  Tool : string;
  OutPath : string;
  DockerClient : APIClient;
}.

(** [append(s, v)] on a slice. *)
Definition append {A} (s : list A) (v : A) : list A := s ++ [v].

(** The tool names of one scenario (lines 84-89). *)
Definition toolNames (cfg : Config.t) (t : Test.t) : list string :=
  fold_left
    (fun names kv =>
       match map_index (Config.Tools cfg) (fst kv) with
       | Some _ => names
       | None => append names (fst kv)
       end)
    (Test.Tools t) (maps_Keys (Config.Tools cfg)).

(** The body of the loop over [toolNames] (lines 91-119). [now] is
    [time.Now()] formatted with the layout 20060102150405. The tests of
    lines 93 and 99 for a nil map are left out: indexing a nil map gives
    not [ok], as [map_index] does on the empty list. *)
Definition buildRun (now : string) (cfg : Config.t) (opt : RunOptions)
    (t : Test.t) (infra : list ServiceConfig) (metrics : list MetricsCollector)
    (tool : string) : testRun :=
  let tools := [] in
  let tools := match map_index (Config.Tools cfg) tool with
               | Some toolCfg => append tools toolCfg
               | None => tools
               end in
  let tools := match map_index (Test.Tools t) tool with
               | Some toolCfg => append tools toolCfg
               | None => tools
               end in
  {| Infrastructure := infra;
     Tools := tools;
     Metrics := metrics;
     Name := Test.Name t;
     Duration := Test.Duration t;
     Steps := Test.Steps t;
     Tool := tool;
     OutPath := filepath_Join (opt_OutPath opt)
                  (now +:+ "_" +:+ Test.Name t +:+ "_" +:+ tool);
     DockerClient := opt_DockerClient opt |}.

(** The body of the loop over [cfg.Tests] (lines 70-120). *)
Definition buildTestRunsFor (now : string) (cfg : Config.t) (opt : RunOptions)
    (runs : list testRun) (t : Test.t) : list testRun :=
  let infra := fold_left append (Config.Infrastructure cfg) [] in
  let infra := fold_left append (Test.Infrastructure t) infra in
  let metrics := [] in
  let metrics := metrics ++ Config.Metrics cfg in
  let metrics := metrics ++ Test.Metrics t in
  fold_left (fun runs tool => append runs (buildRun now cfg opt t infra metrics tool))
    (toolNames cfg t) runs.

Definition buildTestRuns (now : string) (cfg : Config.t) (opt : RunOptions)
    : list testRun :=
  fold_left (buildTestRunsFor now cfg opt) (Config.Tests cfg) [].

End Builder.

(** ** Package benchi: the test-run engine *)

(** What [ContainerInspect] answers, the fields the engine reads.
    [State.Health] is a pointer: [None] is nil. *)
Module types.
Record Health := { Status : string }.
Record ContainerState := { Running : bool; Dead : bool; Health_ : option Health }.
Record ContainerJSON := { Name : string; State : ContainerState }.
End types.

(** Calls that leave the process, in the order they are made. *)
Inductive Event :=
| EvStat (path : string)
| EvMkdirAll (path : string)
| EvCreate (path : string)
| EvClose (path : string)
| EvComposeUp (files : list string)
| EvComposeDown (files : list string)
| EvComposePs (files : list string)
| EvContainerInspect (c : string)
| EvAfterSecond
| EvTestSelect.

(** What the [select] of the test step (lines 311-317) receives. *)
Inductive selectTest :=
| CtxDone (err : error)
| Tick
| TestCompleted.

(** The world outside the process: file system, container engine, clock and
    the context of the run. Every operation takes the state of the world and
    gives the next one with its answer.
    - [select_Second] is the [select] on [ctx.Done()] and
      [time.After(time.Second)]: [Some (ctx.Err())] when the context ended.
    - [ComposeUp_returned files] tells whether the [ComposeUp] call that [Go]
      started in the background has returned by now, and with which error.
    - [ComposePs] answers with [strings.Fields] of what it wrote. *)
Class Env (APIClient E : Type) := {
  os_Stat : string -> E -> E * option error;
  os_MkdirAll : string -> E -> E * option error;
  os_Create : string -> E -> E * option error;
  File_Close : string -> E -> E * option error;
  ComposeUp_returned : list string -> E -> E * option (option error);
  ComposeDown : list string -> E -> E * option error;
  ComposePs : list string -> E -> E * (error + list string);
  ContainerInspect : APIClient -> string -> E -> E * (error + types.ContainerJSON);
  select_Second : E -> E * option error;
  select_test : E -> E * selectTest;
  time_Now : E -> E * Z;
}.

(** [slog] records. A logger is the attributes [With] gave it. *)
Inductive Level := LevelInfo | LevelError.

Inductive attrValue :=
| AttrString (s : string)
| AttrInt (n : Z)
| AttrError (e : error).

Definition Logger := list (string * attrValue).

Record LogEntry := {
  level : Level;
  msg : string;
  attrs : list (string * attrValue);
}.

(** How a function ends: it returns its error value or it panics. *)
Inductive outcome :=
| Returned (err : option error)
| Panicked (v : string).

(** The value of the named result [err] when the deferred calls run. *)
Definition named_result (o : outcome) : option error :=
  match o with
  | Returned err => err
  | Panicked _ => None
  end.

Section Engine.
Context {lib : GoLib} {APIClient E : Type} {W : Env APIClient E}.

Record World := {
  env : E;
  trace : list Event;
  logs : list LogEntry;
}.

(** A call that leaves the process: the event is recorded, the world moves. *)
Definition call {A} (ev : Event) (op : E -> E * A) (w : World) : World * A :=
  let (e, a) := op (env w) in
  ({| env := e; trace := trace w ++ [ev]; logs := logs w |}, a).

Definition slog_Log (lvl : Level) (logger : Logger) (m : string)
    (args : list (string * attrValue)) (w : World) : World :=
  {| env := env w;
     trace := trace w;
     logs := logs w ++ [{| level := lvl; msg := m; attrs := logger ++ args |}] |}.

Definition Info := slog_Log LevelInfo.
Definition Error := slog_Log LevelError.

(** The three fields of [testRun] that change during a run. [goroutinePool]
    lists the background tasks started with [Go] and not yet seen to return,
    each the composition files of its [ComposeUp] call. *)
Definition cleanupFn := World -> World * option error.

Record runState := {
  cleanupFns : list cleanupFn;
  goroutinePool : list (list string);
  goroutinePoolDead : bool;
}.

Definition state : Type := runState * World.

Definition register (fn : cleanupFn) (rs : runState) : runState :=
  {| cleanupFns := cleanupFns rs ++ [fn];
     goroutinePool := goroutinePool rs;
     goroutinePoolDead := goroutinePoolDead rs |}.

(** [loggerForStep] (lines 388-402): the logger and the function to defer. *)
Definition lastLog (logger : Logger) (err : option error) (w : World) : World :=
  match err with
  | Some e => Error logger "Step failed" [("error", AttrError e)] w
  | None => Info logger "Step successful" [] w
  end.

Definition loggerForStep (r : @testRun APIClient) (name : string) (w : World)
    : World * Logger :=
  let logger := [("test", AttrString (Name r)); ("tool", AttrString (Tool r));
                 ("step", AttrString name)] in
  (Info logger "Running step" [] w, logger).

(** [collectDockerComposeFiles] (lines 366-372). *)
Definition collectDockerComposeFiles (cfgs : list config.ServiceConfig) : list string :=
  fst (fold_left
         (fun '(paths, i) cfg => (<[i := config.DockerCompose cfg]> paths, S i))
         cfgs (replicate (length cfgs) EmptyString, 0)).

(** [Go] (lines 376-384) starts [ComposeUp] on the pool. *)
Definition Go (files : list string) (st : state) : state :=
  let '(rs, w) := st in
  ({| cleanupFns := cleanupFns rs;
      goroutinePool := goroutinePool rs ++ [files];
      goroutinePoolDead := goroutinePoolDead rs |},
   {| env := env w; trace := trace w ++ [EvComposeUp files]; logs := logs w |}).

(** The wrapper of [Go] for the tasks that have returned: an error stores
    true in [goroutinePoolDead] (lines 378-382). *)
Fixpoint settle (tasks : list (list string)) (dead : bool) (e : E)
    : E * list (list string) * bool :=
  match tasks with
  | [] => (e, [], dead)
  | files :: tasks' =>
      let (e, res) := ComposeUp_returned files e in
      let '(e, running, dead) :=
        settle tasks' (match res with Some (Some _) => true | _ => dead end) e in
      (e, match res with None => files :: running | Some _ => running end, dead)
  end.

(** [r.goroutinePoolDead.Load()], after the tasks that have returned by now
    have stored their result. *)
Definition Load (st : state) : state * bool :=
  let '(rs, w) := st in
  let '(e, running, dead) := settle (goroutinePool rs) (goroutinePoolDead rs) (env w) in
  (({| cleanupFns := cleanupFns rs; goroutinePool := running; goroutinePoolDead := dead |},
    {| env := e; trace := trace w; logs := logs w |}), dead).

(** The two cleanup functions [dockerComposeUpWait] registers
    (lines 415-417 and 431-440). *)
Definition closeFile (logPath : string) : cleanupFn :=
  call (EvClose logPath) (File_Close logPath).

Definition composeDown (logger : Logger) (dockerComposeFiles : list string) : cleanupFn :=
  fun w =>
    let w := Info logger "Stopping containers" [] w in
    call (EvComposeDown dockerComposeFiles) (ComposeDown dockerComposeFiles) w.

(** The loop [for range 30] (lines 445-470): the containers of the last
    listing, or the error the function returns with. *)
Fixpoint discover (n : nat) (dockerComposeFiles : list string) (w : World)
    : World * (error + list string) :=
  match n with
  | 0 => (w, inr [])
  | S n' =>
      let (w, done) := call EvAfterSecond select_Second w in
      match done with
      | Some err => (w, inl err)
      | None =>
          let (w, res) := call (EvComposePs dockerComposeFiles) (ComposePs dockerComposeFiles) w in
          match res with
          | inl err => (w, inl (fmt_Errorf "failed to list containers: %w" [ArgErr err]))
          | inr containers =>
              if (0 <? length containers)%nat then (w, inr containers)
              else discover n' dockerComposeFiles w
          end
      end
  end.

(** One turn of the loop of a readiness poll (lines 480-503). *)
Inductive pollResult :=
| PollReturn (err : option error)
| PollPanic (v : string)
| PollAgain.

Definition nil_dereference : string :=
  "runtime error: invalid memory address or nil pointer dereference".

Definition pollOnce (r : @testRun APIClient) (logger : Logger) (c : string) (w : World)
    : World * pollResult :=
  let (w, res) := call (EvContainerInspect c) (ContainerInspect (DockerClient r) c) w in
  match res with
  | inl err => (w, PollReturn (Some err))
  | inr resp =>
      let st := types.State resp in
      if types.Dead st then
        (w, PollReturn (Some (fmt_Errorf "container %s is dead" [ArgString (types.Name resp)])))
      else if match types.Health_ st with
              | Some h => strings_EqualFold (types.Status h) "healthy"
              | None => false
              end then
        (Info logger "Container is healthy" [("container", AttrString (types.Name resp))] w,
         PollReturn None)
      else if match types.Health_ st with
              | Some _ => false
              | None => types.Running st
              end then
        (Info logger "Container is running (consider adding a health check!)"
           [("container", AttrString (types.Name resp))] w,
         PollReturn None)
      else
        (* line 496 reads resp.State.Health.Status before it logs *)
        match types.Health_ st with
        | None => (w, PollPanic nil_dereference)
        | Some h =>
            let w := Info logger "Waiting for container status to be healthy"
                       [("container", AttrString (types.Name resp));
                        ("status", AttrString (types.Status h))] w in
            let (w, done) := call EvAfterSecond select_Second w in
            match done with
            | Some err => (w, PollReturn (Some err))
            | None => (w, PollAgain)
            end
        end
  end.

(** The wait group (lines 477-507). Its goroutines sleep one second between
    two inspections, so they advance round by round: every poll still
    running takes one turn, in the order of [containers]. [errs] are the
    errors the pool has collected, [recovered] the first panic it caught. *)
Record waitGroup := {
  active : list string;
  errs : list error;
  recovered : option string;
}.

Definition pollTurn (r : @testRun APIClient) (logger : Logger)
    (acc : World * waitGroup) (c : string) : World * waitGroup :=
  let '(w, wg) := acc in
  let (w, res) := pollOnce r logger c w in
  (w, match res with
      | PollAgain =>
          {| active := active wg ++ [c]; errs := errs wg; recovered := recovered wg |}
      | PollReturn None => wg
      | PollReturn (Some err) =>
          {| active := active wg; errs := errs wg ++ [err]; recovered := recovered wg |}
      | PollPanic v =>
          {| active := active wg; errs := errs wg;
             recovered := match recovered wg with Some v' => Some v' | None => Some v end |}
      end).

Definition pollRound (r : @testRun APIClient) (logger : Logger) (w : World) (wg : waitGroup)
    : World * waitGroup :=
  fold_left (pollTurn r logger) (active wg)
    (w, {| active := []; errs := errs wg; recovered := recovered wg |}).

(** [wg.Wait()]: it returns when every goroutine has ended; [None] when
    [fuel] rounds do not get there. A caught panic is raised again, else the
    collected errors are joined. *)
Fixpoint wgWait (fuel : nat) (r : @testRun APIClient) (logger : Logger) (w : World)
    (wg : waitGroup) : option (World * outcome) :=
  match active wg with
  | [] =>
      Some (w, match recovered wg with
               | Some v => Panicked v
               | None => Returned (errors_Join (map Some (errs wg)))
               end)
  | _ :: _ =>
      match fuel with
      | 0 => None
      | S fuel' => let (w, wg) := pollRound r logger w wg in wgWait fuel' r logger w wg
      end
  end.

(** Lines 415-442 of [dockerComposeUpWait]: the log file is to be closed,
    [ComposeUp] runs in the background, the containers are to be stopped. *)
Definition startCompose (logger : Logger) (dockerComposeFiles : list string)
    (logPath : string) (st : state) : state :=
  let '(rs, w) := st in
  let rs := register (closeFile logPath) rs in
  let '(rs, w) := Go dockerComposeFiles (rs, w) in
  let rs := register (composeDown logger dockerComposeFiles) rs in
  (rs, Info logger "Waiting for containers to start" [] w).

(** Lines 477-512 of [dockerComposeUpWait]: the polls of all containers and
    what the function returns after [wg.Wait()]. *)
Definition waitForContainers (fuel : nat) (r : @testRun APIClient) (logger : Logger)
    (containers : list string) (w : World) : option (World * outcome) :=
  match wgWait fuel r logger w {| active := containers; errs := []; recovered := None |} with
  | None => None
  | Some (w, Returned (Some err)) =>
      Some (w, Returned (Some (fmt_Errorf "failed to start containers: %w" [ArgErr err])))
  | Some (w, o) => Some (w, o)
  end.

(** [dockerComposeUpWait] (lines 404-513). *)
Definition dockerComposeUpWait (fuel : nat) (r : @testRun APIClient) (logger : Logger)
    (dockerComposeFiles : list string) (logPath : string) (st : state)
    : option (state * outcome) :=
  let '(rs, w) := st in
  let (w, err) := call (EvCreate logPath) (os_Create logPath) w in
  match err with
  | Some err =>
      Some ((rs, w), Returned (Some (fmt_Errorf "failed to create log file: %w" [ArgErr err])))
  | None =>
      let '(rs, w) := startCompose logger dockerComposeFiles logPath (rs, w) in
      let (w, found) := discover 30 dockerComposeFiles w in
      match found with
      | inl err => Some ((rs, w), Returned (Some err))
      | inr containers =>
          let w := Info logger
                     ("Identified " +:+ pretty (length containers) +:+ " containers") [] w in
          let '((rs, w), dead) := Load (rs, w) in
          if dead then Some ((rs, w), Returned (Some (errors_New "failed to start containers")))
          else
            match waitForContainers fuel r logger containers w with
            | None => None
            | Some (w, o) => Some ((rs, w), o)
            end
      end
  end.

(** ** The steps (lines 207-362) *)

(** A step of the forward walk: [None] when [fuel] turns of its loops do not
    bring it to its end. *)
Definition step : Type := nat -> @testRun APIClient -> state -> option (state * outcome).

(** The frame every step has: [loggerForStep], the body, and the deferred
    [lastLog(err)], which runs on a panic too and then sees [err] nil. *)
Definition runStep (name : string) (r : @testRun APIClient)
    (body : Logger -> state -> option (state * outcome)) (st : state)
    : option (state * outcome) :=
  let '(rs, w) := st in
  let (w, logger) := loggerForStep r name w in
  match body logger (rs, w) with
  | None => None
  | Some ((rs, w), o) => Some ((rs, lastLog logger (named_result o) w), o)
  end.

Definition returnNil (logger : Logger) (st : state) : option (state * outcome) :=
  Some (st, Returned None).

Definition preInfrastructure : step :=
  fun _ r => runStep "pre-infrastructure" r returnNil.

Definition infrastructure : step :=
  fun fuel r =>
    runStep "infrastructure" r (fun logger st =>
      let '(rs, w) := st in
      let paths := collectDockerComposeFiles (Infrastructure r) in
      if (length paths =? 0)%nat then
        Some ((rs, Info logger "No infrastructure to start" [] w), Returned None)
      else
        let logPath := filepath_Join (OutPath r) "infrastructure.log" in
        match dockerComposeUpWait fuel r logger paths logPath (rs, w) with
        | None => None
        | Some (st, Returned (Some err)) =>
            Some (st, Returned (Some (fmt_Errorf "failed to start infrastructure: %w"
                                        [ArgErr err])))
        | Some ((rs, w), Returned None) =>
            Some ((rs, Info logger "Infrastructure started" [] w), Returned None)
        | Some (st, Panicked v) => Some (st, Panicked v)
        end).

Definition postInfrastructure : step :=
  fun _ r => runStep "post-infrastructure" r returnNil.

Definition preTool : step :=
  fun _ r => runStep "pre-tool" r returnNil.

Definition tool : step :=
  fun fuel r =>
    runStep "tool" r (fun logger st =>
      let '(rs, w) := st in
      let paths := collectDockerComposeFiles (Tools r) in
      if (length paths =? 0)%nat then
        Some ((rs, Info logger "No tools to start" [] w), Returned None)
      else
        let logPath := filepath_Join (OutPath r) "tools.log" in
        match dockerComposeUpWait fuel r logger paths logPath (rs, w) with
        | None => None
        | Some (st, Returned (Some err)) =>
            Some (st, Returned (Some (fmt_Errorf "failed to start tools: %w" [ArgErr err])))
        | Some ((rs, w), Returned None) =>
            Some ((rs, Info logger "Tools started" [] w), Returned None)
        | Some (st, Panicked v) => Some (st, Panicked v)
        end).

Definition postTool : step :=
  fun _ r => runStep "post-tool" r returnNil.

Definition preTest : step :=
  fun _ r => runStep "pre-test" r returnNil.

Definition Second : Z := 1000000000.
Definition Millisecond : Z := 1000000.

(** The loop of the test step (lines 309-319). *)
Fixpoint testLoop (fuel : nat) (logger : Logger) (endTestAt : Z) (w : World)
    : option (World * outcome) :=
  match fuel with
  | 0 => None
  | S fuel' =>
      let (e, now) := time_Now (env w) in
      let w := {| env := e; trace := trace w; logs := logs w |} in
      let w := Info logger "Test in progress"
                 [("time-left", AttrInt (Z.quot (endTestAt - now) Second * Second))] w in
      let (w, received) := call EvTestSelect select_test w in
      match received with
      | CtxDone err => Some (w, Returned (Some err))
      | Tick => testLoop fuel' logger endTestAt w
      | TestCompleted => Some (w, Returned None)
      end
  end.

Definition test : step :=
  fun fuel r =>
    runStep "test" r (fun logger st =>
      let '(rs, w) := st in
      let (e, now) := time_Now (env w) in
      let w := {| env := e; trace := trace w; logs := logs w |} in
      let endTestAt := (now + (Duration r + 500 * Millisecond))%Z in
      match testLoop fuel logger endTestAt w with
      | None => None
      | Some (w, o) => Some ((rs, w), o)
      end).

Definition postTest : step :=
  fun _ r => runStep "post-test" r returnNil.

(** A step of the cleanup phase; none of them has a loop of its own. *)
Definition cleanupStep : Type := @testRun APIClient -> state -> state * option error.

Definition runCleanupStep (name : string) (r : @testRun APIClient)
    (body : Logger -> state -> state * option error) (st : state)
    : state * option error :=
  let '(rs, w) := st in
  let (w, logger) := loggerForStep r name w in
  let '((rs, w), err) := body logger (rs, w) in
  ((rs, lastLog logger err w), err).

Definition preCleanup : cleanupStep :=
  fun r => runCleanupStep "pre-cleanup" r (fun _ st => (st, None)).

(** [for _, fn := range slices.Backward(r.cleanupFns)] (lines 349-351): the
    index runs from [len - 1] down to 0; [i] is the number of turns left. *)
Fixpoint cleanupLoop (i : nat) (fns : list cleanupFn) (errs : list (option error))
    (w : World) : World * list (option error) :=
  match i with
  | 0 => (w, errs)
  | S i' =>
      match fns !! i' with
      | Some fn => let '(w, err) := fn w in cleanupLoop i' fns (errs ++ [err]) w
      | None => (w, errs)
      end
  end.

Definition cleanup : cleanupStep :=
  fun r =>
    runCleanupStep "cleanup" r (fun _ st =>
      let '(rs, w) := st in
      let (w, errs) := cleanupLoop (length (cleanupFns rs)) (cleanupFns rs) [] w in
      ((rs, w), errors_Join errs)).

Definition postCleanup : cleanupStep :=
  fun r => runCleanupStep "post-cleanup" r (fun _ st => (st, None)).

(** ** [testRun.Run] (lines 144-203) *)

Definition steps : list step :=
  [preInfrastructure; infrastructure; postInfrastructure;
   preTool; tool; postTool;
   preTest; test; postTest].

Definition cleanupSteps : list cleanupStep := [preCleanup; cleanup; postCleanup].

(** The loop over [steps] and what follows it (lines 194-202). *)
Fixpoint forward (fuel : nat) (r : @testRun APIClient) (logger : Logger)
    (todo : list step) (st : state) : option (state * outcome) :=
  match todo with
  | [] =>
      let '(rs, w) := st in
      Some ((rs, Info [] "Test successful"
                   [("name", AttrString (Name r)); ("tool", AttrString (Tool r))] w),
            Returned None)
  | step :: todo' =>
      match step fuel r st with
      | None => None
      | Some (st, Returned None) => forward fuel r logger todo' st
      | Some ((rs, w), Returned (Some err)) =>
          Some ((rs, Error logger "Test stopped because of an error"
                       [("error", AttrError err)] w),
                Returned (Some err))
      | Some (st, Panicked v) => Some (st, Panicked v)
      end
  end.

(** The deferred function (lines 159-179). It runs when [Run] returns and
    when it panics; a panic goes on after it. *)
Definition deferred (r : @testRun APIClient) (st : state) (o : outcome) : state * outcome :=
  let '(st, errs) :=
    fold_left
      (fun '(st, errs) (step : cleanupStep) =>
         let (st, err) := step r st in
         (st, match err with Some e => errs ++ [e] | None => errs end))
      cleanupSteps (st, []) in
  match o with
  | Returned None => (st, Returned (errors_Join (map Some errs)))
  | Returned (Some err) =>
      if (0 <? length errs)%nat then
        let '(rs, w) := st in
        ((rs, match errors_Join (map Some errs) with
              | Some e => Error [] "cleanup failed" [("error", AttrError e)] w
              | None => w
              end),
         Returned (Some err))
      else (st, Returned (Some err))
  | Panicked v => (st, Panicked v)
  end.

Definition Run (fuel : nat) (r : @testRun APIClient) (st : state) : option (state * outcome) :=
  let '(rs, w) := st in
  let logger := [("name", AttrString (Name r)); ("tool", AttrString (Tool r))] in
  let w := Info logger "Running test" [("output", AttrString (OutPath r))] w in
  let (w, err) := call (EvStat (OutPath r)) (os_Stat (OutPath r)) w in
  match err with
  | None =>
      Some ((rs, w),
            Returned (Some (fmt_Errorf "output folder %q already exists"
                              [ArgString (OutPath r)])))
  | Some _ =>
      let (w, err) := call (EvMkdirAll (OutPath r)) (os_MkdirAll (OutPath r)) w in
      match err with
      | Some err =>
          Some ((rs, w),
                Returned (Some (fmt_Errorf "failed to create output folder %q: %w"
                                  [ArgString (OutPath r); ArgErr err])))
      | None =>
          let rs := {| cleanupFns := cleanupFns rs;
                       goroutinePool := [];
                       goroutinePoolDead := false |} in
          match forward fuel r logger steps (rs, w) with
          | None => None
          | Some (st, o) => Some (deferred r st o)
          end
      end
  end.

End Engine.

(** ** [Run] of the package (lines 45-64) *)

(** The function of the package that runs a whole configuration; it bears the
    name of the method of [testRun] above, so it stands in a module of its
    own. *)
Module Package.

Section Run.
Context {lib : GoLib} {APIClient E : Type} {W : Env APIClient E}.

(** [now.Format] with the layout 20060102150405, in the local time zone. *)
Variable Format : Z -> string.

(** The unexported fields of a [testRun] that [buildTestRuns] has just
    built: no cleanup function, no pool, no flag. *)
Definition newRunState : @runState E :=
  {| cleanupFns := []; goroutinePool := []; goroutinePoolDead := false |}.

(** The loop over [testRuns] (lines 55-61). [fmt.Println] writes an empty
    line to the standard output, of which the world keeps nothing. A panic
    of a run goes on: the function defers nothing. *)
Fixpoint runTests (fuel : nat) (i : nat) (testRuns : list (@testRun APIClient)) (w : @World E)
    : option (@World E * outcome) :=
  match testRuns with
  | [] => Some (w, Returned None)
  | tr :: testRuns' =>
      match Run fuel tr (newRunState, w) with
      | None => None
      | Some ((_, w), Returned None) => runTests fuel (S i) testRuns' w
      | Some ((_, w), Returned (Some err)) =>
          Some (w, Returned (Some (fmt_Errorf "failed to run test %d (%s): %w"
                                     [ArgInt (Z.of_nat i); ArgString (Tool tr); ArgErr err])))
      | Some ((_, w), Panicked v) => Some (w, Panicked v)
      end
  end.

Definition Run (fuel : nat) (cfg : config.Config.t) (opt : @RunOptions APIClient)
    (w : @World E) : option (@World E * outcome) :=
  let (w, err) := call (EvMkdirAll (opt_OutPath opt)) (os_MkdirAll (opt_OutPath opt)) w in
  match err with
  | Some err =>
      Some (w, Returned (Some (fmt_Errorf "failed to create output directory: %w"
                                 [ArgErr err])))
  | None =>
      let (e, now) := time_Now (env w) in
      let w := {| env := e; trace := trace w; logs := logs w |} in
      let testRuns := buildTestRuns (Format now) cfg opt in
      let w := Info [] "Identified tests"
                 [("count", AttrInt (Z.of_nat (length testRuns)))] w in
      runTests fuel 0 testRuns w
  end.

End Run.

End Package.

End benchi.

(** ** The decoder of package mapstructure, as [parseConfig] sets it up *)

(** [mapstructure.Decoder] with [ErrorUnused], [WeaklyTypedInput], the tag
    name [yaml] and the hook [StringToTimeDurationHookFunc], decoding a map
    into a struct: the library is not part of the repository; this is its
    [decodeStructFromMap], [decodeString], [decodeInt] and [decodeSlice] on
    the values of [any]. *)
Module mapstructure.

Section Decoder.
Context {lib : GoLib}.

(** A field of the target struct: its name under the tag and the decoding
    of a value into it. *)
Record field (T : Type) := {
  fieldName : string;
  decode : string -> any -> T -> error + T;
}.
Arguments fieldName {T}.
Arguments decode {T}.

Definition unconvertible (name expected : string) : error :=
  fmt_Errorf "'%s' expected type '%s', got unconvertible type" [ArgString name; ArgString expected].

Definition decodeString (name : string) (data : any) : error + string :=
  match data with
  | str s => inr s
  | boolean b => inr (if b then "1" else "0")
  | int z => inr (pretty z)
  | _ => inl (unconvertible name "string")
  end.

(** A [time.Duration] field: the hook parses a string, [decodeInt] takes the
    other kinds. *)
Definition decodeDuration (name : string) (data : any) : error + Z :=
  match data with
  | str s =>
      match time_ParseDuration s with
      | inl err => inl (fmt_Errorf "error decoding '%s': %w" [ArgString name; ArgErr err])
      | inr d => inr d
      end
  | int z => inr z
  | boolean b => inr (if b then 1 else 0)%Z
  | _ => inl (unconvertible name "int64")
  end.

(** The key of the map a field is read from: the field name itself, else a
    key that [MatchName] (by default [strings.EqualFold]) accepts. *)
Definition lookupKey (dataVal : gmap string any) (name : string) : option (string * any) :=
  match dataVal !! name with
  | Some v => Some (name, v)
  | None => find (fun kv => strings_EqualFold (fst kv) name) (map_to_list dataVal)
  end.

Definition decodeField {T} (name : string) (dataVal : gmap string any)
    (acc : T * gset string * list error) (f : field T) : T * gset string * list error :=
  let '(val, unused, errors) := acc in
  match lookupKey dataVal (fieldName f) with
  | None => acc
  | Some (rawMapKey, rawMapVal) =>
      let unused := unused ∖ {[rawMapKey]} in
      match rawMapVal with
      | nil_any => (val, unused, errors)
      | _ =>
          let fieldName := if String.eqb name "" then fieldName f
                           else name +:+ "." +:+ fieldName f in
          match decode f fieldName rawMapVal val with
          | inl err => (val, unused, errors ++ [err])
          | inr val => (val, unused, errors)
          end
      end
  end.

Definition sort_Strings : list string -> list string :=
  merge_sort (fun a b => Is_true (String.leb a b)).

Fixpoint strings_Join (elems : list string) (sep : string) : string :=
  match elems with
  | [] => ""
  | [s] => s
  | s :: elems' => s +:+ sep +:+ strings_Join elems' sep
  end.

Definition decodeStructFromMap {T} (name : string) (fields : list (field T))
    (dataVal : gmap string any) (val : T) : error + T :=
  let '(val, unused, errors) :=
    fold_left (decodeField name dataVal) fields (val, dom dataVal, []) in
  let errors :=
    if decide (unused = ∅) then errors
    else errors ++ [fmt_Errorf "'%s' has invalid keys: %s"
                      [ArgString name;
                       ArgString (strings_Join (sort_Strings (elements unused)) ", ")]] in
  match errors with
  | [] => inr val
  | _ :: _ => inl (joinError errors)
  end.

(** [decodeStruct]: only a map decodes into a struct. *)
Definition decodeStruct {T} (fields : list (field T)) (zero : T) (name : string)
    (data : any) : error + T :=
  match data with
  | nil_any => inr zero
  | map_any m => decodeStructFromMap name fields m zero
  | _ => inl (fmt_Errorf "'%s' expected a map" [ArgString name])
  end.

(** [decodeSlice] into a nil slice of structs: an element per input element;
    weakly typed, an empty map is the empty slice and any other value that
    is no slice is taken as a slice of one element. *)
Fixpoint decodeElems {T} (fields : list (field T)) (zero : T) (name : string) (i : nat)
    (elems : list any) : list T * list error :=
  match elems with
  | [] => ([], [])
  | currentData :: elems' =>
      let (vals, errors) := decodeElems fields zero name (S i) elems' in
      match decodeStruct fields zero (name +:+ "[" +:+ pretty i +:+ "]") currentData with
      | inl err => (zero :: vals, err :: errors)
      | inr v => (v :: vals, errors)
      end
  end.

Definition decodeSlice {T} (fields : list (field T)) (zero : T) (name : string)
    (data : any) : error + list T :=
  let elems :=
    match data with
    | slice_any l => l
    | slice_map l => map map_any l
    | map_any m => if decide (m = ∅) then [] else [data]
    | _ => [data]
    end in
  let (vals, errors) := decodeElems fields zero name 0 elems in
  match errors with
  | [] => inr vals
  | _ :: _ => inl (joinError errors)
  end.

End Decoder.

Arguments fieldName {T}.
Arguments decode {T}.

End mapstructure.

(** ** Package prometheus: the configuration of the generic collector *)

Module prometheus.

Import mapstructure.

Record QueryConfig := {
  Name : string;
  QueryString : string;
  Interval : Z;
  Unit : string;
}.

Record Config := {
  URL : string;
  ScrapeInterval : Z;
  Queries : list QueryConfig;
}.

Definition Second : Z := 1000000000.

Definition defaultConfig : Config :=
  {| URL := ""; ScrapeInterval := Second; Queries := [] |}.

Section ParseConfig.
Context {lib : GoLib}.

(** The fields with their [yaml] tags. *)
Definition set {A T} (dec : string -> any -> error + A) (put : A -> T -> T)
    : string -> any -> T -> error + T :=
  fun name data val =>
    match dec name data with
    | inl err => inl err
    | inr a => inr (put a val)
    end.

Definition QueryConfig_zero : QueryConfig :=
  {| Name := ""; QueryString := ""; Interval := 0; Unit := "" |}.

Definition QueryConfig_fields : list (field QueryConfig) :=
  [ {| fieldName := "name";
       decode := set decodeString (fun a q =>
         {| Name := a; QueryString := QueryString q; Interval := Interval q; Unit := Unit q |}) |};
    {| fieldName := "query";
       decode := set decodeString (fun a q =>
         {| Name := Name q; QueryString := a; Interval := Interval q; Unit := Unit q |}) |};
    {| fieldName := "interval";
       decode := set decodeDuration (fun a q =>
         {| Name := Name q; QueryString := QueryString q; Interval := a; Unit := Unit q |}) |};
    {| fieldName := "unit";
       decode := set decodeString (fun a q =>
         {| Name := Name q; QueryString := QueryString q; Interval := Interval q; Unit := a |}) |} ].

Definition Config_fields : list (field Config) :=
  [ {| fieldName := "url";
       decode := set decodeString (fun a c =>
         {| URL := a; ScrapeInterval := ScrapeInterval c; Queries := Queries c |}) |};
    {| fieldName := "scrape-interval";
       decode := set decodeDuration (fun a c =>
         {| URL := URL c; ScrapeInterval := a; Queries := Queries c |}) |};
    {| fieldName := "queries";
       decode := set (decodeSlice QueryConfig_fields QueryConfig_zero) (fun a c =>
         {| URL := URL c; ScrapeInterval := ScrapeInterval c; Queries := a |}) |} ].

(** [Config.parseURL] (lines 221-227 of the prometheus file). *)
Definition parseURL (c : Config) : option error :=
  match url_Parse (URL c) with
  | Some err => Some (fmt_Errorf "failed to parse URL: %w" [ArgErr err])
  | None => None
  end.

(** [parseConfig] (lines 194-219). [NewDecoder] does not fail on this
    configuration. *)
Definition parseConfig (settings : gmap string any) : error + Config :=
  let cfg := defaultConfig in
  match decodeStructFromMap "" Config_fields settings cfg with
  | inl err => inl (fmt_Errorf "failed to decode settings: %w" [ArgErr err])
  | inr cfg =>
      match parseURL cfg with
      | Some err => inl (fmt_Errorf "failed to parse URL: %w" [ArgErr err])
      | None => inr cfg
      end
  end.

(** Modelled from the spec: [Collector.Configure] of this package is not among
    the sources. It decodes the settings bag into the typed configuration and
    fails when that fails. *)
Definition Configure (settings : gmap string any) : option error :=
  match parseConfig settings with
  | inl err => Some err
  | inr _ => None
  end.

End ParseConfig.

End prometheus.

(** ** Package kafka: the collector that specializes the generic one *)

Module kafka.

Record Config := { Topics : list string }.

Section Configure.
Context {lib : GoLib}.

(** [parseConfig] of this package is not among the sources: it is what the
    collector is given. [Collector_Configure] is the [Configure] of the
    embedded collector. *)
Variable parseConfig : gmap string any -> error + Config.
Variable Collector_Configure : gmap string any -> option error.

(** The three queries of a topic (lines 118-135). *)
Definition query (name queryString unit : string) : gmap string any :=
  {[ "name" := str name; "query" := str queryString; "unit" := str unit;
     "interval" := str "1s" ]}.

Definition topicQueries (topic : string) : list (gmap string any) :=
  [ query ("msg-rate-in-per-second[" +:+ topic +:+ "]")
      ("rate(kafka_server_messages_in_per_sec_per_topic_total{topic="
         +:+ strconv_Quote topic +:+ "}[2s])")
      "msg/s";
    query ("msg-megabytes-in-per-second[" +:+ topic +:+ "]")
      ("rate(kafka_server_total_bytes_in_per_sec_per_topic{topic="
         +:+ strconv_Quote topic +:+ "}[2s])/1048576")
      "MB/s";
    query ("msg-megabytes-out-per-second[" +:+ topic +:+ "]")
      ("rate(kafka_server_total_bytes_out_per_sec_per_topic{topic="
         +:+ strconv_Quote topic +:+ "}[2s])/1048576")
      "MB/s" ].

(** [Configure] (lines 105-149): the bag as the call leaves it, which is the
    bag the embedded collector was given, and the error returned. *)
Definition Configure (settings : gmap string any) : gmap string any * option error :=
  match parseConfig settings with
  | inl err => (settings, Some (fmt_Errorf "failed to parse config: %w" [ArgErr err]))
  | inr cfg =>
      let settings := delete "topics" settings in
      let queries := fold_left (fun queries topic => queries ++ topicQueries topic)
                       (Topics cfg) [] in
      let queries :=
        match settings !! "queries" with
        | Some (slice_map settingsQueries) => queries ++ settingsQueries
        | _ => queries
        end in
      let settings := <["queries" := slice_map queries]> settings in
      (settings, Collector_Configure settings)
  end.

End Configure.

End kafka.

(** ** Stand-ins and inputs for the examples *)

Module Examples.

Import config benchi.

Definition quote_char : string := String (Ascii.ascii_of_nat 34) EmptyString.

Definition lower (c : Ascii.ascii) : Ascii.ascii :=
  let n := Ascii.nat_of_ascii c in
  if ((65 <=? n) && (n <=? 90))%nat then Ascii.ascii_of_nat (n + 32) else c.

Fixpoint fold_case (s : string) : string :=
  match s with
  | EmptyString => EmptyString
  | String c s' => String (lower c) (fold_case s')
  end.

Fixpoint stringContainsCTLByte (s : string) : bool :=
  match s with
  | EmptyString => false
  | String c s' =>
      let n := Ascii.nat_of_ascii c in
      ((n <? 32) || (n =? 127))%nat || stringContainsCTLByte s'
  end.

(** Stand-ins for the Go standard library, right on the inputs the examples
    give them: paths without separators to clean, strings of printable ASCII
    without quotes or backslashes, ASCII keys, URLs and durations that Go
    accepts as they stand ([url.Parse] is cut down to its first test, the
    control characters; the one duration known is 1s). *)
Definition exampleLib : GoLib :=
  {| filepath_Join := fun a b => a +:+ "/" +:+ b;
     strconv_Quote := fun s => quote_char +:+ s +:+ quote_char;
     strings_EqualFold := fun a b => String.eqb (fold_case a) (fold_case b);
     url_Parse := fun rawURL =>
       if stringContainsCTLByte rawURL
       then Some (errors_New "net/url: invalid control character in URL")
       else None;
     time_ParseDuration := fun s =>
       if String.eqb s "1s" then inr 1000000000%Z
       else inl (errors_New "time: invalid duration") |}.

(** The configuration of [example/bench-kafka-kafka/bench.yml]; of a hook
    script the names of its commands are kept. *)
Definition kafka_to_kafka : Test.t :=
  {| Test.Name := "kafka-to-kafka";
     Test.Duration := 30 * 1000000000;
     Test.Steps := [("pre-infrastructure", []);
                    ("post-infrastructure", ["Create topics"; "Create test data"]);
                    ("pre-tool", []); ("post-tool", []); ("pre-test", []);
                    ("during", []); ("post-test", []);
                    ("pre-cleanup", []); ("post-cleanup", [])];
     Test.Infrastructure := [];
     Test.Tools := [("conduit", {| DockerCompose := "./conduit/compose-conduit.override.yml" |})];
     Test.Metrics := [] |}.

Definition bench_yml : Config.t :=
  {| Config.Infrastructure := [{| DockerCompose := "../infra/compose-kafka.yml" |}];
     Config.Tools := [("conduit", {| DockerCompose := "../tools/compose-conduit.yml" |})];
     Config.Metrics :=
       [{| Collector := "conduit";
           Settings := {[ "url" := str "http://localhost:8080/metrics";
                          "pipelines" := slice_any [str "kafka-to-kafka"] ]} |};
        {| Collector := "kafka";
           Settings := {[ "url" := str "http://localhost:7071/metrics";
                          "topics" := slice_any [str "benchi-in"; str "benchi-out"] ]} |};
        {| Collector := "docker";
           Settings := {[ "containers" :=
                            slice_any [str "benchi-kafka"; str "benchi-conduit"] ]} |}];
     Config.Tests := [kafka_to_kafka] |}.

Definition bench_opt : @RunOptions unit :=
  {| opt_OutPath := "results"; FilterTests := []; opt_DockerClient := tt |}.

(** A configuration with two scenarios; the second brings a tool and an
    infrastructure service of its own. *)
Definition two_scenarios : Config.t :=
  {| Config.Infrastructure := [{| DockerCompose := "kafka.yml" |}; {| DockerCompose := "db.yml" |}];
     Config.Tools := [("conduit", {| DockerCompose := "conduit.yml" |});
                      ("connect", {| DockerCompose := "connect.yml" |})];
     Config.Metrics := [];
     Config.Tests :=
       [kafka_to_kafka;
        {| Test.Name := "db-to-kafka";
           Test.Duration := 1000000000;
           Test.Steps := [];
           Test.Infrastructure := [{| DockerCompose := "kafka.yml" |}];
           Test.Tools := [("flink", {| DockerCompose := "flink.yml" |});
                          ("conduit", {| DockerCompose := "conduit2.yml" |})];
           Test.Metrics := [] |}] |}.

End Examples.

(* ================================================================== *)
(** * Part II: properties                                              *)
(* ================================================================== *)

(** ** The run builder *)

Module BuilderProps.

Import config benchi.

Section Builder.
Context {lib : GoLib} {APIClient : Type}.

Lemma fold_left_append {A} (l acc : list A) : fold_left append l acc = acc ++ l.
Proof.
  revert acc. induction l as [|x l IH]; intros acc; simpl.
  - by rewrite app_nil_r.
  - rewrite IH. unfold append. by rewrite <- app_assoc.
Qed.

Lemma fold_left_append_map {A B} (f : A -> B) (l : list A) (acc : list B) :
  fold_left (fun acc x => append acc (f x)) l acc = acc ++ map f l.
Proof.
  revert acc. induction l as [|x l IH]; intros acc; simpl.
  - by rewrite app_nil_r.
  - rewrite IH. unfold append. by rewrite <- app_assoc.
Qed.

(** Whether a name is not declared among the global tools. *)
Definition scenarioOnly (cfg : Config.t) (k : string) : bool :=
  match map_index (Config.Tools cfg) k with
  | Some _ => false
  | None => true
  end.

Lemma toolNames_eq cfg t :
  toolNames cfg t =
  maps_Keys (Config.Tools cfg) ++ List.filter (scenarioOnly cfg) (maps_Keys (Test.Tools t)).
Proof.
  unfold toolNames. generalize (maps_Keys (Config.Tools cfg)) as names.
  induction (Test.Tools t) as [|[k v] m IH]; intros names; simpl.
  - by rewrite app_nil_r.
  - rewrite IH. unfold scenarioOnly at 2.
    destruct (map_index (Config.Tools cfg) k); simpl; [done|].
    unfold append. by rewrite <- app_assoc.
Qed.


Lemma map_index_None_not_In {V} (m : gomap V) k :
  map_index m k = None -> ~ In k (maps_Keys m).
Proof.
  induction m as [|[k' v'] m IH]; simpl; [tauto|].
  destruct (String.eqb_spec k' k); [done|]. intros Hn [?|?]; [done|]. by apply IH.
Qed.


(** The runs of one scenario, as the loops build them. *)
Definition runsOf (now : string) (cfg : Config.t) (opt : RunOptions) (t : Test.t)
    : list (@testRun APIClient) :=
  map (buildRun now cfg opt t
         (Config.Infrastructure cfg ++ Test.Infrastructure t)
         (Config.Metrics cfg ++ Test.Metrics t))
      (toolNames cfg t).

Lemma buildTestRunsFor_eq now cfg opt runs t :
  buildTestRunsFor now cfg opt runs t = runs ++ runsOf now cfg opt t.
Proof.
  unfold buildTestRunsFor, runsOf.
  rewrite fold_left_append_map, !fold_left_append. by simpl.
Qed.

Lemma buildTestRuns_eq now cfg opt :
  buildTestRuns now cfg opt = flat_map (runsOf now cfg opt) (Config.Tests cfg).
Proof.
  unfold buildTestRuns.
  assert (forall ts acc, fold_left (buildTestRunsFor now cfg opt) ts acc
                         = acc ++ flat_map (runsOf now cfg opt) ts) as Hgen.
  { induction ts as [|t ts IH]; intros acc; simpl.
    - by rewrite app_nil_r.
    - rewrite IH, buildTestRunsFor_eq. by rewrite <- app_assoc. }
  by rewrite Hgen.
Qed.

(** C7. Every run that [buildTestRuns] builds comes from a scenario of the
    configuration, and its infrastructure list is the global list followed
    by the list of that scenario, each in its own order and with nothing
    removed; its metrics list is the global metrics followed by the metrics
    of the scenario. *)
Theorem buildTestRuns_merge_order now cfg opt (r : @testRun APIClient) :
  In r (buildTestRuns now cfg opt) ->
  exists t, In t (Config.Tests cfg) /\
    Name r = Test.Name t /\
    Infrastructure r = Config.Infrastructure cfg ++ Test.Infrastructure t /\
    Metrics r = Config.Metrics cfg ++ Test.Metrics t.
Proof.
  rewrite buildTestRuns_eq. intros Hin.
  apply in_flat_map in Hin as (t & Ht & Hr).
  unfold runsOf in Hr. apply in_map_iff in Hr as (tool & <- & _).
  exists t. by simpl.
Qed.


End Builder.

End BuilderProps.

(** ** The run builder on the example configurations *)

Module BuilderExamples.

Import config benchi BuilderProps Examples.

#[local] Existing Instance exampleLib.

(** [bench.yml] gives one run: kafka-to-kafka with conduit, the global
    composition file of the tool before the one of the scenario. *)
Example buildTestRuns_bench_yml :
  map (fun r => (Name r, Tool r, Infrastructure r, Tools r))
      (buildTestRuns "20250101000000" bench_yml bench_opt) =
  [("kafka-to-kafka", "conduit",
    [{| DockerCompose := "../infra/compose-kafka.yml" |}],
    [{| DockerCompose := "../tools/compose-conduit.yml" |};
     {| DockerCompose := "./conduit/compose-conduit.override.yml" |}])].
Proof. vm_compute. reflexivity. Qed.

(** The last run of [two_scenarios]: db-to-kafka with flink. The service
    kafka.yml is in its infrastructure twice. *)
Definition flinkRun : @testRun unit :=
  {| Infrastructure := [{| DockerCompose := "kafka.yml" |}; {| DockerCompose := "db.yml" |};
                        {| DockerCompose := "kafka.yml" |}];
     Tools := [{| DockerCompose := "flink.yml" |}];
     Metrics := [];
     Name := "db-to-kafka";
     Duration := 1000000000;
     Steps := [];
     Tool := "flink";
     OutPath := "results/20250101000000_db-to-kafka_flink";
     DockerClient := tt |}.

(** The run of flink belongs to db-to-kafka and has the two global
    services followed by the one of the scenario. *)
Lemma buildTestRuns_merge_order_witness :
  In flinkRun (buildTestRuns "20250101000000" two_scenarios bench_opt) /\
  exists t, In t (Config.Tests two_scenarios) /\
    Name flinkRun = Test.Name t /\
    Infrastructure flinkRun = Config.Infrastructure two_scenarios ++ Test.Infrastructure t /\
    Metrics flinkRun = Config.Metrics two_scenarios ++ Test.Metrics t.
Proof.
  assert (In flinkRun (buildTestRuns "20250101000000" two_scenarios bench_opt)) as Hin.
  { vm_compute. tauto. }
  split; [exact Hin|].
  exact (buildTestRuns_merge_order "20250101000000" two_scenarios bench_opt flinkRun Hin).
Defined.


End BuilderExamples.

(** ** The test-run engine *)

Module EngineProps.

Import config benchi.

Section Engine.
Context {lib : GoLib} {APIClient E : Type} {W : Env APIClient E}.

Abbreviation World := (@World E).
Abbreviation state := (@state E).
Abbreviation cleanupFn := (@cleanupFn E).
Abbreviation testRun := (@testRun APIClient).
Abbreviation runState := (@runState E).

(** *** What the log and the trace tell *)

(** The step a record announces: the records [loggerForStep] writes on
    entering a step. *)
Definition stepOf (e : LogEntry) : option string :=
  if String.eqb (msg e) "Running step" then
    match map_index (attrs e) "step" with
    | Some (AttrString s) => Some s
    | _ => None
    end
  else None.

Definition stepsEntered (l : list LogEntry) : list string := omap stepOf l.

Lemma stepsEntered_app l1 l2 :
  stepsEntered (l1 ++ l2) = stepsEntered l1 ++ stepsEntered l2.
Proof. unfold stepsEntered. apply omap_app. Qed.

(** [w'] comes after [w], with calls made and no step entered in between. *)
Definition grows (w w' : World) : Prop :=
  trace w `prefix_of` trace w' /\ stepsEntered (logs w') = stepsEntered (logs w).

Lemma grows_refl w : grows w w.
Proof. by split. Qed.

Lemma grows_trans w1 w2 w3 : grows w1 w2 -> grows w2 w3 -> grows w1 w3.
Proof. intros [? ?] [? ?]. split; [by etrans|congruence]. Qed.

Lemma call_fst {A} ev (op : E -> E * A) w :
  fst (call ev op w)
  = {| env := fst (op (env w)); trace := trace w ++ [ev]; logs := logs w |}.
Proof. unfold call. by destruct (op (env w)). Qed.

Lemma call_snd {A} ev (op : E -> E * A) w : snd (call ev op w) = snd (op (env w)).
Proof. unfold call. by destruct (op (env w)). Qed.

Lemma grows_call {A} ev (op : E -> E * A) w w' a :
  call ev op w = (w', a) -> grows w w'.
Proof.
  intros Hc. assert (w' = fst (call ev op w)) as -> by by rewrite Hc.
  rewrite call_fst. split; simpl; [by apply prefix_app_r|done].
Qed.

Lemma grows_slog lvl logger m args w :
  String.eqb m "Running step" = false -> grows w (slog_Log lvl logger m args w).
Proof.
  intros Hm. split; simpl; [done|].
  rewrite stepsEntered_app. unfold stepsEntered at 2. simpl. unfold stepOf. simpl.
  rewrite Hm. by rewrite app_nil_r.
Qed.

Lemma grows_Info logger m args w :
  String.eqb m "Running step" = false -> grows w (Info logger m args w).
Proof. apply grows_slog. Qed.

Lemma grows_Error logger m args w :
  String.eqb m "Running step" = false -> grows w (Error logger m args w).
Proof. apply grows_slog. Qed.

Lemma grows_env (w : World) e : grows w {| env := e; trace := trace w; logs := logs w |}.
Proof. by split. Qed.

(** A cleanup function that enters no step and only adds to the trace. *)
Definition fn_ok (fn : cleanupFn) : Prop := forall w, grows w (fst (fn w)).

Lemma closeFile_ok logPath : fn_ok (closeFile logPath).
Proof.
  intros w. unfold closeFile. destruct (call _ _ w) eqn:Hc. simpl.
  by eapply grows_call.
Qed.

Lemma composeDown_ok logger files : fn_ok (composeDown logger files).
Proof.
  intros w. unfold composeDown.
  destruct (call _ _ (Info logger "Stopping containers" [] w)) eqn:Hc. simpl.
  eapply grows_trans; [|by eapply grows_call]. by apply grows_slog.
Qed.

Lemma grows_discover n files w w' res :
  discover n files w = (w', res) -> grows w w'.
Proof.
  revert w. induction n as [|n IH]; intros w; simpl.
  - intros [= <- _]. apply grows_refl.
  - destruct (call EvAfterSecond select_Second w) as [w1 done] eqn:H1.
    apply grows_call in H1. destruct done.
    + intros [= <- _]. done.
    + destruct (call _ _ w1) as [w2 r2] eqn:H2. apply grows_call in H2.
      destruct r2 as [err|containers].
      * intros [= <- _]. by eapply grows_trans.
      * destruct (0 <? length containers)%nat.
        -- intros [= <- _]. by eapply grows_trans.
        -- intros Hd. apply IH in Hd. eapply grows_trans; [|done]. by eapply grows_trans.
Qed.

Lemma grows_pollOnce (r : testRun) logger c w w' res :
  pollOnce r logger c w = (w', res) -> grows w w'.
Proof.
  unfold pollOnce.
  destruct (call _ _ w) as [w1 r1] eqn:H1. apply grows_call in H1.
  destruct r1 as [err|resp]; [by intros [= <- _]|].
  destruct (types.Dead _); [by intros [= <- _]|].
  destruct (types.Health_ _) as [h|].
  - destruct (strings_EqualFold _ _).
    + intros [= <- _]. eapply grows_trans; [done|]. by apply grows_slog.
    + simpl. destruct (call EvAfterSecond _ _) as [w2 done] eqn:H2.
      apply grows_call in H2.
      assert (grows w w2).
      { eapply grows_trans; [done|]. eapply grows_trans; [|done]. by apply grows_slog. }
      by destruct done; intros [= <- _].
  - simpl. destruct (types.Running _).
    + intros [= <- _]. eapply grows_trans; [done|]. by apply grows_slog.
    + by intros [= <- _].
Qed.

Lemma grows_pollTurn (r : testRun) logger w wg c w' wg' :
  pollTurn r logger (w, wg) c = (w', wg') -> grows w w'.
Proof.
  unfold pollTurn. destruct (pollOnce r logger c w) as [w1 res] eqn:H1.
  intros [= <- _]. by eapply grows_pollOnce.
Qed.

Lemma grows_pollTurns (r : testRun) logger cs w wg w' wg' :
  fold_left (pollTurn r logger) cs (w, wg) = (w', wg') -> grows w w'.
Proof.
  revert w wg. induction cs as [|c cs IH]; intros w wg; cbn [fold_left].
  - intros [= <- _]. apply grows_refl.
  - destruct (pollTurn r logger (w, wg) c) as [w1 wg1] eqn:H1.
    intros Hf. eapply grows_trans; [eapply grows_pollTurn; exact H1|eapply IH; exact Hf].
Qed.

Lemma grows_wgWait fuel (r : testRun) logger w wg w' o :
  wgWait fuel r logger w wg = Some (w', o) -> grows w w'.
Proof.
  revert w wg. induction fuel as [|fuel IH]; intros w wg; simpl.
  - destruct (active wg); [|done]. intros [= <- _]. apply grows_refl.
  - destruct (active wg) eqn:Ha; [intros [= <- _]; apply grows_refl|].
    destruct (pollRound r logger w wg) as [w1 wg1] eqn:H1.
    intros Hw. eapply grows_trans; [|eapply IH; exact Hw].
    unfold pollRound in H1. eapply grows_pollTurns; exact H1.
Qed.

Lemma Load_spec (rs : runState) (w : World) rs' w' dead :
  Load (rs, w) = ((rs', w'), dead) ->
  cleanupFns rs' = cleanupFns rs /\ grows w w' /\ trace w' = trace w /\ logs w' = logs w
  /\ goroutinePoolDead rs' = dead.
Proof.
  unfold Load. destruct (settle _ _ _) as [[e running] d].
  intros [= <- <- <-]. simpl. repeat split; done.
Qed.

Lemma grows_testLoop fuel logger endTestAt w w' o :
  testLoop fuel logger endTestAt w = Some (w', o) -> grows w w'.
Proof.
  revert w. induction fuel as [|fuel IH]; intros w; simpl; [done|].
  destruct (time_Now (env w)) as [e now].
  destruct (call EvTestSelect _ _) as [w1 received] eqn:H1.
  apply grows_call in H1.
  assert (grows w w1) as Hg.
  { eapply grows_trans; [|done]. eapply grows_trans; [apply (grows_env w e)|].
    by apply grows_slog. }
  destruct received.
  - by intros [= <- _].
  - intros Hl. eapply grows_trans; [exact Hg|eapply IH; exact Hl].
  - by intros [= <- _].
Qed.

(** *** The cleanup functions, one after the other *)

(** Running a list of functions from its first to its last, each on the
    world the one before left, whatever it returned. *)
Fixpoint runAll (fns : list cleanupFn) (w : World) : World * list (option error) :=
  match fns with
  | [] => (w, [])
  | fn :: fns' =>
      let '(w, err) := fn w in
      let '(w, errs) := runAll fns' w in
      (w, err :: errs)
  end.

Lemma runAll_length fns w : length (snd (runAll fns w)) = length fns.
Proof.
  revert w. induction fns as [|fn fns IH]; intros w; simpl; [done|].
  destruct (fn w) as [w1 err]. specialize (IH w1).
  destruct (runAll fns w1) as [w2 errs]. simpl in *. by rewrite IH.
Qed.

Lemma cleanupLoop_take i (fns : list cleanupFn) errs w :
  i <= length fns ->
  cleanupLoop i fns errs w =
  (fst (runAll (rev (take i fns)) w), errs ++ snd (runAll (rev (take i fns)) w)).
Proof.
  revert errs w. induction i as [|i IH]; intros errs w Hi.
  - simpl. by rewrite app_nil_r.
  - cbn [cleanupLoop].
    destruct (fns !! i) as [fn|] eqn:Hfn;
      [|apply lookup_ge_None in Hfn; unfold benchi.cleanupFn in *; lia].
    erewrite take_S_r by exact Hfn. rewrite rev_app_distr. simpl.
    destruct (fn w) as [w1 err]. rewrite IH by lia.
    destruct (runAll (rev (take i fns)) w1) as [w2 errs2]. simpl.
    by rewrite <- app_assoc.
Qed.

Lemma cleanupLoop_runAll (fns : list cleanupFn) w :
  cleanupLoop (length fns) fns [] w = runAll (rev fns) w.
Proof.
  rewrite cleanupLoop_take by done. rewrite firstn_all. simpl.
  by destruct (runAll (rev fns) w).
Qed.

Lemma grows_runAll (fns : list cleanupFn) w :
  Forall fn_ok fns -> grows w (fst (runAll fns w)).
Proof.
  intros Hok. revert w. induction Hok as [|fn fns Hfn _ IH]; intros w; simpl.
  - apply grows_refl.
  - specialize (Hfn w). destruct (fn w) as [w1 err]. specialize (IH w1).
    destruct (runAll fns w1) as [w2 errs]. simpl in *. by eapply grows_trans.
Qed.

(** *** Steps *)

#[local] Arguments dockerComposeUpWait : simpl never.
#[local] Arguments testLoop : simpl never.
#[local] Arguments pollOnce : simpl never.
#[local] Arguments Load : simpl never.


(** [st'] comes after [st]: calls made, no step entered, cleanup functions
    added at the end of the list, each one well-behaved. *)
Definition st_grows (st st' : state) : Prop :=
  grows (snd st) (snd st') /\
  exists new, cleanupFns (fst st') = cleanupFns (fst st) ++ new /\ Forall fn_ok new.

Lemma st_grows_refl st : st_grows st st.
Proof. split; [apply grows_refl|]. exists []. by rewrite app_nil_r. Qed.

Lemma st_grows_trans st1 st2 st3 : st_grows st1 st2 -> st_grows st2 st3 -> st_grows st1 st3.
Proof.
  intros [Hg1 (n1 & E1 & F1)] [Hg2 (n2 & E2 & F2)]. split; [by eapply grows_trans|].
  exists (n1 ++ n2). rewrite E2, E1, <- app_assoc. split; [done|]. by apply Forall_app.
Qed.

Lemma st_grows_world (rs : runState) (w w' : World) : grows w w' -> st_grows (rs, w) (rs, w').
Proof. intros Hg. split; [done|]. exists []. by rewrite app_nil_r. Qed.

Lemma st_grows_ok st st' :
  st_grows st st' -> Forall fn_ok (cleanupFns (fst st)) -> Forall fn_ok (cleanupFns (fst st')).
Proof. intros [_ (new & -> & Hn)] Hok. by apply Forall_app. Qed.

Lemma startCompose_grows logger files logPath (st : state) :
  st_grows st (startCompose logger files logPath st).
Proof.
  destruct st as [rs w]. unfold startCompose, Go, register. split; simpl.
  - eapply grows_trans; [|by apply grows_slog].
    split; simpl; [by apply prefix_app_r|done].
  - exists [closeFile logPath; composeDown logger files].
    rewrite <- app_assoc. split; [done|].
    apply Forall_cons_2; [apply closeFile_ok|].
    apply Forall_cons_2; [apply composeDown_ok|]. apply Forall_nil_2.
Qed.

Lemma grows_waitForContainers fuel (r : testRun) logger containers w w' o :
  waitForContainers fuel r logger containers w = Some (w', o) -> grows w w'.
Proof.
  unfold waitForContainers.
  destruct (wgWait _ _ _ _ _) as [[w6 o6]|] eqn:H6; [|done].
  apply grows_wgWait in H6. destruct o6 as [[err|]|v]; by intros [= <- _].
Qed.

Lemma identified_not_step (n : nat) :
  String.eqb ("Identified " +:+ pretty n +:+ " containers") "Running step" = false.
Proof. reflexivity. Qed.

Lemma dockerComposeUpWait_grows fuel (r : testRun) logger files logPath st st' o :
  dockerComposeUpWait fuel r logger files logPath st = Some (st', o) -> st_grows st st'.
Proof.
  destruct st as [rs w]. unfold dockerComposeUpWait.
  destruct (call (EvCreate logPath) _ w) as [w1 err] eqn:H1. apply grows_call in H1.
  destruct err as [err|].
  { intros [= <- _]. by apply st_grows_world. }
  pose proof (startCompose_grows logger files logPath (rs, w1)) as Hg2.
  destruct (startCompose logger files logPath (rs, w1)) as [rs2 w2].
  assert (st_grows (rs, w) (rs2, w2)) as Hg2'.
  { eapply st_grows_trans; [|exact Hg2]. by apply st_grows_world. }
  destruct (discover 30 files w2) as [w3 found] eqn:H3. apply grows_discover in H3.
  destruct found as [err|containers].
  { intros [= <- _]. eapply st_grows_trans; [exact Hg2'|]. by apply st_grows_world. }
  set (w4 := Info logger _ [] w3).
  assert (grows w3 w4) as H4.
  { subst w4. apply grows_slog, identified_not_step. }
  destruct (Load (rs2, w4)) as [[rs5 w5] dead] eqn:H5.
  apply Load_spec in H5 as (Hc5 & Hg5 & _).
  assert (st_grows (rs, w) (rs5, w5)) as Hg.
  { eapply st_grows_trans; [exact Hg2'|]. split; simpl.
    - eapply grows_trans; [exact H3|]. by eapply grows_trans.
    - exists []. by rewrite app_nil_r. }
  destruct dead.
  { by intros [= <- _]. }
  destruct (waitForContainers fuel r logger containers w5) as [[w6 o6]|] eqn:H6; [|done].
  apply grows_waitForContainers in H6. intros [= <- _].
  eapply st_grows_trans; [exact Hg|]. by apply st_grows_world.
Qed.

(** A step was entered between [st] and [st'], and no other. *)
Definition enters (name : string) (st st' : state) : Prop :=
  trace (snd st) `prefix_of` trace (snd st') /\
  stepsEntered (logs (snd st')) = stepsEntered (logs (snd st)) ++ [name] /\
  exists new, cleanupFns (fst st') = cleanupFns (fst st) ++ new /\ Forall fn_ok new.

Lemma grows_lastLog logger err (w : World) : grows w (lastLog logger err w).
Proof. destruct err; by apply grows_slog. Qed.

Lemma loggerForStep_enters (r : testRun) name (w : World) :
  trace (fst (loggerForStep r name w)) = trace w /\
  stepsEntered (logs (fst (loggerForStep r name w))) = stepsEntered (logs w) ++ [name].
Proof. split; [done|]. simpl. by rewrite stepsEntered_app. Qed.

Lemma runStep_enters name (r : testRun) body st st' o :
  (forall logger st0 st1 o1, body logger st0 = Some (st1, o1) -> st_grows st0 st1) ->
  runStep name r body st = Some (st', o) -> enters name st st'.
Proof.
  intros Hbody. destruct st as [rs w]. unfold runStep.
  destruct (loggerForStep_enters r name w) as [Ht Hs].
  destruct (loggerForStep r name w) as [w1 logger]. simpl in Ht, Hs.
  destruct (body logger (rs, w1)) as [[[rs2 w2] o2]|] eqn:Hb; [|done].
  intros [= <- _]. apply Hbody in Hb as [[Hp He] Hnew]. simpl in *.
  pose proof (grows_lastLog logger (named_result o2) w2) as [Hp' He'].
  split; simpl; [|split; [|done]].
  - rewrite <- Ht. by etrans.
  - by rewrite He', He, Hs.
Qed.

Lemma runCleanupStep_enters name (r : testRun) body st st' err :
  (forall logger st0 st1 e1, body logger st0 = (st1, e1) ->
     grows (snd st0) (snd st1) /\ fst st1 = fst st0) ->
  runCleanupStep name r body st = (st', err) ->
  trace (snd st) `prefix_of` trace (snd st') /\
  stepsEntered (logs (snd st')) = stepsEntered (logs (snd st)) ++ [name] /\
  fst st' = fst st.
Proof.
  intros Hbody. destruct st as [rs w]. unfold runCleanupStep.
  destruct (loggerForStep_enters r name w) as [Ht Hs].
  destruct (loggerForStep r name w) as [w1 logger]. simpl in Ht, Hs.
  destruct (body logger (rs, w1)) as [[rs2 w2] e2] eqn:Hb.
  intros [= <- _]. apply Hbody in Hb as [[Hp He] Hrs]. simpl in *.
  pose proof (grows_lastLog logger e2 w2) as [Hp' He'].
  split; simpl; [|split; [|done]].
  - rewrite <- Ht. by etrans.
  - by rewrite He', He, Hs.
Qed.

(** The names of the forward steps, in the order of [steps]. *)
Definition stepNames : list string :=
  ["pre-infrastructure"; "infrastructure"; "post-infrastructure";
   "pre-tool"; "tool"; "post-tool";
   "pre-test"; "test"; "post-test"].

Definition cleanupNames : list string := ["pre-cleanup"; "cleanup"; "post-cleanup"].

Definition step_enters (name : string) (s : @step APIClient E) : Prop :=
  forall fuel r st st' o, s fuel r st = Some (st', o) -> enters name st st'.

Lemma returnNil_grows (logger : Logger) (st0 st1 : state) o1 :
  returnNil logger st0 = Some (st1, o1) -> st_grows st0 st1.
Proof. intros [= <- _]. apply st_grows_refl. Qed.

Lemma emptyStep_enters name :
  step_enters name (fun _ r => runStep name r returnNil).
Proof.
  intros fuel r st st' o Hs. eapply runStep_enters; [|exact Hs].
  intros ????. apply returnNil_grows.
Qed.

Lemma infrastructure_enters : step_enters "infrastructure" infrastructure.
Proof.
  intros fuel r st st' o Hs. eapply runStep_enters; [|exact Hs].
  intros logger [rs w] st1 o1. simpl.
  destruct (length _ =? 0)%nat.
  { intros [= <- _]. by apply st_grows_world, grows_slog. }
  destruct (dockerComposeUpWait _ _ _ _ _ _) as [[st2 o2]|] eqn:Hd; [|done].
  apply dockerComposeUpWait_grows in Hd. destruct st2 as [rs2 w2].
  destruct o2 as [[err|]|v]; [by intros [= <- _]| |by intros [= <- _]].
  intros [= <- _].
  eapply st_grows_trans; [exact Hd|]. by apply st_grows_world, grows_slog.
Qed.

Lemma tool_enters : step_enters "tool" tool.
Proof.
  intros fuel r st st' o Hs. eapply runStep_enters; [|exact Hs].
  intros logger [rs w] st1 o1. simpl.
  destruct (length _ =? 0)%nat.
  { intros [= <- _]. by apply st_grows_world, grows_slog. }
  destruct (dockerComposeUpWait _ _ _ _ _ _) as [[st2 o2]|] eqn:Hd; [|done].
  apply dockerComposeUpWait_grows in Hd. destruct st2 as [rs2 w2].
  destruct o2 as [[err|]|v]; [by intros [= <- _]| |by intros [= <- _]].
  intros [= <- _].
  eapply st_grows_trans; [exact Hd|]. by apply st_grows_world, grows_slog.
Qed.

Lemma test_enters : step_enters "test" test.
Proof.
  intros fuel r st st' o Hs. eapply runStep_enters; [|exact Hs].
  intros logger [rs w] st1 o1. simpl.
  destruct (time_Now (env w)) as [e now].
  destruct (testLoop _ _ _ _) as [[w2 o2]|] eqn:Ht; [|done].
  apply grows_testLoop in Ht. intros [= <- _].
  apply st_grows_world. eapply grows_trans; [apply (grows_env w e)|done].
Qed.

Lemma steps_enter : Forall2 step_enters stepNames steps.
Proof.
  unfold stepNames, steps.
  apply List.Forall2_cons; [apply emptyStep_enters|].
  apply List.Forall2_cons; [apply infrastructure_enters|].
  apply List.Forall2_cons; [apply emptyStep_enters|].
  apply List.Forall2_cons; [apply emptyStep_enters|].
  apply List.Forall2_cons; [apply tool_enters|].
  apply List.Forall2_cons; [apply emptyStep_enters|].
  apply List.Forall2_cons; [apply emptyStep_enters|].
  apply List.Forall2_cons; [apply test_enters|].
  apply List.Forall2_cons; [apply emptyStep_enters|].
  apply List.Forall2_nil.
Qed.

Lemma prefix_nil_l {A} (l : list A) : [] `prefix_of` l.
Proof. by exists l. Qed.

Lemma forward_spec names todo :
  Forall2 step_enters names todo ->
  forall fuel (r : testRun) logger (st st' : state) o,
    forward fuel r logger todo st = Some (st', o) ->
    exists done,
      done `prefix_of` names /\
      stepsEntered (logs (snd st')) = stepsEntered (logs (snd st)) ++ done /\
      trace (snd st) `prefix_of` trace (snd st') /\
      (exists new, cleanupFns (fst st') = cleanupFns (fst st) ++ new /\ Forall fn_ok new) /\
      (o = Returned None -> done = names).
Proof.
  induction 1 as [|name s names todo Hs _ IH]; intros fuel r logger [rs w] st' o.
  - simpl. intros [= <- <-]. exists []. simpl. rewrite app_nil_r.
    pose proof (grows_Info [] "Test successful"
                  [("name", AttrString (Name r)); ("tool", AttrString (Tool r))] w eq_refl)
      as [Hp He].
    repeat split; try done. exists []. by rewrite app_nil_r.
  - cbn [forward]. destruct (s fuel r (rs, w)) as [[[rs1 w1] o1]|] eqn:H1; [|done].
    apply Hs in H1 as (Hp1 & He1 & new1 & Hn1 & Hok1). simpl in *.
    destruct o1 as [[err|]|v].
    + intros [= <- <-]. exists [name].
      pose proof (grows_Error logger "Test stopped because of an error"
                    [("error", AttrError err)] w1 eq_refl) as [Hp He].
      split; [by apply prefix_cons, prefix_nil_l|].
      split; [cbn [snd]; by rewrite He|].
      split; [cbn [snd]; by etrans|].
      split; [by exists new1|done].
    + intros Hf. apply IH in Hf as (done & Hd & He & Hp & (new & Hn & Hok) & Hall).
      simpl in *. exists (name :: done).
      split; [by apply prefix_cons|].
      split; [by rewrite He, He1, <- app_assoc|].
      split; [by etrans|].
      split; [|by intros ->%Hall].
      exists (new1 ++ new). rewrite Hn, Hn1, <- app_assoc. split; [done|].
      by apply Forall_app.
    + intros [= <- <-]. exists [name].
      split; [by apply prefix_cons, prefix_nil_l|].
      split; [done|]. split; [done|]. split; [by exists new1|done].
Qed.

Lemma preCleanup_spec (r : testRun) (st st' : state) err :
  preCleanup r st = (st', err) ->
  trace (snd st) `prefix_of` trace (snd st') /\
  stepsEntered (logs (snd st')) = stepsEntered (logs (snd st)) ++ ["pre-cleanup"] /\
  fst st' = fst st /\ err = None.
Proof.
  intros Hs. assert (err = None) as ->.
  { destruct st as [rs w]. unfold preCleanup, runCleanupStep in Hs. simpl in Hs. congruence. }
  eapply runCleanupStep_enters in Hs as (? & ? & ?); [done|].
  intros logger st0 st1 e1 [= <- _]. split; [apply grows_refl|done].
Qed.

Lemma postCleanup_spec (r : testRun) (st st' : state) err :
  postCleanup r st = (st', err) ->
  trace (snd st) `prefix_of` trace (snd st') /\
  stepsEntered (logs (snd st')) = stepsEntered (logs (snd st)) ++ ["post-cleanup"] /\
  fst st' = fst st /\ err = None.
Proof.
  intros Hs. assert (err = None) as ->.
  { destruct st as [rs w]. unfold postCleanup, runCleanupStep in Hs. simpl in Hs. congruence. }
  eapply runCleanupStep_enters in Hs as (? & ? & ?); [done|].
  intros logger st0 st1 e1 [= <- _]. split; [apply grows_refl|done].
Qed.

(** The cleanup step, with the functions run in the order of [runAll]. *)
Lemma cleanup_unfold (r : testRun) (rs : runState) (w : World) :
  cleanup r (rs, w) =
  let w1 := fst (loggerForStep r "cleanup" w) in
  let logger := snd (loggerForStep r "cleanup" w) in
  let w2 := fst (runAll (rev (cleanupFns rs)) w1) in
  let results := snd (runAll (rev (cleanupFns rs)) w1) in
  ((rs, lastLog logger (errors_Join results) w2), errors_Join results).
Proof.
  unfold cleanup, runCleanupStep. simpl. rewrite cleanupLoop_runAll.
  by destruct (runAll _ _).
Qed.

Lemma cleanup_spec (r : testRun) (st st' : state) err :
  Forall fn_ok (cleanupFns (fst st)) ->
  cleanup r st = (st', err) ->
  trace (snd st) `prefix_of` trace (snd st') /\
  stepsEntered (logs (snd st')) = stepsEntered (logs (snd st)) ++ ["cleanup"] /\
  fst st' = fst st /\
  exists results, length results = length (cleanupFns (fst st)) /\ err = errors_Join results.
Proof.
  destruct st as [rs w]. intros Hok. rewrite cleanup_unfold. cbv zeta.
  set (w1 := fst (loggerForStep r "cleanup" w)).
  pose proof (grows_runAll (rev (cleanupFns rs)) w1) as [Hp He].
  { simpl in Hok. by apply Forall_rev. }
  intros [= <- <-]. cbn [fst snd].
  match goal with
  | |- context [lastLog ?l ?e ?w0] => pose proof (grows_lastLog l e w0) as [Hp' He']
  end.
  split; [|split; [|split; [done|]]].
  - cbn [snd]. etrans; [|exact Hp']. etrans; [|exact Hp]. done.
  - cbn [snd]. rewrite He', He. subst w1. simpl. by rewrite stepsEntered_app.
  - eexists. split; [|done]. by rewrite runAll_length, length_rev.
Qed.

Lemma deferred_spec (r : testRun) (st st' : state) o o' :
  Forall fn_ok (cleanupFns (fst st)) ->
  deferred r st o = (st', o') ->
  trace (snd st) `prefix_of` trace (snd st') /\
  stepsEntered (logs (snd st')) = stepsEntered (logs (snd st)) ++ cleanupNames /\
  fst st' = fst st /\
  exists results,
    length results = length (cleanupFns (fst st)) /\
    o' = match o with
         | Returned None => Returned (errors_Join [errors_Join results])
         | Returned (Some err) => Returned (Some err)
         | Panicked v => Panicked v
         end.
Proof.
  intros Hok. unfold deferred, cleanupSteps. cbn [fold_left].
  destruct (preCleanup r st) as [sta erra] eqn:Ha.
  apply preCleanup_spec in Ha as (Hpa & Hea & Hra & ->).
  destruct (cleanup r sta) as [stb errb] eqn:Hb.
  apply cleanup_spec in Hb as (Hpb & Heb & Hrb & results & Hlen & ->);
    [|by rewrite Hra].
  destruct (postCleanup r stb) as [stc errc] eqn:Hc.
  apply postCleanup_spec in Hc as (Hpc & Hec & Hrc & ->).
  assert (trace st.2 `prefix_of` trace stc.2) as Hp by (etrans; [|done]; by etrans).
  assert (stepsEntered (logs stc.2) = stepsEntered (logs st.2) ++ cleanupNames) as He.
  { rewrite Hec, Heb, Hea. unfold cleanupNames. by rewrite <- !app_assoc. }
  assert (stc.1 = st.1) as Hr by (by rewrite Hrc, Hrb).
  rewrite Hra in Hlen.
  destruct o as [[err|]|v].
  - destruct (errors_Join results) as [e|] eqn:Hj; simpl.
    + destruct stc as [rsc wc]. intros [= <- <-]. simpl in *.
      split; [done|]. split; [|split; [done|by exists results]].
      rewrite stepsEntered_app. simpl. by rewrite app_nil_r.
    + intros [= <- <-]. repeat split; try done. by exists results.
  - intros [= <- <-]. repeat split; try done. exists results. split; [done|].
    by destruct (errors_Join results).
  - intros [= <- <-]. repeat split; try done. exists results. split; [done|].
    by destruct (errors_Join results).
Qed.

(** *** [Run] past its guard *)

Definition runLogger (r : testRun) : Logger :=
  [("name", AttrString (Name r)); ("tool", AttrString (Tool r))].

(** The world after [os.Stat] answered, leaving the outside world as [e]. *)
Definition statWorld (r : testRun) (w : World) (e : E) : World :=
  {| env := e;
     trace := trace w ++ [EvStat (OutPath r)];
     logs := logs (Info (runLogger r) "Running test" [("output", AttrString (OutPath r))] w) |}.

(** The world after [os.MkdirAll] answered as well. *)
Definition mkdirWorld (r : testRun) (w : World) (e : E) : World :=
  {| env := e;
     trace := (trace w ++ [EvStat (OutPath r)]) ++ [EvMkdirAll (OutPath r)];
     logs := logs (Info (runLogger r) "Running test" [("output", AttrString (OutPath r))] w) |}.

(** The run state with the pool and the flag of lines 155-156. *)
Definition freshPool (rs : runState) : runState :=
  {| cleanupFns := cleanupFns rs; goroutinePool := []; goroutinePoolDead := false |}.

Lemma Run_exists fuel (r : testRun) (rs : runState) (w : World) e1 :
  os_Stat (OutPath r) (env w) = (e1, None) ->
  Run fuel r (rs, w) =
  Some ((rs, statWorld r w e1),
        Returned (Some (fmt_Errorf "output folder %q already exists" [ArgString (OutPath r)]))).
Proof. intros Hs. unfold Run, call. simpl. by rewrite Hs. Qed.

Lemma Run_mkdir_fails fuel (r : testRun) (rs : runState) (w : World) e1 err1 e2 err2 :
  os_Stat (OutPath r) (env w) = (e1, Some err1) ->
  os_MkdirAll (OutPath r) e1 = (e2, Some err2) ->
  Run fuel r (rs, w) =
  Some ((rs, mkdirWorld r w e2),
        Returned (Some (fmt_Errorf "failed to create output folder %q: %w"
                          [ArgString (OutPath r); ArgErr err2]))).
Proof. intros Hs Hm. unfold Run, call. simpl. rewrite Hs. simpl. by rewrite Hm. Qed.

Lemma Run_proceeds fuel (r : testRun) (rs : runState) (w : World) e1 err1 e2 :
  os_Stat (OutPath r) (env w) = (e1, Some err1) ->
  os_MkdirAll (OutPath r) e1 = (e2, None) ->
  Run fuel r (rs, w) =
  match forward fuel r (runLogger r) steps (freshPool rs, mkdirWorld r w e2) with
  | None => None
  | Some (st, o) => Some (deferred r st o)
  end.
Proof. intros Hs Hm. unfold Run, call. simpl. rewrite Hs. simpl. by rewrite Hm. Qed.

(** *** The claims about cleanup and the output folder *)

Lemma errors_Join_None results :
  errors_Join results = None <-> Forall (fun res => res = None) results.
Proof.
  unfold errors_Join. induction results as [|[e|] results IH]; simpl.
  - split; [by constructor|done].
  - split; [done|]. by intros [[=] _]%Forall_cons.
  - rewrite IH. split; [by constructor|by intros [_ ?]%Forall_cons].
Qed.

Lemma errors_Join_Some results err :
  errors_Join results = Some err -> err = joinError (omap id results).
Proof. unfold errors_Join. destruct (omap id results); [done|]. by intros [= <-]. Qed.

(** C1. The cleanup step runs every registered cleanup function, the one
    registered last first and the one registered first last, each on the
    world the one before left and whatever that one returned; it returns
    [errors.Join] of their results: nil when none failed, else the join of
    exactly the errors returned, in the order the functions ran. *)
Theorem cleanup_runs_all_in_reverse (r : testRun) (rs : runState) (w : World) :
  let w1 := fst (loggerForStep r "cleanup" w) in
  let logger := snd (loggerForStep r "cleanup" w) in
  let w2 := fst (runAll (rev (cleanupFns rs)) w1) in
  let results := snd (runAll (rev (cleanupFns rs)) w1) in
  cleanup r (rs, w) = ((rs, lastLog logger (errors_Join results) w2), errors_Join results) /\
  length results = length (cleanupFns rs) /\
  (errors_Join results = None <-> Forall (fun res => res = None) results) /\
  (forall err, errors_Join results = Some err -> err = joinError (omap id results)).
Proof.
  cbv zeta. split; [apply cleanup_unfold|].
  split; [by rewrite runAll_length, length_rev|].
  split; [apply errors_Join_None|apply errors_Join_Some].
Qed.

Lemma stepsEntered_mkdirWorld (r : testRun) (w : World) e :
  stepsEntered (logs (mkdirWorld r w e)) = stepsEntered (logs w).
Proof. simpl. rewrite stepsEntered_app. simpl. by rewrite app_nil_r. Qed.



(** C3. When [os.Stat] finds the output folder, [Run] returns the error
    that the folder already exists; it has made no other call, so no
    container operation, and the cleanup functions are as they were.
    Otherwise the call made next is [os.MkdirAll] of the folder: every
    further call of the run comes after it, and when it fails there is none
    and no cleanup function is registered. *)
Theorem Run_output_folder_guard fuel (r : testRun) (rs : runState) (w : World) :
  (forall e1,
     os_Stat (OutPath r) (env w) = (e1, None) ->
     exists w',
       Run fuel r (rs, w) =
       Some ((rs, w'),
             Returned (Some (fmt_Errorf "output folder %q already exists"
                               [ArgString (OutPath r)]))) /\
       trace w' = trace w ++ [EvStat (OutPath r)]) /\
  (forall e1 err1 st' o,
     cleanupFns rs = [] ->
     os_Stat (OutPath r) (env w) = (e1, Some err1) ->
     Run fuel r (rs, w) = Some (st', o) ->
     exists rest,
       trace (snd st') = trace w ++ EvStat (OutPath r) :: EvMkdirAll (OutPath r) :: rest /\
       (forall e2 err2, os_MkdirAll (OutPath r) e1 = (e2, Some err2) ->
          rest = [] /\ fst st' = rs)).
Proof.
  split.
  - intros e1 Hs. exists (statWorld r w e1). by rewrite (Run_exists fuel r rs w e1 Hs).
  - intros e1 err1 st' o Hnil Hs.
    destruct (os_MkdirAll (OutPath r) e1) as [e2 [err2|]] eqn:Hm.
    + rewrite (Run_mkdir_fails fuel r rs w e1 err1 e2 err2 Hs Hm).
      intros [= <- <-]. exists []. simpl. rewrite <- app_assoc. split; [done|].
      by intros.
    + rewrite (Run_proceeds fuel r rs w e1 err1 e2 Hs Hm).
      destruct (forward _ _ _ _ _) as [[st1 o1]|] eqn:Hf; [|done].
      destruct (forward_spec _ _ steps_enter _ _ _ _ _ _ Hf)
        as (done & Hd & He & Hp & (new & Hn & Hok) & Hall).
      destruct (deferred r st1 o1) as [st2 o2] eqn:Hdef.
      apply deferred_spec in Hdef as (Hp2 & He2 & Hr2 & results & Hlen & Ho).
      2:{ rewrite Hn. simpl. rewrite Hnil. by simpl. }
      intros [= <- <-].
      assert (trace (mkdirWorld r w e2) `prefix_of` trace st2.2) as [rest Hrest]
        by by etrans.
      exists rest. rewrite Hrest. simpl. rewrite <- !app_assoc. split; [done|].
      by intros.
Qed.

(** *** Readiness polls *)

(** The world after a call that moved the outside world to [e]. *)
Definition called (ev : Event) (e : E) (w : World) : World :=
  {| env := e; trace := trace w ++ [ev]; logs := logs w |}.

Lemma call_eq {A} ev (op : E -> E * A) (w : World) e a :
  op (env w) = (e, a) -> call ev op w = (called ev e w, a).
Proof. intros Hop. unfold call. by rewrite Hop. Qed.



(** The turns that end as the poll is meant to: a healthy container and a
    running one without health check are ready; any other container with a
    health check makes the poll wait a second and, unless the context has
    ended, check again. *)
Lemma pollOnce_healthy (r : testRun) logger c (w : World) e' resp h :
  ContainerInspect (DockerClient r) c (env w) = (e', inr resp) ->
  types.Dead (types.State resp) = false ->
  types.Health_ (types.State resp) = Some h ->
  strings_EqualFold (types.Status h) "healthy" = true ->
  pollOnce r logger c w =
    (Info logger "Container is healthy" [("container", AttrString (types.Name resp))]
       (called (EvContainerInspect c) e' w),
     PollReturn None).
Proof.
  intros Hi Hd Hh Hf. unfold pollOnce. rewrite (call_eq _ _ _ _ _ Hi).
  by rewrite Hd, Hh, Hf.
Qed.

Lemma pollOnce_running (r : testRun) logger c (w : World) e' resp :
  ContainerInspect (DockerClient r) c (env w) = (e', inr resp) ->
  types.Dead (types.State resp) = false ->
  types.Health_ (types.State resp) = None ->
  types.Running (types.State resp) = true ->
  pollOnce r logger c w =
    (Info logger "Container is running (consider adding a health check!)"
       [("container", AttrString (types.Name resp))]
       (called (EvContainerInspect c) e' w),
     PollReturn None).
Proof.
  intros Hi Hd Hh Hr. unfold pollOnce. rewrite (call_eq _ _ _ _ _ Hi).
  by rewrite Hd, Hh, Hr.
Qed.


(** C4, the case that fails. A turn of the poll whose inspection reports a
    container that is not dead, has no health check and is not running
    panics: line 496 dereferences the nil [State.Health]. The poll neither
    waits nor checks again. *)
Theorem poll_without_health_check_not_running_panics
    (r : testRun) logger c (w : World) e' resp :
  ContainerInspect (DockerClient r) c (env w) = (e', inr resp) ->
  types.Dead (types.State resp) = false ->
  types.Health_ (types.State resp) = None ->
  types.Running (types.State resp) = false ->
  pollOnce r logger c w = (called (EvContainerInspect c) e' w, PollPanic nil_dereference).
Proof.
  intros Hi Hd Hh Hr. unfold pollOnce. rewrite (call_eq _ _ _ _ _ Hi).
  by rewrite Hd, Hh, Hr.
Qed.








(** *** Discovery of the containers *)

Definition isDiscoveryCall (files : list string) (ev : Event) : Prop :=
  ev = EvAfterSecond \/ ev = EvComposePs files.

Lemma discover_calls n files (w : World) w' res :
  discover n files w = (w', res) ->
  exists calls, trace w' = trace w ++ calls /\ Forall (isDiscoveryCall files) calls /\
                length calls <= 2 * n.
Proof.
  revert w. induction n as [|n IH]; intros w; simpl.
  - intros [= <- _]. exists []. rewrite app_nil_r. split; [done|]. split; [by constructor|].
    simpl. lia.
  - destruct (select_Second (env w)) as [e1 done] eqn:H1.
    rewrite (call_eq _ _ _ _ _ H1). destruct done.
    { intros [= <- _]. exists [EvAfterSecond]. split; [done|].
      split; [|simpl; lia]. repeat constructor. }
    destruct (ComposePs files (env (called EvAfterSecond e1 w))) as [e2 r2] eqn:H2.
    rewrite (call_eq _ _ _ _ _ H2).
    assert (Forall (isDiscoveryCall files) [EvAfterSecond; EvComposePs files]) as Hf.
    { constructor; [by left|]. constructor; [by right|]. constructor. }
    destruct r2 as [err|containers].
    { intros [= <- _]. exists [EvAfterSecond; EvComposePs files]. simpl.
      rewrite <- app_assoc. split; [done|]. split; [done|lia]. }
    destruct (0 <? length containers)%nat.
    { intros [= <- _]. exists [EvAfterSecond; EvComposePs files]. simpl.
      rewrite <- app_assoc. split; [done|]. split; [done|lia]. }
    intros (calls & Ht & Hc & Hl)%IH.
    exists ([EvAfterSecond; EvComposePs files] ++ calls). simpl in *.
    rewrite Ht, <- !app_assoc. split; [done|]. split; [|lia].
    by apply Forall_cons_2; [left|apply Forall_cons_2; [right|]].
Qed.

(** C6, amended. [r.goroutinePoolDead] is read once, after the discovery
    loop has ended with a listing; the loop does not look at it. When the
    flag is set at that point, [dockerComposeUpWait] returns the error
    "failed to start containers" at once, whatever [fuel] is: after creating
    the log file and starting [ComposeUp] it has made only the waits and the
    listings of the discovery loop, and has inspected no container. *)
Theorem dead_pool_read_after_discovery
    fuel (r : testRun) logger files logPath (rs : runState) (w : World) e1 w2 containers st3 :
  os_Create logPath (env w) = (e1, None) ->
  let st1 := startCompose logger files logPath (rs, called (EvCreate logPath) e1 w) in
  discover 30 files (snd st1) = (w2, inr containers) ->
  Load (fst st1,
        Info logger ("Identified " +:+ pretty (length containers) +:+ " containers") [] w2)
    = (st3, true) ->
  dockerComposeUpWait fuel r logger files logPath (rs, w) =
    Some (st3, Returned (Some (errors_New "failed to start containers"))) /\
  exists calls,
    trace (snd st3) = trace w ++ EvCreate logPath :: EvComposeUp files :: calls /\
    Forall (isDiscoveryCall files) calls /\ length calls <= 60.
Proof.
  intros Hc st1 Hd Hl. split.
  - unfold dockerComposeUpWait. rewrite (call_eq _ _ _ _ _ Hc). fold st1.
    destruct st1 as [rs1 w1]. cbn [fst snd] in Hd, Hl. rewrite Hd.
    destruct st3 as [rs3 w3]. by rewrite Hl.
  - apply discover_calls in Hd as (calls & Ht & Hf & Hlen).
    exists calls. split; [|split; [done|lia]].
    destruct st3 as [rs3 w3]. destruct st1 as [rs1 w1] eqn:Hst1.
    apply Load_spec in Hl as (_ & _ & Htr & _). cbn [fst snd] in *.
    change (trace (Info logger ("Identified " +:+ pretty (length containers) +:+ " containers")
                     [] w2)) with (trace w2) in Htr.
    rewrite Htr, Ht.
    assert (trace w1 = (trace w ++ [EvCreate logPath]) ++ [EvComposeUp files]) as ->.
    { subst st1. unfold startCompose in Hst1. simpl in Hst1. by injection Hst1 as _ <-. }
    by rewrite <- !app_assoc.
Qed.

End Engine.

End EngineProps.

(** ** A scripted outside world, for the examples *)

Module Sim.

Import config benchi.

(** What the outside world will answer: whether the output folder exists;
    after how many seconds the background [ComposeUp] has returned, and with
    what; the listing of [ComposePs] after so many seconds; what the n-th
    inspection of a container reports; what [ComposeDown] and [Close]
    return. The context of the run never ends and the test window is over
    at once. *)
Record Script := {
  folder_exists : bool;
  up : nat -> option (option error);
  listing : nat -> list string;
  inspect : string -> nat -> types.ContainerJSON;
  down : option error;
  close : option error;
}.

(** The state of that world: the seconds waited and the inspections made. *)
Record t := {
  seconds : nat;
  inspected : list string;
}.

Definition start : t := {| seconds := 0; inspected := [] |}.

Definition env (sc : Script) : Env unit t :=
  {| os_Stat := fun _ e =>
       (e, if folder_exists sc then None
           else Some (errors_New "stat: no such file or directory"));
     os_MkdirAll := fun _ e => (e, None);
     os_Create := fun _ e => (e, None);
     File_Close := fun _ e => (e, close sc);
     ComposeUp_returned := fun _ e => (e, up sc (seconds e));
     ComposeDown := fun _ e => (e, down sc);
     ComposePs := fun _ e => (e, inr (listing sc (seconds e)));
     ContainerInspect := fun _ c e =>
       ({| seconds := seconds e; inspected := inspected e ++ [c] |},
        inr (inspect sc c (count_occ string_dec (inspected e) c)));
     select_Second := fun e =>
       ({| seconds := S (seconds e); inspected := inspected e |}, None);
     select_test := fun e => (e, TestCompleted);
     time_Now := fun e => (e, Z.of_nat (seconds e) * 1000000000)%Z |}.

Definition world0 : @World t := {| benchi.env := start; trace := []; logs := [] |}.

Definition rs0 : @runState t :=
  {| cleanupFns := []; goroutinePool := []; goroutinePoolDead := false |}.

(** The run [buildTestRuns] makes of [bench.yml]: kafka-to-kafka with
    conduit. *)
Definition run0 : @testRun unit :=
  {| Infrastructure := [{| DockerCompose := "../infra/compose-kafka.yml" |}];
     Tools := [{| DockerCompose := "../tools/compose-conduit.yml" |};
               {| DockerCompose := "./conduit/compose-conduit.override.yml" |}];
     Metrics := Config.Metrics Examples.bench_yml;
     Name := "kafka-to-kafka";
     Duration := 30 * 1000000000;
     Steps := Test.Steps Examples.kafka_to_kafka;
     Tool := "conduit";
     OutPath := "results/20250101000000_kafka-to-kafka_conduit";
     DockerClient := tt |}.

Example run0_built :
  buildTestRuns (lib := Examples.exampleLib) "20250101000000" Examples.bench_yml
    Examples.bench_opt = [run0].
Proof. reflexivity. Qed.

Definition container (name : string) (running dead : bool) (health : option string)
    : types.ContainerJSON :=
  {| types.Name := name;
     types.State := {| types.Running := running; types.Dead := dead;
                       types.Health_ := option_map types.Build_Health health |} |}.

(** One container, created but not started, without a health check. *)
Definition created_only : Script :=
  {| folder_exists := false;
     up := fun _ => None;
     listing := fun _ => ["c1"];
     inspect := fun _ _ => container "/benchi-kafka" false false None;
     down := None;
     close := None |}.

(** Container a is dead; b reports starting three times, then healthy. *)
Definition dead_and_slow : Script :=
  {| folder_exists := false;
     up := fun _ => None;
     listing := fun _ => ["a"; "b"];
     inspect := fun c n =>
       if String.eqb c "a" then container "/a" false true None
       else container "/b" true false (Some (if (n <? 3)%nat then "starting" else "healthy"));
     down := Some (errors_New "compose down failed");
     close := None |}.


(** [ComposeUp] fails at once and there never is a container. *)
Definition compose_up_fails : Script :=
  {| folder_exists := false;
     up := fun _ => Some (Some (errors_New "compose up failed"));
     listing := fun _ => [];
     inspect := fun _ _ => container "" false false None;
     down := None;
     close := None |}.

(** [ComposeUp] fails at once although a container shows up. *)
Definition compose_up_fails_late : Script :=
  {| folder_exists := false;
     up := fun _ => Some (Some (errors_New "compose up failed"));
     listing := fun _ => ["a"];
     inspect := fun _ _ => container "/a" true false None;
     down := None;
     close := None |}.

(** The output folder is there already. *)
Definition folder_there : Script :=
  {| folder_exists := true;
     up := fun _ => None;
     listing := fun _ => ["a"];
     inspect := fun _ _ => container "/a" true false None;
     down := None;
     close := None |}.

End Sim.

(** ** The engine on scripted worlds *)

Module EngineExamples.

Import config benchi Sim EngineProps.

#[local] Existing Instance Examples.exampleLib.

Definition infraFiles : list string := ["../infra/compose-kafka.yml"].

Definition infraLog : string :=
  "results/20250101000000_kafka-to-kafka_conduit/infrastructure.log".

Definition isListing (ev : Event) : bool :=
  match ev with EvComposePs _ => true | _ => false end.

Definition isWait (ev : Event) : bool :=
  match ev with EvAfterSecond => true | _ => false end.

Definition statError : error := errors_New "stat: no such file or directory".

(** Three cleanup functions, the second failing: they run third, second,
    first, and the error of the second is what the step returns. *)
Example cleanup_three_functions :
  let rs := {| cleanupFns := [closeFile (W := Sim.env dead_and_slow) "a.log";
                              composeDown (W := Sim.env dead_and_slow) [] ["a.yml"];
                              closeFile (W := Sim.env dead_and_slow) "b.log"];
               goroutinePool := []; goroutinePoolDead := false |} in
  let res := cleanup run0 (rs, world0) in
  trace (snd (fst res)) = [EvClose "b.log"; EvComposeDown ["a.yml"]; EvClose "a.log"] /\
  snd res = Some (joinError [errors_New "compose down failed"]).
Proof. vm_compute. by split. Qed.


(** The folder is there: one call, the error. The folder is not there:
    [os.MkdirAll] comes right after [os.Stat], everything else later. *)
Lemma Run_output_folder_guard_witness :
  (exists w',
     Run (W := Sim.env folder_there) 3 run0 (rs0, world0) =
       Some ((rs0, w'),
             Returned (Some (fmt_Errorf "output folder %q already exists"
                               [ArgString (OutPath run0)]))) /\
     trace w' = [EvStat (OutPath run0)]) /\
  (exists st' o rest,
     Run (W := Sim.env dead_and_slow) 10 run0 (rs0, world0) = Some (st', o) /\
     trace (snd st') = EvStat (OutPath run0) :: EvMkdirAll (OutPath run0) :: rest).
Proof.
  destruct (Run_output_folder_guard (W := Sim.env folder_there) 3 run0 rs0 world0) as [Ha _].
  destruct (Run_output_folder_guard (W := Sim.env dead_and_slow) 10 run0 rs0 world0) as [_ Hb].
  split.
  - destruct (Ha start eq_refl) as (w' & HR & Ht). exists w'. split; [exact HR|exact Ht].
  - destruct (Run (W := Sim.env dead_and_slow) 10 run0 (rs0, world0)) as [[st' o]|] eqn:HR;
      [|vm_compute in HR; discriminate HR].
    destruct (Hb start statError st' o eq_refl eq_refl eq_refl) as (rest & Ht & _).
    exists st', o, rest. split; [reflexivity|exact Ht].
Defined.

(** The container of [created_only]: the first turn of its poll panics. *)
Lemma poll_without_health_check_not_running_panics_witness :
  pollOnce (W := Sim.env created_only) run0 [] "c1" world0 =
    (called (EvContainerInspect "c1") {| seconds := 0; inspected := ["c1"] |} world0,
     PollPanic nil_dereference).
Proof.
  apply (poll_without_health_check_not_running_panics (W := Sim.env created_only)
           run0 [] "c1" world0 {| seconds := 0; inspected := ["c1"] |}
           (container "/benchi-kafka" false false None));
    reflexivity.
Defined.

(** With that container the infrastructure step, and [Run] with it, ends
    in the panic; the cleanup steps have run. *)
Example Run_panics_on_created_container :
  option_map (fun res => (snd res, stepsEntered (logs (snd (fst res)))))
    (Run (W := Sim.env created_only) 3 run0 (rs0, world0)) =
  Some (Panicked nil_dereference,
        ["pre-infrastructure"; "infrastructure"; "pre-cleanup"; "cleanup"; "post-cleanup"]).
Proof. vm_compute. reflexivity. Qed.





(** [ComposeUp] has failed and a container is listed: the step fails after
    the first listing and inspects nothing. *)
Lemma dead_pool_read_after_discovery_witness :
  exists st3 calls,
    dockerComposeUpWait (W := Sim.env compose_up_fails_late) 0 run0 [] infraFiles infraLog
      (rs0, world0) =
      Some (st3, Returned (Some (errors_New "failed to start containers"))) /\
    trace (snd st3) = EvCreate infraLog :: EvComposeUp infraFiles :: calls /\
    Forall (isDiscoveryCall infraFiles) calls.
Proof.
  destruct (Load (W := Sim.env compose_up_fails_late)
              (fst (startCompose (W := Sim.env compose_up_fails_late) [] infraFiles infraLog
                      (rs0, called (EvCreate infraLog) start world0)),
               Info [] ("Identified " +:+ pretty 1 +:+ " containers") []
                 (called (EvComposePs infraFiles) {| seconds := 1; inspected := [] |}
                    (called EvAfterSecond {| seconds := 1; inspected := [] |}
                       (snd (startCompose (W := Sim.env compose_up_fails_late) []
                               infraFiles infraLog
                               (rs0, called (EvCreate infraLog) start world0)))))))
    as [st3 dead] eqn:HL.
  assert (dead = true) as -> by (vm_compute in HL; congruence).
  destruct (dead_pool_read_after_discovery (W := Sim.env compose_up_fails_late)
              0 run0 [] infraFiles infraLog rs0 world0 start _ ["a"] st3
              eq_refl eq_refl HL) as (HR & calls & Ht & Hf & _).
  by exists st3, calls.
Defined.

(** C6 as stated fails. The background [ComposeUp] has failed before the
    first listing and no container ever shows up: the discovery loop still
    waits thirty times and lists thirty times before the step fails. *)
Lemma dead_pool_not_read_during_discovery :
  ComposeUp_returned (Env := Sim.env compose_up_fails) infraFiles start =
    (start, Some (Some (errors_New "compose up failed"))) /\
  option_map (fun res => (snd res,
                          length (List.filter isWait (trace (snd (fst res)))),
                          length (List.filter isListing (trace (snd (fst res))))))
    (dockerComposeUpWait (W := Sim.env compose_up_fails) 0 run0 [] infraFiles infraLog
       (rs0, world0)) =
  Some (Returned (Some (errors_New "failed to start containers")), 30, 30).
Proof. split; vm_compute; reflexivity. Qed.


End EngineExamples.

(** ** The collector configuration *)

Module MetricsProps.

Import mapstructure.

#[local] Set Warnings "-clear-no-such-hyp".

Section Decoder.
Context {lib : GoLib}.

(** A key the decoder would read a field from: the field name itself or a
    key that folds to it. *)
Definition matches (k name : string) : Prop :=
  k = name \/ strings_EqualFold k name = true.

Lemma lookupKey_matches (dataVal : gmap string any) name k v :
  lookupKey dataVal name = Some (k, v) -> matches k name /\ dataVal !! k = Some v.
Proof.
  unfold lookupKey. destruct (dataVal !! name) as [v'|] eqn:Hl.
  - intros [= <- <-]. split; [by left|done].
  - intros Hf. apply find_some in Hf as [Hin Hm]. simpl in Hm.
    split; [by right|]. by apply elem_of_map_to_list, list_elem_of_In.
Qed.

Lemma decodeField_keeps {T} name (dataVal : gmap string any)
    (acc : T * gset string * list error) (f : field T) k :
  k ∈ snd (fst acc) -> ~ matches k (fieldName f) ->
  k ∈ snd (fst (decodeField name dataVal acc f)).
Proof.
  destruct acc as [[val unused] errors]. simpl. intros Hk Hn. unfold decodeField.
  destruct (lookupKey dataVal (fieldName f)) as [[rawMapKey rawMapVal]|] eqn:Hl; [|done].
  apply lookupKey_matches in Hl as [Hm _].
  assert (k ∈ unused ∖ {[rawMapKey]}) as Hk'.
  { apply elem_of_difference. split; [done|]. intros ->%elem_of_singleton. done. }
  destruct rawMapVal; simpl; try done;
    by destruct (decode f _ _ val).
Qed.

Lemma decodeFields_keep {T} name (dataVal : gmap string any) (fields : list (field T))
    (acc : T * gset string * list error) k :
  k ∈ snd (fst acc) -> Forall (fun f => ~ matches k (fieldName f)) fields ->
  k ∈ snd (fst (fold_left (decodeField name dataVal) fields acc)).
Proof.
  intros Hk Hf. revert acc Hk. induction Hf as [|f fields Hn _ IH]; intros acc Hk; simpl.
  - done.
  - apply IH. by apply decodeField_keeps.
Qed.

(** Strict decoding: a key of the map that no field is read from makes
    [decodeStructFromMap] fail. *)
Lemma decodeStructFromMap_unused {T} name (fields : list (field T))
    (dataVal : gmap string any) (val : T) k :
  k ∈ dom dataVal -> Forall (fun f => ~ matches k (fieldName f)) fields ->
  exists err, decodeStructFromMap name fields dataVal val = inl err.
Proof.
  intros Hk Hf. unfold decodeStructFromMap.
  pose proof (decodeFields_keep name dataVal fields (val, dom dataVal, []) k Hk Hf) as Hin.
  destruct (fold_left _ fields _) as [[val' unused] errors]. simpl in Hin.
  destruct (decide (unused = ∅)) as [->|_]; [set_solver|].
  destruct errors; simpl; eauto.
Qed.

End Decoder.

Import prometheus.

Section Prometheus.
Context {lib : GoLib}.

Definition recognized : list string := ["url"; "scrape-interval"; "queries"].

(** What a field ends up as: the value of its key decoded, or what it was
    when the key is absent or holds nil. *)
Definition fieldOf {A} (dec : string -> any -> error + A) (name : string)
    (settings : gmap string any) (default : A) : error + A :=
  match settings !! name with
  | None | Some nil_any => inr default
  | Some v => dec name v
  end.

(** No two of the three keys fold to each other. *)
Definition folds_apart : Prop :=
  forall k name, In k recognized -> In name recognized -> k <> name ->
                 strings_EqualFold k name = false.

Lemma lookupKey_recognized (settings : gmap string any) name :
  folds_apart -> (forall k, k ∈ dom settings -> In k recognized) -> In name recognized ->
  lookupKey settings name = match settings !! name with
                            | Some v => Some (name, v)
                            | None => None
                            end.
Proof.
  intros Hfold Hdom Hname. unfold lookupKey. destruct (settings !! name) eqn:Hl; [done|].
  destruct (find _ _) as [[k v]|] eqn:Hf; [|done].
  apply find_some in Hf as [Hin Hm]. simpl in Hm.
  apply list_elem_of_In, elem_of_map_to_list in Hin.
  assert (k ∈ dom settings) as Hk by (apply elem_of_dom; eauto).
  rewrite Hfold in Hm; [done|by apply Hdom|done|]. intros ->. congruence.
Qed.

(** The value of a key that is present and not nil, decoded. *)
Definition decoded {A} (dec : string -> any -> error + A) (name : string)
    (settings : gmap string any) : option (error + A) :=
  match settings !! name with
  | None | Some nil_any => None
  | Some v => Some (dec name v)
  end.

Lemma fieldOf_decoded {A} (dec : string -> any -> error + A) name settings default :
  fieldOf dec name settings default =
  match decoded dec name settings with Some res => res | None => inr default end.
Proof. unfold fieldOf, decoded. by destruct (settings !! name) as [[]|]. Qed.

Lemma decodeField_recognized {A T} (dec : string -> any -> error + A) (put : A -> T -> T)
    name (settings : gmap string any) (val : T) unused errors :
  folds_apart -> (forall k, k ∈ dom settings -> In k recognized) -> In name recognized ->
  decodeField "" settings (val, unused, errors)
    {| fieldName := name; decode := set dec put |} =
  (match decoded dec name settings with Some (inr a) => put a val | _ => val end,
   match settings !! name with Some _ => unused ∖ {[name]} | None => unused end,
   match decoded dec name settings with Some (inl err) => errors ++ [err] | _ => errors end).
Proof.
  intros Hfold Hdom Hname. unfold decodeField, decoded. cbn [fieldName decode].
  rewrite lookupKey_recognized by done.
  destruct (settings !! name) as [v|]; [|done].
  destruct v; try done; unfold set; simpl;
    match goal with |- context [dec name ?v] => by destruct (dec name v) end.
Qed.

Lemma unused_recognized (settings : gmap string any) :
  (forall k, k ∈ dom settings -> In k recognized) ->
  match settings !! "queries" with
  | Some _ =>
      match settings !! "scrape-interval" with
      | Some _ =>
          match settings !! "url" with
          | Some _ => dom settings ∖ {["url"]}
          | None => dom settings
          end ∖ {["scrape-interval"]}
      | None =>
          match settings !! "url" with
          | Some _ => dom settings ∖ {["url"]}
          | None => dom settings
          end
      end ∖ {["queries"]}
  | None =>
      match settings !! "scrape-interval" with
      | Some _ =>
          match settings !! "url" with
          | Some _ => dom settings ∖ {["url"]}
          | None => dom settings
          end ∖ {["scrape-interval"]}
      | None =>
          match settings !! "url" with
          | Some _ => dom settings ∖ {["url"]}
          | None => dom settings
          end
      end
  end = (∅ : gset string).
Proof.
  intros Hdom. apply set_eq. intros k. split; [|set_solver].
  intros Hk. exfalso.
  assert (k ∈ dom settings) as Hd.
  { destruct (settings !! "queries"), (settings !! "scrape-interval"), (settings !! "url");
      set_solver. }
  pose proof (Hdom k Hd) as Hr. unfold recognized in Hr. simpl in Hr.
  apply elem_of_dom in Hd as [v Hv].
  destruct Hr as [<-|[<-|[<-|[]]]]; rewrite Hv in Hk;
    destruct (settings !! "queries"), (settings !! "scrape-interval"), (settings !! "url");
    set_solver.
Qed.

Definition decodeQueries : string -> any -> error + list QueryConfig :=
  decodeSlice QueryConfig_fields QueryConfig_zero.

(** The decoding of a bag that has only the three keys. *)
Lemma decode_recognized (settings : gmap string any) cfg :
  folds_apart -> (forall k, k ∈ dom settings -> In k recognized) ->
  decodeStructFromMap "" Config_fields settings defaultConfig = inr cfg <->
  fieldOf decodeString "url" settings "" = inr (URL cfg) /\
  fieldOf decodeDuration "scrape-interval" settings Second = inr (ScrapeInterval cfg) /\
  fieldOf decodeQueries "queries" settings [] = inr (Queries cfg).
Proof.
  intros Hfold Hdom. unfold decodeStructFromMap, Config_fields. cbn [fold_left].
  rewrite !decodeField_recognized by (done || (unfold recognized; simpl; tauto)).
  rewrite (unused_recognized settings Hdom).
  destruct (decide (∅ = ∅)) as [_|]; [|done].
  rewrite !fieldOf_decoded. fold decodeQueries.
  destruct (decoded decodeString "url" settings) as [[eu|u]|];
    destruct (decoded decodeDuration "scrape-interval" settings) as [[es|si]|];
    destruct (decoded decodeQueries "queries" settings) as [[eq|qs]|];
    simpl; destruct cfg as [cu cs cq]; simpl; split;
    try (intros [= <- <- <-]; done); try (intros ([= <-] & [= <-] & [= <-]); done);
    try (intros (? & ? & ?); done); try done.
Qed.

(** C9, amended. [parseConfig] fails when the bag has a key that matches
    none of url, scrape-interval and queries, neither as it stands nor
    folded. For a bag with only these three keys it succeeds exactly when
    every value that is present and not nil decodes into its field and the
    decoded url parses. The url is not required: when the key is omitted the
    url stays empty, and the empty string is what [url.Parse] is given; the
    scrape interval is one second when its key is omitted. *)
Theorem parseConfig_strict_decoding (settings : gmap string any) :
  (forall k, k ∈ dom settings -> (forall name, In name recognized -> ~ matches k name) ->
     exists err, parseConfig settings = inl err) /\
  (folds_apart -> (forall k, k ∈ dom settings -> In k recognized) ->
     forall cfg,
       (parseConfig settings = inr cfg <->
        fieldOf decodeString "url" settings "" = inr (URL cfg) /\
        fieldOf decodeDuration "scrape-interval" settings Second = inr (ScrapeInterval cfg) /\
        fieldOf decodeQueries "queries" settings [] = inr (Queries cfg) /\
        url_Parse (URL cfg) = None) /\
       (parseConfig settings = inr cfg ->
        (settings !! "url" = None -> URL cfg = "") /\
        (settings !! "scrape-interval" = None -> ScrapeInterval cfg = Second))).
Proof.
  split.
  - intros k Hk Hn. unfold parseConfig.
    destruct (decodeStructFromMap_unused "" Config_fields settings defaultConfig k Hk)
      as [err ->]; [|eauto].
    unfold Config_fields. repeat (apply Forall_cons_2; [apply Hn; simpl; tauto|]).
    apply Forall_nil_2.
  - intros Hfold Hdom cfg.
    assert (parseConfig settings = inr cfg <->
            fieldOf decodeString "url" settings "" = inr (URL cfg) /\
            fieldOf decodeDuration "scrape-interval" settings Second = inr (ScrapeInterval cfg) /\
            fieldOf decodeQueries "queries" settings [] = inr (Queries cfg) /\
            url_Parse (URL cfg) = None) as Hiff.
    { unfold parseConfig, parseURL.
      destruct (decodeStructFromMap "" Config_fields settings defaultConfig) as [err|cfg'] eqn:Hd.
      - split; [done|]. intros (Hu & Hs & Hq & _).
        assert (decodeStructFromMap "" Config_fields settings defaultConfig = inr cfg) as Hd'
          by by apply decode_recognized.
        congruence.
      - apply decode_recognized in Hd as (Hu & Hs & Hq); [|done|done].
        destruct (url_Parse (URL cfg')) as [err|] eqn:Hp.
        + split; [done|]. intros (Hu' & _ & _ & Hp').
          rewrite Hu in Hu'. injection Hu' as Hu'. congruence.
        + split.
          * intros [= <-]. done.
          * intros (Hu' & Hs' & Hq' & _). f_equal.
            rewrite Hu in Hu'. rewrite Hs in Hs'. rewrite Hq in Hq'.
            destruct cfg, cfg'. simpl in *. congruence. }
    split; [done|]. intros (Hu & Hs & _ & _)%Hiff. unfold fieldOf in Hu, Hs.
    split; intros Hl; rewrite Hl in *; congruence.
Qed.

End Prometheus.

Import kafka.

Section Kafka.
Context {lib : GoLib}.

Lemma fold_left_app_concat {A B} (f : A -> list B) (l : list A) (acc : list B) :
  fold_left (fun acc x => acc ++ f x) l acc = acc ++ concat (map f l).
Proof.
  revert acc. induction l as [|x l IH]; intros acc; simpl.
  - by rewrite app_nil_r.
  - by rewrite IH, <- app_assoc.
Qed.

(** The queries of the user that [Configure] appends: those held as a
    slice of maps. *)
Definition settingsQueries (settings : gmap string any) : list (gmap string any) :=
  match settings !! "queries" with
  | Some (slice_map qs) => qs
  | _ => []
  end.

(** What [Configure] hands to the embedded collector: no key topics, and
    under queries the three queries of each topic, then those of
    [settingsQueries]. *)
Lemma Configure_delegated parseConfig Collector_Configure (settings : gmap string any) cfg :
  parseConfig settings = inr cfg ->
  let delegated := fst (Configure parseConfig Collector_Configure settings) in
  delegated !! "topics" = None /\
  delegated !! "queries" =
    Some (slice_map (concat (map topicQueries (Topics cfg)) ++ settingsQueries settings)) /\
  snd (Configure parseConfig Collector_Configure settings) = Collector_Configure delegated.
Proof.
  intros Hp. unfold Configure. rewrite Hp. cbn [fst snd].
  rewrite fold_left_app_concat. simpl.
  split; [by rewrite lookup_insert_ne, lookup_delete_eq|].
  split; [|done]. rewrite lookup_insert_eq. unfold settingsQueries.
  rewrite lookup_delete_ne by done.
  destruct (settings !! "queries") as [[]|]; by rewrite ?app_nil_r.
Qed.

(** C10, where it fails. A settings bag decoded from YAML holds its queries
    as a slice of [any], not as a slice of maps: the type assertion of line
    140 fails, and the bag handed to the embedded collector has the three
    queries of each topic and none of the queries of the user. *)
Theorem Configure_drops_queries_held_as_slice_of_any
    (topics : list string) (user : list any) (rest : gmap string any)
    (Collector_Configure : gmap string any -> option error) :
  let settings := <["queries" := slice_any user]> rest in
  let delegated :=
    fst (Configure (fun _ => inr {| Topics := topics |}) Collector_Configure settings) in
  delegated !! "topics" = None /\
  delegated !! "queries" = Some (slice_map (concat (map topicQueries topics))).
Proof.
  intros settings delegated.
  destruct (Configure_delegated (fun _ => inr {| Topics := topics |}) Collector_Configure
              settings {| Topics := topics |} eq_refl) as (Ht & Hq & _).
  split; [exact Ht|]. fold delegated in Hq. rewrite Hq.
  unfold settingsQueries, settings. rewrite lookup_insert_eq. by rewrite app_nil_r.
Qed.

End Kafka.

End MetricsProps.

(** ** The collectors on the settings of the example *)

Module MetricsExamples.

Import prometheus kafka MetricsProps.

#[local] Existing Instance Examples.exampleLib.

Lemma exampleLib_folds_apart : folds_apart.
Proof.
  intros k name Hk Hn Hne. unfold recognized in *. simpl in Hk, Hn.
  destruct Hk as [<-|[<-|[<-|[]]]]; destruct Hn as [<-|[<-|[<-|[]]]];
    try done; reflexivity.
Qed.

Definition kafka_url : string := "http://localhost:7071/metrics".

(** A bag with the url alone: the configuration has the url, one second
    and no query. The settings of the kafka collector in [bench.yml], given
    to the generic collector as they stand, are refused for the key topics. *)
Lemma parseConfig_strict_decoding_witness :
  folds_apart /\
  (forall k, k ∈ dom ({[ "url" := str kafka_url ]} : gmap string any) -> In k recognized) /\
  parseConfig {[ "url" := str kafka_url ]} =
    inr {| URL := kafka_url; ScrapeInterval := Second; Queries := [] |} /\
  exists err,
    parseConfig {[ "url" := str kafka_url;
                   "topics" := slice_any [str "benchi-in"; str "benchi-out"] ]} = inl err.
Proof.
  assert (forall k, k ∈ dom ({[ "url" := str kafka_url ]} : gmap string any) ->
                    In k recognized) as Hdom.
  { intros k Hk. rewrite dom_singleton_L in Hk. apply elem_of_singleton in Hk as ->.
    by left. }
  split; [exact exampleLib_folds_apart|]. split; [exact Hdom|]. split.
  - apply (proj2 (parseConfig_strict_decoding {[ "url" := str kafka_url ]})
             exampleLib_folds_apart Hdom).
    repeat split; reflexivity.
  - apply (proj1 (parseConfig_strict_decoding
                    {[ "url" := str kafka_url;
                       "topics" := slice_any [str "benchi-in"; str "benchi-out"] ]})
             "topics").
    + apply elem_of_dom. by eexists.
    + intros name Hn [Hm|Hm]; unfold recognized in Hn; simpl in Hn;
        destruct Hn as [<-|[<-|[<-|[]]]]; discriminate Hm.
Defined.

(** C9 as stated fails. The empty bag has no url and is accepted; a bag
    with the three keys alone and a good url is refused for the value of
    its scrape interval; a bag whose key is URL is accepted. *)
Lemma parseConfig_url_not_required_values_checked :
  parseConfig ∅ = inr defaultConfig /\
  (exists err,
     parseConfig {[ "url" := str kafka_url; "scrape-interval" := slice_any [] ]} = inl err) /\
  parseConfig {[ "URL" := str kafka_url ]} =
    inr {| URL := kafka_url; ScrapeInterval := Second; Queries := [] |}.
Proof.
  split; [vm_compute; reflexivity|]. split; [|vm_compute; reflexivity].
  eexists. vm_compute. reflexivity.
Qed.

(** Stand-in for [parseConfig] of package kafka: the topics are the strings
    under the key topics. *)
Definition parseTopics (settings : gmap string any) : error + kafka.Config :=
  match settings !! "topics" with
  | Some (slice_any l) =>
      inr {| Topics := omap (fun v => match v with str s => Some s | _ => None end) l |}
  | _ => inr {| Topics := [] |}
  end.

Definition queryNames (v : option any) : list (option any) :=
  match v with
  | Some (slice_map qs) => map (fun q => q !! "name") qs
  | _ => []
  end.

(** Topics a and b and no query of the user: six queries, named by metric
    and topic, and no key topics. *)
Example Configure_two_topics :
  let delegated :=
    fst (Configure parseTopics prometheus.Configure
           {[ "url" := str kafka_url; "topics" := slice_any [str "a"; str "b"] ]}) in
  delegated !! "topics" = None /\
  queryNames (delegated !! "queries") =
    [Some (str "msg-rate-in-per-second[a]");
     Some (str "msg-megabytes-in-per-second[a]");
     Some (str "msg-megabytes-out-per-second[a]");
     Some (str "msg-rate-in-per-second[b]");
     Some (str "msg-megabytes-in-per-second[b]");
     Some (str "msg-megabytes-out-per-second[b]")] /\
  snd (Configure parseTopics prometheus.Configure
         {[ "url" := str kafka_url; "topics" := slice_any [str "a"; str "b"] ]}) = None.
Proof. vm_compute. repeat split. Qed.

(** The settings of [bench.yml] with one query of the user, as a YAML
    decoder hands them over, and the same query held as a slice of maps. *)
Definition userQuery : gmap string any :=
  {[ "name" := str "lag"; "query" := str "kafka_consumer_lag"; "interval" := str "1s" ]}.

Definition yamlSettings : gmap string any :=
  {[ "url" := str kafka_url;
     "topics" := slice_any [str "benchi-in"];
     "queries" := slice_any [map_any userQuery] ]}.

Definition typedSettings : gmap string any :=
  {[ "url" := str kafka_url;
     "topics" := slice_any [str "benchi-in"];
     "queries" := slice_map [userQuery] ]}.

Example Configure_yaml_queries_dropped :
  queryNames (fst (Configure parseTopics prometheus.Configure yamlSettings) !! "queries") =
    [Some (str "msg-rate-in-per-second[benchi-in]");
     Some (str "msg-megabytes-in-per-second[benchi-in]");
     Some (str "msg-megabytes-out-per-second[benchi-in]")] /\
  snd (Configure parseTopics prometheus.Configure yamlSettings) = None /\
  queryNames (fst (Configure parseTopics prometheus.Configure typedSettings) !! "queries") =
    [Some (str "msg-rate-in-per-second[benchi-in]");
     Some (str "msg-megabytes-in-per-second[benchi-in]");
     Some (str "msg-megabytes-out-per-second[benchi-in]");
     Some (str "lag")].
Proof. vm_compute. repeat split. Qed.

End MetricsExamples.

(* ================================================================== *)
(** * Part III: the rest of the builder, the engine and the collectors *)
(* ================================================================== *)

(** ** The fields of the runs and the composition files *)

Module RunFieldProps.

Import config benchi BuilderProps.

Section Builder.
Context {lib : GoLib} {APIClient : Type}.

Lemma In_map_index {V} (m : gomap V) k :
  In k (maps_Keys m) -> exists v, map_index m k = Some v.
Proof.
  intros Hin. destruct (map_index m k) as [v|] eqn:Hm; [eauto|].
  by apply map_index_None_not_In in Hm.
Qed.

Lemma In_toolNames cfg t tool :
  In tool (toolNames cfg t) ->
  In tool (maps_Keys (Config.Tools cfg)) \/ In tool (maps_Keys (Test.Tools t)).
Proof.
  rewrite toolNames_eq, in_app_iff, filter_In. tauto.
Qed.

Lemma buildRun_Tools now cfg (opt : @RunOptions APIClient) t infra metrics tool :
  Tools (buildRun now cfg opt t infra metrics tool) =
  option_list (map_index (Config.Tools cfg) tool) ++ option_list (map_index (Test.Tools t) tool).
Proof.
  unfold buildRun. simpl.
  by destruct (map_index (Config.Tools cfg) tool), (map_index (Test.Tools t) tool).
Qed.

(** X1. Every run that [buildTestRuns] builds carries the name, the
    duration and the steps of its scenario, the container client of the
    options, and an output folder under the one of the options that is named
    by the time of the call, the scenario and the tool. Its tool services
    are the service the configuration declares under the tool name, if any,
    followed by the one the scenario declares under it, if any: one or two
    services, never none. *)
Theorem buildTestRuns_tool_services now cfg opt (r : @testRun APIClient) :
  In r (buildTestRuns now cfg opt) ->
  exists t, In t (Config.Tests cfg) /\
    Name r = Test.Name t /\ Duration r = Test.Duration t /\ Steps r = Test.Steps t /\
    DockerClient r = opt_DockerClient opt /\
    OutPath r = filepath_Join (opt_OutPath opt)
                  (now +:+ "_" +:+ Test.Name t +:+ "_" +:+ Tool r) /\
    Tools r = option_list (map_index (Config.Tools cfg) (Tool r))
              ++ option_list (map_index (Test.Tools t) (Tool r)) /\
    1 <= length (Tools r) <= 2.
Proof.
  rewrite buildTestRuns_eq. intros Hin.
  apply in_flat_map in Hin as (t & Ht & Hr).
  unfold runsOf in Hr. apply in_map_iff in Hr as (tool & <- & Htool).
  exists t. rewrite buildRun_Tools. simpl. repeat (split; [done|]).
  apply In_toolNames in Htool as [Hg|Hs].
  - apply In_map_index in Hg as [v ->].
    destruct (map_index (Test.Tools t) tool); simpl; lia.
  - apply In_map_index in Hs as [v ->].
    destruct (map_index (Config.Tools cfg) tool); simpl; lia.
Qed.

Lemma flat_map_nil {A B} (f : A -> list B) (l : list A) :
  flat_map f l = [] <-> forall x, In x l -> f x = [].
Proof.
  induction l as [|x l IH]; simpl; [by split|].
  split.
  - intros [Hx Hl]%app_eq_nil y [<-|Hy]; [done|]. by apply IH.
  - intros Hall. rewrite (Hall x) by by left. simpl. apply IH. intros y Hy. apply Hall. by right.
Qed.

Lemma toolNames_nil cfg t :
  toolNames cfg t = [] <-> Config.Tools cfg = [] /\ Test.Tools t = [].
Proof.
  rewrite toolNames_eq. split.
  - intros [Hg Hs]%app_eq_nil. unfold maps_Keys in Hg. apply map_eq_nil in Hg.
    split; [done|].
    destruct (Test.Tools t) as [|[k v] m]; [done|]. simpl in Hs.
    unfold scenarioOnly in Hs. rewrite Hg in Hs. simpl in Hs. done.
  - intros [-> ->]. done.
Qed.

Lemma buildTestRuns_nil now cfg (opt : @RunOptions APIClient) :
  buildTestRuns now cfg opt = [] <->
  forall t, In t (Config.Tests cfg) -> Config.Tools cfg = [] /\ Test.Tools t = [].
Proof.
  rewrite buildTestRuns_eq, flat_map_nil. unfold runsOf.
  split; intros H t Ht; specialize (H t Ht).
  - apply map_eq_nil in H. by apply toolNames_nil.
  - apply toolNames_nil in H. by rewrite H.
Qed.

(** X2. [buildTestRuns] builds no run at all exactly when no scenario has
    a tool to run with: every scenario of the configuration finds the map of
    tools of the configuration and its own both empty. A configuration with
    scenarios and without tools gives nothing to run. *)
Theorem buildTestRuns_no_tool_no_run now cfg (opt : @RunOptions APIClient) :
  buildTestRuns now cfg opt = [] <->
  forall t, In t (Config.Tests cfg) -> Config.Tools cfg = [] /\ Test.Tools t = [].
Proof. apply buildTestRuns_nil. Qed.

Lemma buildTestRuns_options now cfg (opt opt' : @RunOptions APIClient) :
  opt_OutPath opt = opt_OutPath opt' -> opt_DockerClient opt = opt_DockerClient opt' ->
  buildTestRuns now cfg opt = buildTestRuns now cfg opt'.
Proof.
  intros Ho Hc. rewrite !buildTestRuns_eq. apply flat_map_ext. intros t.
  unfold runsOf. apply map_ext. intros tool. unfold buildRun. by rewrite Ho, Hc.
Qed.

End Builder.

(** [collectDockerComposeFiles] writes the paths by index into a slice made
    with the length of its argument. *)
Lemma collect_fold (cfgs : list ServiceConfig) (done : list string) :
  fold_left
    (fun '(paths, i) cfg => (<[i := DockerCompose cfg]> paths, S i))
    cfgs (done ++ replicate (length cfgs) EmptyString, length done)
  = (done ++ map DockerCompose cfgs, length done + length cfgs).
Proof.
  revert done. induction cfgs as [|cfg cfgs IH]; intros done; simpl.
  - by rewrite Nat.add_0_r.
  - rewrite insert_app_r_alt by lia. rewrite Nat.sub_diag. simpl.
    specialize (IH (done ++ [DockerCompose cfg])).
    rewrite <- !app_assoc, length_app in IH. simpl in IH.
    rewrite Nat.add_1_r in IH. rewrite IH. f_equal. lia.
Qed.

Lemma collectDockerComposeFiles_map (cfgs : list ServiceConfig) :
  collectDockerComposeFiles cfgs = map DockerCompose cfgs.
Proof.
  unfold collectDockerComposeFiles.
  pose proof (collect_fold cfgs []) as H. simpl in H. by rewrite H.
Qed.

(** X3. [collectDockerComposeFiles] gives the composition file of every
    service, in the order of the services: as many paths as services, none
    left empty by the loop, and no path when there is no service. *)
Theorem collectDockerComposeFiles_paths (cfgs : list ServiceConfig) :
  collectDockerComposeFiles cfgs = map DockerCompose cfgs /\
  length (collectDockerComposeFiles cfgs) = length cfgs /\
  (collectDockerComposeFiles cfgs = [] <-> cfgs = []).
Proof.
  rewrite collectDockerComposeFiles_map. split; [done|]. split; [by rewrite length_map|].
  split; [by intros ?%map_eq_nil|by intros ->].
Qed.

End RunFieldProps.

(** ** What a run starts and what it stops *)

Module ComposeProps.

Import config benchi EngineProps.

#[local] Arguments dockerComposeUpWait : simpl never.
#[local] Arguments testLoop : simpl never.
#[local] Arguments pollOnce : simpl never.
#[local] Arguments Load : simpl never.

Section Engine.
Context {lib : GoLib} {APIClient E : Type} {W : Env APIClient E}.

Abbreviation World := (@World E).
Abbreviation state := (@state E).
Abbreviation cleanupFn := (@cleanupFn E).
Abbreviation testRun := (@testRun APIClient).
Abbreviation runState := (@runState E).

(** *** The calls an operation adds to the trace *)

(** Calls that list, inspect or wait: they start nothing and stop nothing. *)
Definition observing (ev : Event) : Prop :=
  match ev with
  | EvComposePs _ | EvContainerInspect _ | EvAfterSecond | EvTestSelect => True
  | _ => False
  end.

(** [w'] has the trace of [w] and, after it, only calls of the kind [P]. *)
Definition adds (P : Event -> Prop) (w w' : World) : Prop :=
  exists evs, trace w' = trace w ++ evs /\ Forall P evs.

Lemma adds_same P (w w' : World) : trace w' = trace w -> adds P w w'.
Proof. intros Ht. exists []. rewrite app_nil_r. by split. Qed.

Lemma adds_refl P (w : World) : adds P w w.
Proof. by apply adds_same. Qed.

Lemma adds_trans P (w1 w2 w3 : World) : adds P w1 w2 -> adds P w2 w3 -> adds P w1 w3.
Proof.
  intros (e1 & H1 & F1) (e2 & H2 & F2). exists (e1 ++ e2).
  rewrite H2, H1, <- app_assoc. split; [done|]. by apply Forall_app.
Qed.

Lemma adds_call {A} (P : Event -> Prop) ev (op : E -> E * A) (w w' : World) a :
  P ev -> call ev op w = (w', a) -> adds P w w'.
Proof.
  intros HP Hc. assert (w' = fst (call ev op w)) as -> by by rewrite Hc.
  rewrite call_fst. exists [ev]. split; [done|]. by apply Forall_singleton.
Qed.

Lemma adds_slog P lvl logger m args (w : World) : adds P w (slog_Log lvl logger m args w).
Proof. by apply adds_same. Qed.

Lemma adds_discover n files (w w' : World) res :
  discover n files w = (w', res) -> adds observing w w'.
Proof.
  intros (calls & Ht & Hf & _)%discover_calls. exists calls. split; [done|].
  eapply Forall_impl; [exact Hf|]. by intros ev [->| ->].
Qed.

Lemma adds_pollOnce (r : testRun) logger c (w w' : World) res :
  pollOnce r logger c w = (w', res) -> adds observing w w'.
Proof.
  unfold pollOnce.
  destruct (call _ _ w) as [w1 r1] eqn:H1. apply (adds_call observing) in H1; [|done].
  destruct r1 as [err|resp]; [by intros [= <- _]|].
  destruct (types.Dead _); [by intros [= <- _]|].
  destruct (types.Health_ _) as [h|].
  - destruct (strings_EqualFold _ _).
    + intros [= <- _]. eapply adds_trans; [done|]. apply adds_slog.
    + simpl. destruct (call EvAfterSecond _ _) as [w2 done] eqn:H2.
      apply (adds_call observing) in H2; [|done].
      assert (adds observing w w2).
      { eapply adds_trans; [done|]. eapply adds_trans; [|done]. apply adds_slog. }
      by destruct done; intros [= <- _].
  - simpl. destruct (types.Running _).
    + intros [= <- _]. eapply adds_trans; [done|]. apply adds_slog.
    + by intros [= <- _].
Qed.

Lemma adds_pollTurns (r : testRun) logger cs (w : World) wg w' wg' :
  fold_left (pollTurn r logger) cs (w, wg) = (w', wg') -> adds observing w w'.
Proof.
  revert w wg. induction cs as [|c cs IH]; intros w wg; cbn [fold_left].
  - intros [= <- _]. apply adds_refl.
  - unfold pollTurn at 2. destruct (pollOnce r logger c w) as [w1 res] eqn:H1.
    apply adds_pollOnce in H1. intros Hf. eapply adds_trans; [exact H1|eapply IH; exact Hf].
Qed.

Lemma adds_wgWait fuel (r : testRun) logger (w : World) wg w' o :
  wgWait fuel r logger w wg = Some (w', o) -> adds observing w w'.
Proof.
  revert w wg. induction fuel as [|fuel IH]; intros w wg; simpl.
  - destruct (active wg); [|done]. intros [= <- _]. apply adds_refl.
  - destruct (active wg) eqn:Ha; [intros [= <- _]; apply adds_refl|].
    destruct (pollRound r logger w wg) as [w1 wg1] eqn:H1.
    intros Hw. eapply adds_trans; [|eapply IH; exact Hw].
    unfold pollRound in H1. eapply adds_pollTurns; exact H1.
Qed.

Lemma adds_waitForContainers fuel (r : testRun) logger containers (w w' : World) o :
  waitForContainers fuel r logger containers w = Some (w', o) -> adds observing w w'.
Proof.
  unfold waitForContainers.
  destruct (wgWait _ _ _ _ _) as [[w6 o6]|] eqn:H6; [|done].
  apply adds_wgWait in H6. destruct o6 as [[err|]|v]; by intros [= <- _].
Qed.

Lemma adds_testLoop fuel logger endTestAt (w w' : World) o :
  testLoop fuel logger endTestAt w = Some (w', o) -> adds observing w w'.
Proof.
  revert w. induction fuel as [|fuel IH]; intros w; simpl; [done|].
  unfold testLoop; fold (testLoop (W := W)).
  destruct (time_Now (env w)) as [e now].
  destruct (call EvTestSelect _ _) as [w1 received] eqn:H1.
  apply (adds_call observing) in H1; [|done].
  assert (adds observing w w1) as Hg.
  { eapply adds_trans; [|done]. by apply adds_same. }
  destruct received.
  - by intros [= <- _].
  - intros Hl. eapply adds_trans; [exact Hg|eapply IH; exact Hl].
  - by intros [= <- _].
Qed.


(** *** [dockerComposeUpWait]: what it registers and what it starts *)

Lemma startCompose_eq logger files logPath (rs : runState) (w : World) :
  startCompose logger files logPath (rs, w) =
  ({| cleanupFns := (cleanupFns rs ++ [closeFile logPath]) ++ [composeDown logger files];
      goroutinePool := goroutinePool rs ++ [files];
      goroutinePoolDead := goroutinePoolDead rs |},
   Info logger "Waiting for containers to start" []
     {| env := env w; trace := trace w ++ [EvComposeUp files]; logs := logs w |}).
Proof. reflexivity. Qed.

Lemma dockerComposeUpWait_shape fuel (r : testRun) logger files logPath
    (rs : runState) (w : World) st' o :
  dockerComposeUpWait fuel r logger files logPath (rs, w) = Some (st', o) ->
  (exists e err,
     os_Create logPath (env w) = (e, Some err) /\
     st' = (rs, called (EvCreate logPath) e w) /\
     o = Returned (Some (fmt_Errorf "failed to create log file: %w" [ArgErr err]))) \/
  (exists e evs,
     os_Create logPath (env w) = (e, None) /\
     cleanupFns (fst st') = cleanupFns rs ++ [closeFile logPath; composeDown logger files] /\
     trace (snd st') = trace w ++ EvCreate logPath :: EvComposeUp files :: evs /\
     Forall observing evs).
Proof.
  unfold dockerComposeUpWait.
  destruct (os_Create logPath (env w)) as [e1 err] eqn:Hc.
  rewrite (call_eq _ _ _ _ _ Hc).
  destruct err as [err|].
  { intros [= <- <-]. left. by exists e1, err. }
  rewrite startCompose_eq.
  set (rs2 := {| cleanupFns := _ |}). set (w2 := Info logger _ [] _).
  assert (cleanupFns rs2 = cleanupFns rs ++ [closeFile logPath; composeDown logger files]) as Hfns.
  { subst rs2. simpl. by rewrite <- app_assoc. }
  assert (trace w2 = trace w ++ [EvCreate logPath; EvComposeUp files]) as Ht2.
  { subst w2. simpl. by rewrite <- app_assoc. }
  assert (forall w3, adds observing w2 w3 ->
            exists evs, trace w3 = trace w ++ EvCreate logPath :: EvComposeUp files :: evs /\
                        Forall observing evs) as Hfin.
  { intros w3 (evs & Ht & Hf). exists evs. split; [|done]. rewrite Ht, Ht2.
    by rewrite <- app_assoc. }
  destruct (discover 30 files w2) as [w3 found] eqn:H3. apply adds_discover in H3.
  destruct found as [err|containers].
  { intros [= <- <-]. right. exists e1. destruct (Hfin w3 H3) as (evs & ? & ?).
    by exists evs. }
  set (w4 := Info logger _ [] w3).
  assert (adds observing w2 w4) as H4.
  { eapply adds_trans; [exact H3|]. by apply adds_same. }
  destruct (Load (rs2, w4)) as [[rs5 w5] dead] eqn:H5.
  apply Load_spec in H5 as (Hc5 & _ & Ht5 & _).
  assert (adds observing w2 w5) as H5'.
  { eapply adds_trans; [exact H4|]. by apply adds_same. }
  destruct dead.
  { intros [= <- <-]. right. exists e1. destruct (Hfin w5 H5') as (evs & ? & ?).
    exists evs. simpl. by rewrite Hc5. }
  destruct (waitForContainers fuel r logger containers w5) as [[w6 o6]|] eqn:H6; [|done].
  apply adds_waitForContainers in H6. intros [= <- <-]. right. exists e1.
  destruct (Hfin w6) as (evs & ? & ?); [by eapply adds_trans|].
  exists evs. simpl. by rewrite Hc5.
Qed.

(** X4. [dockerComposeUpWait] registers for cleanup exactly what it has
    acquired. When the log file cannot be created it returns that error,
    wrapped, with no cleanup function registered and [ComposeUp] not
    started. When the log file is created, then however the function ends
    (containers ready, an error of the listing or of a poll, the context
    ended, a panic of a poll) it has started [ComposeUp] once and has added
    two cleanup functions at the end of the list: the one that closes the log
    file, then the one that stops the containers. Its other calls only list,
    inspect and wait. *)
Theorem dockerComposeUpWait_registers_what_it_acquires
    fuel (r : testRun) logger files logPath (rs : runState) (w : World) st' o :
  dockerComposeUpWait fuel r logger files logPath (rs, w) = Some (st', o) ->
  (exists e err,
     os_Create logPath (env w) = (e, Some err) /\
     st' = (rs, called (EvCreate logPath) e w) /\
     o = Returned (Some (fmt_Errorf "failed to create log file: %w" [ArgErr err]))) \/
  (exists e evs,
     os_Create logPath (env w) = (e, None) /\
     cleanupFns (fst st') = cleanupFns rs ++ [closeFile logPath; composeDown logger files] /\
     trace (snd st') = trace w ++ EvCreate logPath :: EvComposeUp files :: evs /\
     Forall observing evs).
Proof. apply dockerComposeUpWait_shape. Qed.

(** *** The discovery loop *)

(** [k] turns of the loop that went through: a wait of a second, then a
    listing. *)
Definition listings (k : nat) (files : list string) : list Event :=
  concat (replicate k [EvAfterSecond; EvComposePs files]).

Lemma discover_shape n files (w : World) w' res :
  discover n files w = (w', res) ->
  match res with
  | inr [] => trace w' = trace w ++ listings n files
  | inr (_ :: _) => exists k, k < n /\ trace w' = trace w ++ listings (S k) files
  | inl err =>
      exists k, k < n /\
        (trace w' = trace w ++ listings k files ++ [EvAfterSecond] \/
         trace w' = trace w ++ listings (S k) files /\
         exists e, err = fmt_Errorf "failed to list containers: %w" [ArgErr e])
  end.
Proof.
  revert w. induction n as [|n IH]; intros w; simpl.
  - intros [= <- <-]. by rewrite app_nil_r.
  - destruct (select_Second (env w)) as [e1 done] eqn:H1.
    rewrite (call_eq _ _ _ _ _ H1). destruct done as [err|].
    { intros [= <- <-]. exists 0. split; [lia|]. by left. }
    destruct (ComposePs files (env (called EvAfterSecond e1 w))) as [e2 r2] eqn:H2.
    rewrite (call_eq _ _ _ _ _ H2).
    destruct r2 as [err|containers].
    { intros [= <- <-]. exists 0. split; [lia|]. right. simpl. rewrite <- app_assoc.
      split; [done|]. by exists err. }
    destruct containers as [|c cs]; simpl.
    + intros Hd. apply IH in Hd. destruct res as [err|[|c cs]].
      * destruct Hd as (k & Hk & Hd). exists (S k). split; [lia|].
        destruct Hd as [Hd|[Hd He]]; [left|right; split; [|done]];
          rewrite Hd; simpl; by rewrite <- !app_assoc.
      * rewrite Hd. simpl. by rewrite <- !app_assoc.
      * destruct Hd as (k & Hk & Hd). exists (S k). split; [lia|].
        rewrite Hd. simpl. by rewrite <- !app_assoc.
    + intros [= <- <-]. exists 0. split; [lia|]. simpl. by rewrite <- app_assoc.
Qed.


Lemma dockerComposeUpWait_dead fuel (r : testRun) logger files logPath
    (rs : runState) (w : World) e1 w2 containers st3 dead :
  os_Create logPath (env w) = (e1, None) ->
  let st1 := startCompose logger files logPath (rs, called (EvCreate logPath) e1 w) in
  discover 30 files (snd st1) = (w2, inr containers) ->
  Load (fst st1,
        Info logger ("Identified " +:+ pretty (length containers) +:+ " containers") [] w2)
    = (st3, dead) ->
  dockerComposeUpWait fuel r logger files logPath (rs, w) =
    (if dead then Some (st3, Returned (Some (errors_New "failed to start containers")))
     else match waitForContainers fuel r logger containers (snd st3) with
          | None => None
          | Some (w, o) => Some ((fst st3, w), o)
          end) /\
  exists calls,
    trace (snd st3) = trace w ++ EvCreate logPath :: EvComposeUp files :: calls /\
    Forall (isDiscoveryCall files) calls /\
    match containers with
    | [] => calls = listings 30 files
    | _ :: _ => exists k, k < 30 /\ calls = listings (S k) files
    end.
Proof.
  intros Hc st1 Hd Hl. split.
  - unfold dockerComposeUpWait. rewrite (call_eq _ _ _ _ _ Hc). fold st1.
    destruct st1 as [rs1 w1]. cbn [fst snd] in Hd, Hl. rewrite Hd.
    destruct st3 as [rs3 w3]. by rewrite Hl.
  - pose proof (discover_shape _ _ _ _ _ Hd) as Hshape.
    apply discover_calls in Hd as (calls & Ht & Hf & Hlen).
    exists calls.
    destruct st3 as [rs3 w3]. destruct st1 as [rs1 w1] eqn:Hst1.
    apply Load_spec in Hl as (_ & _ & Htr & _). cbn [fst snd] in *.
    change (trace (Info logger ("Identified " +:+ pretty (length containers) +:+ " containers")
                     [] w2)) with (trace w2) in Htr.
    rewrite Htr, Ht.
    assert (trace w1 = (trace w ++ [EvCreate logPath]) ++ [EvComposeUp files]) as ->.
    { subst st1. rewrite startCompose_eq in Hst1. by injection Hst1 as _ <-. }
    split; [by rewrite <- !app_assoc|]. split; [done|].
    destruct containers as [|c cs].
    + rewrite Ht in Hshape. by apply app_inv_head in Hshape.
    + destruct Hshape as (k & Hk & Hshape). exists k. split; [done|].
      rewrite Ht in Hshape. by apply app_inv_head in Hshape.
Qed.

(** X6. When thirty listings show no container and no background task has
    failed, [dockerComposeUpWait] reports success: it logs that it identified
    0 containers, waits for no poll and returns nil, having inspected
    nothing. *)
Theorem no_container_listed_is_success
    fuel (r : testRun) logger files logPath (rs : runState) (w : World) e1 w2 st3 :
  os_Create logPath (env w) = (e1, None) ->
  let st1 := startCompose logger files logPath (rs, called (EvCreate logPath) e1 w) in
  discover 30 files (snd st1) = (w2, inr []) ->
  Load (fst st1, Info logger "Identified 0 containers" [] w2) = (st3, false) ->
  dockerComposeUpWait fuel r logger files logPath (rs, w) = Some (st3, Returned None) /\
  trace (snd st3) = trace w ++ EvCreate logPath :: EvComposeUp files :: listings 30 files.
Proof.
  intros Hc st1 Hd Hl.
  destruct (dockerComposeUpWait_dead fuel r logger files logPath rs w e1 w2 [] st3 false
              Hc Hd Hl) as (HR & calls & Ht & _ & ->).
  split; [|done]. rewrite HR. destruct st3 as [rs3 w3].
  unfold waitForContainers. by destruct fuel.
Qed.

(** *** The flag of the pool *)

Lemma settle_dead tasks (e : E) : snd (settle tasks true e) = true.
Proof.
  revert e. induction tasks as [|files tasks IH]; intros e; simpl; [done|].
  destruct (ComposeUp_returned files e) as [e1 res].
  assert ((match res with Some (Some _) => true | _ => true end) = true) as ->
    by by destruct res as [[|]|].
  specialize (IH e1). by destruct (settle tasks true e1) as [[e2 running] dead].
Qed.

Lemma settle_failed tasks files0 dead (e : E) :
  In files0 tasks ->
  (forall e, exists err, snd (ComposeUp_returned files0 e) = Some (Some err)) ->
  snd (settle tasks dead e) = true.
Proof.
  intros Hin Hfail. revert dead e. induction tasks as [|files tasks IH]; intros dead e;
    [done|]. simpl.
  destruct (ComposeUp_returned files e) as [e1 res] eqn:Hr.
  destruct Hin as [->|Hin].
  - destruct (Hfail e) as [err Herr]. rewrite Hr in Herr. simpl in Herr. subst res.
    pose proof (settle_dead tasks e1) as Hd.
    by destruct (settle tasks true e1) as [[e2 running] d].
  - specialize (IH Hin (match res with Some (Some _) => true | _ => dead end) e1).
    by destruct (settle tasks _ e1) as [[e2 running] d].
Qed.

Lemma Load_failed (rs : runState) (w : World) files0 :
  In files0 (goroutinePool rs) ->
  (forall e, exists err, snd (ComposeUp_returned files0 e) = Some (Some err)) ->
  snd (Load (rs, w)) = true.
Proof.
  intros Hin Hfail. unfold Load.
  pose proof (settle_failed (goroutinePool rs) files0 (goroutinePoolDead rs) (env w) Hin Hfail)
    as Hs.
  by destruct (settle _ _ _) as [[e running] dead].
Qed.

Lemma Load_dead (rs : runState) (w : World) :
  goroutinePoolDead rs = true -> snd (Load (rs, w)) = true.
Proof.
  intros Hd. unfold Load. rewrite Hd.
  pose proof (settle_dead (goroutinePool rs) (env w)) as Hs.
  by destruct (settle _ _ _) as [[e running] dead].
Qed.

(** X7. The flag and the pool belong to the run, not to the step. When
    [dockerComposeUpWait] reads the flag after its discovery loop, it fails
    with the error "failed to start containers" and inspects no container if
    the flag was set before the call, or if any [ComposeUp] of the pool has
    failed: the one this call started or one that an earlier step of the same
    run started. *)
Theorem earlier_failure_fails_later_compose
    fuel (r : testRun) logger files logPath (rs : runState) (w : World) e1 w2 containers files0 :
  goroutinePoolDead rs = true \/
  (In files0 (goroutinePool rs ++ [files]) /\
   forall e, exists err, snd (ComposeUp_returned files0 e) = Some (Some err)) ->
  os_Create logPath (env w) = (e1, None) ->
  let st1 := startCompose logger files logPath (rs, called (EvCreate logPath) e1 w) in
  discover 30 files (snd st1) = (w2, inr containers) ->
  exists st3 calls,
    dockerComposeUpWait fuel r logger files logPath (rs, w) =
      Some (st3, Returned (Some (errors_New "failed to start containers"))) /\
    trace (snd st3) = trace w ++ EvCreate logPath :: EvComposeUp files :: calls /\
    Forall (isDiscoveryCall files) calls.
Proof.
  intros Hdead Hc st1 Hd.
  destruct (Load (fst st1,
                  Info logger ("Identified " +:+ pretty (length containers) +:+ " containers")
                    [] w2)) as [st3 dead] eqn:HL.
  assert (dead = true) as ->.
  { assert (dead = snd (Load (fst st1,
              Info logger ("Identified " +:+ pretty (length containers) +:+ " containers")
                [] w2))) as -> by by rewrite HL.
    subst st1. rewrite startCompose_eq. cbn [fst].
    destruct Hdead as [Hflag|[Hin Hfail]].
    - by apply Load_dead.
    - by eapply Load_failed. }
  destruct (dockerComposeUpWait_dead fuel r logger files logPath rs w e1 w2
              containers st3 true Hc Hd HL) as (HR & calls & Ht & Hf & _).
  by exists st3, calls.
Qed.

(** *** Containers that are ready *)

(** A container the poll takes as ready: not dead, and healthy by its
    health check or, without a health check, running. *)
Definition ready (resp : types.ContainerJSON) : Prop :=
  types.Dead (types.State resp) = false /\
  match types.Health_ (types.State resp) with
  | Some h => strings_EqualFold (types.Status h) "healthy" = true
  | None => types.Running (types.State resp) = true
  end.

Lemma pollOnce_ready (r : testRun) logger c (w : World) e' resp :
  ContainerInspect (DockerClient r) c (env w) = (e', inr resp) -> ready resp ->
  exists w', pollOnce r logger c w = (w', PollReturn None) /\
             trace w' = trace w ++ [EvContainerInspect c].
Proof.
  intros Hi [Hd Hr]. destruct (types.Health_ (types.State resp)) as [h|] eqn:Hh.
  - eexists. split; [by eapply pollOnce_healthy|done].
  - eexists. split; [by eapply pollOnce_running|done].
Qed.

Lemma pollTurns_ready (r : testRun) logger cs (w : World) wg :
  (forall c e, In c cs ->
     exists e' resp, ContainerInspect (DockerClient r) c e = (e', inr resp) /\ ready resp) ->
  exists w', fold_left (pollTurn r logger) cs (w, wg) = (w', wg) /\
             trace w' = trace w ++ map EvContainerInspect cs.
Proof.
  revert w. induction cs as [|c cs IH]; intros w Hall; cbn [fold_left].
  - exists w. by rewrite app_nil_r.
  - destruct (Hall c (env w)) as (e' & resp & Hi & Hr); [by left|].
    destruct (pollOnce_ready r logger c w e' resp Hi Hr) as (w1 & Hp & Ht1).
    unfold pollTurn at 2. rewrite Hp.
    destruct (IH w1) as (w' & Hf & Ht); [intros; apply Hall; by right|].
    exists w'. split; [done|]. rewrite Ht, Ht1. simpl. by rewrite <- app_assoc.
Qed.

Lemma waitForContainers_ready fuel (r : testRun) logger containers (w : World) :
  (forall c e, In c containers ->
     exists e' resp, ContainerInspect (DockerClient r) c e = (e', inr resp) /\ ready resp) ->
  exists w',
    waitForContainers (S fuel) r logger containers w = Some (w', Returned None) /\
    trace w' = trace w ++ map EvContainerInspect containers.
Proof.
  intros Hall. unfold waitForContainers.
  destruct containers as [|c cs].
  { exists w. simpl. by rewrite app_nil_r. }
  cbn [wgWait active]. unfold pollRound. cbn [active errs recovered].
  destruct (pollTurns_ready r logger (c :: cs) w
              {| active := []; errs := []; recovered := None |} Hall) as (w' & -> & Ht).
  exists w'. split; [|done]. by destruct fuel.
Qed.

(** X8. When every container is ready at its first inspection (healthy, or
    running without a health check), the wait for the containers ends with
    nil as soon as it is given one round: it has inspected every container
    once and has waited no second. *)
Theorem ready_containers_one_inspection_each
    fuel (r : testRun) logger containers (w : World) :
  (forall c e, In c containers ->
     exists e' resp, ContainerInspect (DockerClient r) c e = (e', inr resp) /\ ready resp) ->
  exists w' evs,
    waitForContainers (S fuel) r logger containers w = Some (w', Returned None) /\
    trace w' = trace w ++ evs /\
    Permutation evs (map EvContainerInspect containers).
Proof.
  intros Hall.
  destruct (waitForContainers_ready fuel r logger containers w Hall) as (w' & Hw & Ht).
  by exists w', (map EvContainerInspect containers).
Qed.


(** *** A poll that panics *)

Lemma pollTurn_recovered (r : testRun) logger (w : World) wg c :
  recovered wg <> None -> recovered (snd (pollTurn r logger (w, wg) c)) <> None.
Proof.
  intros Hr. unfold pollTurn. destruct (pollOnce r logger c w) as [w1 [[err|]|v|]]; simpl;
    try done. by destruct (recovered wg).
Qed.

Lemma pollTurns_recovered (r : testRun) logger cs (w : World) wg :
  recovered wg <> None ->
  recovered (snd (fold_left (pollTurn r logger) cs (w, wg))) <> None.
Proof.
  revert w wg. induction cs as [|c cs IH]; intros w wg Hr; cbn [fold_left]; [done|].
  pose proof (pollTurn_recovered r logger w wg c Hr) as H1.
  destruct (pollTurn r logger (w, wg) c) as [w1 wg1]. by apply IH.
Qed.

Lemma wgWait_recovered fuel (r : testRun) logger (w : World) wg w' o :
  recovered wg <> None ->
  wgWait fuel r logger w wg = Some (w', o) -> exists v, o = Panicked v.
Proof.
  revert w wg. induction fuel as [|fuel IH]; intros w wg Hr; simpl.
  - destruct (active wg); [|done]. intros [= _ <-]. destruct (recovered wg); [eauto|done].
  - destruct (active wg) eqn:Ha.
    { intros [= _ <-]. destruct (recovered wg); [eauto|done]. }
    destruct (pollRound r logger w wg) as [w1 wg1] eqn:H1.
    apply IH. assert (wg1 = snd (pollRound r logger w wg)) as -> by by rewrite H1.
    unfold pollRound. by apply pollTurns_recovered.
Qed.

(** Every panic of a poll carries the same value. *)
Definition nil_or_dereference (wg : waitGroup) : Prop :=
  recovered wg = None \/ recovered wg = Some nil_dereference.

Lemma pollOnce_panic_value (r : testRun) logger c (w w' : World) v :
  pollOnce r logger c w = (w', PollPanic v) -> v = nil_dereference.
Proof.
  unfold pollOnce. destruct (call _ _ w) as [w1 [err|resp]]; [done|].
  destruct (types.Dead _); [done|].
  destruct (types.Health_ _).
  - destruct (strings_EqualFold _ _); [done|]. simpl.
    by destruct (call EvAfterSecond _ _) as [w2 [err|]].
  - simpl. destruct (types.Running _); [done|]. by intros [= _ <-].
Qed.

Lemma pollTurns_panic_value (r : testRun) logger cs (w : World) wg w' wg' :
  fold_left (pollTurn r logger) cs (w, wg) = (w', wg') ->
  nil_or_dereference wg -> nil_or_dereference wg'.
Proof.
  revert w wg. induction cs as [|c cs IH]; intros w wg; cbn [fold_left].
  - by intros [= _ <-].
  - unfold pollTurn at 2. destruct (pollOnce r logger c w) as [w1 res] eqn:Hp.
    intros Hf Hrec. eapply IH; [exact Hf|].
    destruct res as [[err|]|v|]; try done.
    apply pollOnce_panic_value in Hp as ->.
    unfold nil_or_dereference in *. simpl. destruct Hrec as [-> | ->]; by right.
Qed.

Lemma wgWait_panic_value fuel (r : testRun) logger (w : World) wg w' v :
  wgWait fuel r logger w wg = Some (w', Panicked v) ->
  nil_or_dereference wg -> v = nil_dereference.
Proof.
  revert w wg. induction fuel as [|fuel IH]; intros w wg; simpl.
  - destruct (active wg); [|done]. intros [= _ Hv] [Hn|Hs].
    + by rewrite Hn in Hv.
    + rewrite Hs in Hv. by injection Hv as <-.
  - destruct (active wg) eqn:Ha.
    { intros [= _ Hv] [Hn|Hs].
      - by rewrite Hn in Hv.
      - rewrite Hs in Hv. by injection Hv as <-. }
    destruct (pollRound r logger w wg) as [w1 wg1] eqn:H1.
    intros Hw Hrec. eapply IH; [exact Hw|].
    unfold pollRound in H1. eapply pollTurns_panic_value; [exact H1|exact Hrec].
Qed.

(** X10. A panic of one poll masks the errors of the others. When the
    inspection of a container reports it not dead, without health check
    and not running, its poll panics; [wg.Wait()] still returns only when
    the polls of all containers have ended, and then it raises the panic
    again: whatever errors the other polls returned, a dead container among
    them, are lost, and the step ends in the panic. *)
Theorem panic_of_a_poll_masks_errors
    fuel (r : testRun) logger (w : World) wg c before after e' resp :
  active wg = before ++ c :: after ->
  let wc := fst (fold_left (pollTurn r logger) before
                   (w, {| active := []; errs := errs wg; recovered := recovered wg |})) in
  ContainerInspect (DockerClient r) c (env wc) = (e', inr resp) ->
  types.Dead (types.State resp) = false ->
  types.Health_ (types.State resp) = None ->
  types.Running (types.State resp) = false ->
  (forall w' o, wgWait fuel r logger w wg = Some (w', o) -> exists v, o = Panicked v) /\
  (forall w' o,
     errs wg = [] -> recovered wg = None ->
     waitForContainers fuel r logger (active wg) w = Some (w', o) ->
     o = Panicked nil_dereference).
Proof.
  intros Hact wc Hi Hd Hh Hr.
  assert (pollOnce r logger c wc = (called (EvContainerInspect c) e' wc, PollPanic nil_dereference))
    as Hpoll.
  { unfold pollOnce. rewrite (call_eq _ _ _ _ _ Hi). by rewrite Hd, Hh, Hr. }
  assert (forall w' o, wgWait fuel r logger w wg = Some (w', o) -> exists v, o = Panicked v)
    as Hwait.
  { intros w' o Hw.
    destruct fuel as [|fuel]; simpl in Hw; rewrite Hact in Hw.
    { by destruct before. }
    assert (exists x l, before ++ c :: after = x :: l) as (x & l & Hxl)
      by (destruct before; simpl; eauto).
    rewrite Hxl in Hw.
    destruct (pollRound r logger w wg) as [w1 wg1] eqn:H1.
    unfold pollRound in H1. rewrite Hact, fold_left_app in H1. cbn [fold_left] in H1.
    destruct (fold_left (pollTurn r logger) before _) as [wb wgb] eqn:Hb.
    subst wc. cbn [fst] in Hpoll.
    unfold pollTurn in H1 at 2. rewrite Hpoll in H1.
    apply (wgWait_recovered fuel r logger w1 wg1 w' o); [|exact Hw].
    assert (wg1 = snd (w1, wg1)) as -> by done. rewrite <- H1.
    apply pollTurns_recovered. simpl. by destruct (recovered wgb). }
  split; [exact Hwait|].
  intros w' o Hnil Hrec. unfold waitForContainers.
  assert ({| active := active wg; errs := []; recovered := None |} = wg) as ->
    by (destruct wg; simpl in *; congruence).
  destruct (wgWait fuel r logger w wg) as [[w1 o1]|] eqn:Hw; [|done].
  destruct (Hwait w1 o1 eq_refl) as [v ->].
  apply wgWait_panic_value in Hw as ->; [|by left].
  by intros [= _ <-].
Qed.

(** *** The forward walk keeps the cleanup list in step with what it starts *)

(** A composition the run has started: the logger of its step, its files
    and its log file. *)
Record composition := {
  c_logger : Logger;
  c_files : list string;
  c_logPath : string;
}.

(** The cleanup functions registered for it, in the order registered, and
    the calls they make when cleanup runs them, last registered first. *)
Definition releases (u : composition) : list cleanupFn :=
  [closeFile (c_logPath u); composeDown (c_logger u) (c_files u)].

Definition registered (ups : list composition) : list cleanupFn := flat_map releases ups.

Definition stops (u : composition) : list Event :=
  [EvComposeDown (c_files u); EvClose (c_logPath u)].

(** The compositions a sequence of calls starts. *)
Definition started (evs : list Event) : list (list string) :=
  omap (fun ev => match ev with EvComposeUp files => Some files | _ => None end) evs.

(** The calls of the forward walk: creating a log file, starting a
    composition, listing, inspecting and waiting. *)
Definition acquiring (ev : Event) : Prop :=
  match ev with
  | EvCreate _ | EvComposeUp _ => True
  | _ => observing ev
  end.

Lemma observing_acquiring ev : observing ev -> acquiring ev.
Proof. by destruct ev. Qed.

Lemma started_app evs1 evs2 : started (evs1 ++ evs2) = started evs1 ++ started evs2.
Proof. apply omap_app. Qed.

Lemma started_observing evs : Forall observing evs -> started evs = [].
Proof.
  induction 1 as [|ev evs Hev _ IH]; [done|].
  destruct ev; try done; simpl; exact IH.
Qed.

(** Between [st] and [st'] the compositions [ups] were started, in this
    order, and their cleanup functions registered; nothing was stopped. *)
Definition tracks (ups : list composition) (st st' : state) : Prop :=
  cleanupFns (fst st') = cleanupFns (fst st) ++ registered ups /\
  exists evs, trace (snd st') = trace (snd st) ++ evs /\
              started evs = map c_files ups /\ Forall acquiring evs.

Lemma tracks_refl st : tracks [] st st.
Proof.
  split; [simpl; by rewrite app_nil_r|]. exists []. by rewrite app_nil_r.
Qed.

Lemma tracks_trans ups1 ups2 st1 st2 st3 :
  tracks ups1 st1 st2 -> tracks ups2 st2 st3 -> tracks (ups1 ++ ups2) st1 st3.
Proof.
  intros [Hf1 (evs1 & Ht1 & Hs1 & Ha1)] [Hf2 (evs2 & Ht2 & Hs2 & Ha2)]. split.
  - unfold registered in *. by rewrite Hf2, Hf1, flat_map_app, <- app_assoc.
  - exists (evs1 ++ evs2). rewrite Ht2, Ht1, <- app_assoc. split; [done|].
    split; [by rewrite started_app, Hs1, Hs2, map_app|by apply Forall_app].
Qed.

Lemma tracks_world (rs : runState) (w w' : World) :
  adds observing w w' -> tracks [] (rs, w) (rs, w').
Proof.
  intros (evs & Ht & Hf). split; [simpl; by rewrite app_nil_r|].
  exists evs. split; [done|]. split; [by apply started_observing|].
  eapply Forall_impl; [exact Hf|apply observing_acquiring].
Qed.

Lemma dockerComposeUpWait_tracks fuel (r : testRun) logger files logPath st st' o :
  dockerComposeUpWait fuel r logger files logPath st = Some (st', o) ->
  exists ups, tracks ups st st'.
Proof.
  destruct st as [rs w]. intros [(e & err & _ & -> & _)|(e & evs & _ & Hf & Ht & Ho)]%dockerComposeUpWait_shape.
  - exists []. split; [simpl; by rewrite app_nil_r|].
    exists [EvCreate logPath]. split; [done|]. split; [done|]. by apply Forall_singleton.
  - exists [{| c_logger := logger; c_files := files; c_logPath := logPath |}].
    split; [done|].
    exists (EvCreate logPath :: EvComposeUp files :: evs). split; [done|]. split.
    + unfold started. simpl. fold (started evs). by rewrite started_observing.
    + apply Forall_cons_2; [done|]. apply Forall_cons_2; [done|].
      eapply Forall_impl; [exact Ho|apply observing_acquiring].
Qed.

Definition step_tracks (s : @step APIClient E) : Prop :=
  forall fuel r st st' o, s fuel r st = Some (st', o) -> exists ups, tracks ups st st'.

Lemma runStep_tracks name (r : testRun) body st st' o :
  (forall logger st0 st1 o1, body logger st0 = Some (st1, o1) -> exists ups, tracks ups st0 st1) ->
  runStep name r body st = Some (st', o) -> exists ups, tracks ups st st'.
Proof.
  intros Hbody. destruct st as [rs w]. unfold runStep.
  destruct (loggerForStep r name w) as [w1 logger] eqn:Hl.
  assert (trace w1 = trace w) as Ht1 by (by injection Hl as <- _).
  destruct (body logger (rs, w1)) as [[[rs2 w2] o2]|] eqn:Hb; [|done].
  intros [= <- _]. apply Hbody in Hb as (ups & Hf & evs & Ht & Hs & Ha).
  exists ups. split; [done|]. exists evs. split; [|done].
  simpl in *. rewrite <- Ht1, <- Ht. by destruct (named_result o2).
Qed.

Lemma emptyStep_tracks name : step_tracks (fun _ r => runStep name r returnNil).
Proof.
  intros fuel r st st' o Hs. eapply runStep_tracks; [|exact Hs].
  intros logger st0 st1 o1 [= <- _]. exists []. apply tracks_refl.
Qed.

Lemma composeStep_tracks fuel (r : testRun) logger paths logPath
    (rs : runState) (w : World) m1 m2 wrap st1 o1 :
  (if (length paths =? 0)%nat then
     Some ((rs, Info logger m1 [] w), Returned None)
   else
     match dockerComposeUpWait fuel r logger paths logPath (rs, w) with
     | None => None
     | Some (st, Returned (Some err)) => Some (st, Returned (Some (wrap err)))
     | Some ((rs, w), Returned None) => Some ((rs, Info logger m2 [] w), Returned None)
     | Some (st, Panicked v) => Some (st, Panicked v)
     end) = Some (st1, o1) ->
  exists ups, tracks ups (rs, w) st1.
Proof.
  destruct (length paths =? 0)%nat.
  { intros [= <- _]. exists []. apply tracks_world. by apply adds_same. }
  destruct (dockerComposeUpWait _ _ _ _ _ _) as [[st2 o2]|] eqn:Hd; [|done].
  apply dockerComposeUpWait_tracks in Hd as [ups Hd]. destruct st2 as [rs2 w2].
  destruct o2 as [[err|]|v]; [intros [= <- _]; by exists ups|
                              |intros [= <- _]; by exists ups].
  intros [= <- _]. exists ups. rewrite <- (app_nil_r ups).
  eapply tracks_trans; [exact Hd|]. apply tracks_world. by apply adds_same.
Qed.

Lemma infrastructure_tracks : step_tracks infrastructure.
Proof.
  intros fuel r st st' o Hs. eapply runStep_tracks; [|exact Hs].
  intros logger [rs w] st1 o1. apply composeStep_tracks.
Qed.

Lemma tool_tracks : step_tracks tool.
Proof.
  intros fuel r st st' o Hs. eapply runStep_tracks; [|exact Hs].
  intros logger [rs w] st1 o1. apply composeStep_tracks.
Qed.

Lemma test_tracks : step_tracks test.
Proof.
  intros fuel r st st' o Hs. eapply runStep_tracks; [|exact Hs].
  intros logger [rs w] st1 o1. simpl.
  destruct (time_Now (env w)) as [e now].
  destruct (testLoop _ _ _ _) as [[w2 o2]|] eqn:Ht; [|done].
  apply adds_testLoop in Ht. intros [= <- _]. exists [].
  apply tracks_world. eapply adds_trans; [|exact Ht]. by apply adds_same.
Qed.

Lemma steps_track : Forall step_tracks steps.
Proof.
  unfold steps.
  repeat (apply Forall_cons_2;
          [first [apply emptyStep_tracks | apply infrastructure_tracks
                 | apply tool_tracks | apply test_tracks]|]).
  apply Forall_nil_2.
Qed.

Lemma forward_tracks todo :
  Forall step_tracks todo ->
  forall fuel (r : testRun) logger (st st' : state) o,
    forward fuel r logger todo st = Some (st', o) -> exists ups, tracks ups st st'.
Proof.
  induction 1 as [|s todo Hs _ IH]; intros fuel r logger [rs w] st' o.
  - simpl. intros [= <- _]. exists []. apply tracks_world. by apply adds_same.
  - cbn [forward]. destruct (s fuel r (rs, w)) as [[[rs1 w1] o1]|] eqn:H1; [|done].
    apply Hs in H1 as [ups1 H1].
    destruct o1 as [[err|]|v].
    + intros [= <- _]. exists ups1. rewrite <- (app_nil_r ups1).
      eapply tracks_trans; [exact H1|]. apply tracks_world. by apply adds_same.
    + intros Hf. apply IH in Hf as [ups2 H2]. exists (ups1 ++ ups2).
      by eapply tracks_trans.
    + intros [= <- _]. by exists ups1.
Qed.

(** *** Cleanup stops what was started *)

Lemma runAll_app (fns1 fns2 : list cleanupFn) (w : World) :
  runAll (fns1 ++ fns2) w =
  (fst (runAll fns2 (fst (runAll fns1 w))),
   snd (runAll fns1 w) ++ snd (runAll fns2 (fst (runAll fns1 w)))).
Proof.
  revert w. induction fns1 as [|fn fns1 IH]; intros w; simpl.
  - by destruct (runAll fns2 w).
  - destruct (fn w) as [w1 err]. rewrite IH.
    destruct (runAll fns1 w1) as [w2 errs]. simpl.
    by destruct (runAll fns2 w2).
Qed.

Lemma rev_registered ups :
  rev (registered ups) = flat_map (fun u => rev (releases u)) (rev ups).
Proof.
  unfold registered. induction ups as [|u ups IH]; [done|].
  cbn [flat_map]. rewrite rev_app_distr, IH. cbn [rev]. rewrite flat_map_app. cbn [flat_map].
  by rewrite app_nil_r.
Qed.

Lemma trace_runAll_stops (us : list composition) (w : World) :
  trace (fst (runAll (flat_map (fun u => rev (releases u)) us) w))
  = trace w ++ flat_map stops us.
Proof.
  revert w. induction us as [|u us IH]; intros w.
  - simpl. by rewrite app_nil_r.
  - cbn [flat_map]. rewrite runAll_app. cbn [fst]. rewrite IH.
    assert (trace (fst (runAll (rev (releases u)) w)) = trace w ++ stops u) as ->;
      [|by rewrite <- app_assoc].
    simpl. unfold composeDown, closeFile.
    destruct (call (EvComposeDown _) _ _) as [w1 err1] eqn:H1.
    destruct (call (EvClose _) _ w1) as [w2 err2] eqn:H2. simpl.
    assert (w2 = fst (call (EvClose (c_logPath u)) (File_Close (c_logPath u)) w1)) as ->
      by by rewrite H2.
    assert (w1 = fst (call (EvComposeDown (c_files u)) (ComposeDown (c_files u))
                        (Info (c_logger u) "Stopping containers" [] w))) as ->
      by by rewrite H1.
    rewrite !call_fst. simpl. by rewrite <- app_assoc.
Qed.

Lemma deferred_trace (r : testRun) (rs : runState) (w : World) o st' o' ups :
  cleanupFns rs = registered ups ->
  deferred r (rs, w) o = (st', o') ->
  trace (snd st') = trace w ++ flat_map stops (rev ups).
Proof.
  intros Hfns. unfold deferred, cleanupSteps. cbn [fold_left].
  unfold preCleanup at 1, runCleanupStep at 1. cbn [loggerForStep].
  rewrite cleanup_unfold. cbv zeta. cbn [loggerForStep fst snd].
  unfold postCleanup, runCleanupStep. cbn [loggerForStep].
  rewrite Hfns, rev_registered.
  match goal with
  | |- context [runAll ?fns ?w0] =>
      pose proof (trace_runAll_stops (rev ups) w0) as Ht;
      destruct (runAll fns w0) as [w2 results]
  end.
  cbn [fst snd] in *.
  assert (forall l e (w0 : World), trace (lastLog l e w0) = trace w0) as Hlast
    by (by intros l [e|] w0).
  destruct (errors_Join results) as [e|] eqn:Hj; cbn [lastLog];
    destruct o as [[err|]|v]; simpl; intros [= <- _]; simpl; exact Ht.
Qed.

Lemma Run_trace_shape fuel (r : testRun) (rs : runState) (w : World) st' o :
  cleanupFns rs = [] ->
  Run fuel r (rs, w) = Some (st', o) ->
  exists ups guard evs,
    trace (snd st') = trace w ++ guard ++ evs ++ flat_map stops (rev ups) /\
    (guard = [EvStat (OutPath r)] \/ guard = [EvStat (OutPath r); EvMkdirAll (OutPath r)]) /\
    started evs = map c_files ups /\
    Forall acquiring evs.
Proof.
  intros Hnil.
  destruct (os_Stat (OutPath r) (env w)) as [e1 [err1|]] eqn:Hs.
  2:{ rewrite (Run_exists fuel r rs w e1 Hs). intros [= <- _].
      exists [], [EvStat (OutPath r)], []. simpl. split; [done|]. split; [by left|done]. }
  destruct (os_MkdirAll (OutPath r) e1) as [e2 [err2|]] eqn:Hm.
  { rewrite (Run_mkdir_fails fuel r rs w e1 err1 e2 err2 Hs Hm). intros [= <- _].
    exists [], [EvStat (OutPath r); EvMkdirAll (OutPath r)], []. simpl.
    rewrite <- app_assoc. split; [done|]. split; [by right|done]. }
  rewrite (Run_proceeds fuel r rs w e1 err1 e2 Hs Hm).
  destruct (forward _ _ _ _ _) as [[[rs1 w1] o1]|] eqn:Hf; [|done].
  apply (forward_tracks _ steps_track) in Hf as (ups & Hfns & evs & Ht & Hst & Ha).
  simpl in Hfns, Ht. rewrite Hnil in Hfns. simpl in Hfns.
  destruct (deferred r (rs1, w1) o1) as [st2 o2] eqn:Hd.
  apply (deferred_trace _ _ _ _ _ _ ups Hfns) in Hd.
  intros [= <- _]. exists ups, [EvStat (OutPath r); EvMkdirAll (OutPath r)], evs.
  rewrite Hd, Ht. split; [|split; [by right|done]].
  simpl. by rewrite <- !app_assoc.
Qed.

(** X11. Whatever way [Run] ends (with nil, with an error of a step, of
    the guard or of cleanup, or in a panic), it has stopped exactly the
    compositions it has started. After [os.Stat], and [os.MkdirAll] when the
    folder was not there, the forward walk creates log files, starts
    compositions, lists, inspects and waits, and stops nothing. Cleanup then
    calls [ComposeDown] for every composition that was started, the one
    started last first, and closes the log file of each right after stopping
    it; these are the last calls of the run. *)
Theorem Run_stops_what_it_started fuel (r : testRun) (rs : runState) (w : World) st' o :
  cleanupFns rs = [] ->
  Run fuel r (rs, w) = Some (st', o) ->
  exists ups guard evs,
    trace (snd st') = trace w ++ guard ++ evs ++ flat_map stops (rev ups) /\
    (guard = [EvStat (OutPath r)] \/ guard = [EvStat (OutPath r); EvMkdirAll (OutPath r)]) /\
    started evs = map c_files ups /\
    Forall acquiring evs.
Proof. apply Run_trace_shape. Qed.

(** *** The steps that start compositions *)




(** *** What the log tells of a step *)

Definition stepLogger (r : testRun) (name : string) : Logger :=
  [("test", AttrString (Name r)); ("tool", AttrString (Tool r)); ("step", AttrString name)].

(** The record the deferred [lastLog] writes for an outcome. *)
Definition closing (r : testRun) (name : string) (o : outcome) : LogEntry :=
  match o with
  | Returned (Some e) =>
      {| level := LevelError; msg := "Step failed";
         attrs := stepLogger r name ++ [("error", AttrError e)] |}
  | _ =>
      {| level := LevelInfo; msg := "Step successful"; attrs := stepLogger r name |}
  end.

Definition step_closes (name : string) (s : @step APIClient E) : Prop :=
  forall fuel r st st' o,
    s fuel r st = Some (st', o) -> last (logs (snd st')) = Some (closing r name o).

Lemma runStep_closes name (r : testRun) body (st st' : state) o :
  runStep name r body st = Some (st', o) -> last (logs (snd st')) = Some (closing r name o).
Proof.
  destruct st as [rs w]. unfold runStep. cbn [loggerForStep].
  destruct (body _ _) as [[[rs2 w2] o2]|]; [|done].
  intros [= <- <-]. destruct o2 as [[e|]|v]; simpl; by rewrite last_snoc.
Qed.

(** X13. The last record a step writes tells how it ended, as far as the
    named result shows it: Step failed with the error when the step returned
    an error, Step successful when it returned nil, and Step successful also
    when it panicked, since a panic leaves the named result nil. This holds
    for each of the nine steps of the forward walk, under its own name. *)
Theorem step_last_record_tells_named_result :
  Forall2 step_closes stepNames steps.
Proof.
  unfold stepNames, steps.
  repeat (apply List.Forall2_cons;
          [intros fuel r st st' o Hs; by eapply runStep_closes|]).
  apply List.Forall2_nil.
Qed.

(** *** The test step *)






(** *** [Run] of the package *)

(** The output folders of the runs that were started: each run begins with
    [os.Stat] of its folder. *)
Definition testsStarted (evs : list Event) : list string :=
  omap (fun ev => match ev with EvStat path => Some path | _ => None end) evs.

Lemma testsStarted_app evs1 evs2 :
  testsStarted (evs1 ++ evs2) = testsStarted evs1 ++ testsStarted evs2.
Proof. apply omap_app. Qed.

Lemma testsStarted_none (P : Event -> Prop) evs :
  (forall ev, P ev -> forall path, ev <> EvStat path) -> Forall P evs -> testsStarted evs = [].
Proof.
  intros HP. induction 1 as [|ev evs Hev _ IH]; [done|].
  specialize (HP ev Hev). destruct ev; try exact IH. by destruct (HP path).
Qed.

Lemma testsStarted_stops ups : testsStarted (flat_map stops ups) = [].
Proof. induction ups as [|u ups IH]; [done|]. exact IH. Qed.

Lemma Run_one_test fuel (r : testRun) (rs : runState) (w : World) st' o :
  cleanupFns rs = [] ->
  Run fuel r (rs, w) = Some (st', o) ->
  testsStarted (trace (snd st')) = testsStarted (trace w) ++ [OutPath r].
Proof.
  intros Hnil (ups & guard & evs & Ht & Hg & _ & Ha)%Run_trace_shape; [|done].
  rewrite Ht, !testsStarted_app, testsStarted_stops.
  rewrite (testsStarted_none acquiring evs); [|by intros []|done].
  rewrite !app_nil_r. by destruct Hg as [-> | ->].
Qed.

Section PackageRun.
Variable Format : Z -> string.



(** The world in which the loop over the runs starts. *)
Definition identified (opt : @RunOptions APIClient) (count : nat) (w : World) (e1 : E) : World :=
  Info [] "Identified tests" [("count", AttrInt (Z.of_nat count))]
    {| env := fst (time_Now e1);
       trace := trace w ++ [EvMkdirAll (opt_OutPath opt)];
       logs := logs w |}.

Lemma Package_Run_proceeds (fuel : nat) cfg (opt : @RunOptions APIClient) (w : World) e1 :
  os_MkdirAll (opt_OutPath opt) (env w) = (e1, None) ->
  let testRuns := buildTestRuns (Format (snd (time_Now e1))) cfg opt in
  Package.Run Format fuel cfg opt w =
    Package.runTests fuel 0 testRuns (identified opt (length testRuns) w e1).
Proof.
  intros Hm. unfold Package.Run, identified. rewrite (call_eq _ _ _ _ _ Hm). simpl.
  by destruct (time_Now e1).
Qed.


(** X16. A configuration in which no scenario has a tool gives [Run] of
    the package nothing to do: once the output folder is made it logs that
    it identified 0 tests and returns nil, however many scenarios the
    configuration has; it has started no run and has made no other call. *)
Theorem Run_without_tools_runs_nothing (fuel : nat) cfg (opt : @RunOptions APIClient)
    (w : World) e1 :
  (forall t, In t (Config.Tests cfg) -> Config.Tools cfg = [] /\ Test.Tools t = []) ->
  os_MkdirAll (opt_OutPath opt) (env w) = (e1, None) ->
  Package.Run Format fuel cfg opt w = Some (identified opt 0 w e1, Returned None) /\
  trace (identified opt 0 w e1) = trace w ++ [EvMkdirAll (opt_OutPath opt)].
Proof.
  intros Hno Hm. split; [|done].
  rewrite (Package_Run_proceeds fuel cfg opt w e1 Hm). cbv zeta.
  apply (RunFieldProps.buildTestRuns_nil (Format (snd (time_Now e1))) cfg opt) in Hno.
  by rewrite Hno.
Qed.

(** X17. The option [FilterTests] has no effect: two calls of
    [buildTestRuns], and of [Run] of the package, with options that name the
    same output folder and the same container client build and run the same
    test runs, whatever their filters are. *)
Theorem FilterTests_is_ignored (fuel : nat) cfg (opt opt' : @RunOptions APIClient) (w : World) :
  opt_OutPath opt = opt_OutPath opt' -> opt_DockerClient opt = opt_DockerClient opt' ->
  (forall now, buildTestRuns now cfg opt = buildTestRuns now cfg opt') /\
  Package.Run Format fuel cfg opt w = Package.Run Format fuel cfg opt' w.
Proof.
  intros Ho Hc.
  assert (forall now, buildTestRuns now cfg opt = buildTestRuns now cfg opt') as Hb
    by (intros now; by apply RunFieldProps.buildTestRuns_options).
  split; [done|]. unfold Package.Run. rewrite Ho.
  destruct (call _ _ w) as [w1 [err|]]; [done|].
  destruct (time_Now (env w1)) as [e now]. by rewrite Hb.
Qed.

End PackageRun.

(** *** A world in which nothing fails *)

(** No output folder is there yet and every folder and file can be made
    and closed; no [ComposeUp] has failed, whenever one looks; a listing
    always shows a container and every container is ready when inspected;
    [ComposeDown] works; the context never ends and the test window is over
    when the test step first waits. *)
Record calm : Prop := {
  calm_stat : forall path e, exists e' err, os_Stat path e = (e', Some err);
  calm_mkdir : forall path e, exists e', os_MkdirAll path e = (e', None);
  calm_create : forall path e, exists e', os_Create path e = (e', None);
  calm_close : forall path e, exists e', File_Close path e = (e', None);
  calm_up : forall files e,
    exists e' res, ComposeUp_returned files e = (e', res) /\ forall err, res <> Some (Some err);
  calm_down : forall files e, exists e', ComposeDown files e = (e', None);
  calm_ps : forall files e, exists e' c cs, ComposePs files e = (e', inr (c :: cs));
  calm_inspect : forall client c e,
    exists e' resp, ContainerInspect client c e = (e', inr resp) /\ ready resp;
  calm_second : forall e, exists e', select_Second e = (e', None);
  calm_test : forall e, exists e', select_test e = (e', TestCompleted);
}.

Lemma settle_calm tasks (e : E) : calm -> snd (settle tasks false e) = false.
Proof.
  intros Hc. revert e. induction tasks as [|files tasks IH]; intros e; simpl; [done|].
  destruct (calm_up Hc files e) as (e1 & res & -> & Hres).
  assert ((match res with Some (Some _) => true | _ => false end) = false) as ->.
  { destruct res as [[err|]|]; [by destruct (Hres err)|done|done]. }
  specialize (IH e1). by destruct (settle tasks false e1) as [[e2 running] dead].
Qed.

Lemma Load_calm (rs : runState) (w : World) :
  calm -> goroutinePoolDead rs = false ->
  exists rs' w',
    Load (rs, w) = ((rs', w'), false) /\
    cleanupFns rs' = cleanupFns rs /\ goroutinePoolDead rs' = false.
Proof.
  intros Hc Hd. destruct (Load (rs, w)) as [[rs' w'] dead] eqn:HL.
  assert (dead = false) as ->.
  { assert (dead = snd (Load (rs, w))) as -> by by rewrite HL.
    unfold Load. rewrite Hd.
    pose proof (settle_calm (goroutinePool rs) (env w) Hc) as Hs.
    by destruct (settle _ _ _) as [[e running] d]. }
  apply Load_spec in HL as (Hf & _ & _ & _ & Hdead). by exists rs', w'.
Qed.

Lemma discover_calm n files (w : World) :
  calm -> exists w' c cs, discover (S n) files w = (w', inr (c :: cs)).
Proof.
  intros Hc. simpl.
  destruct (calm_second Hc (env w)) as [e1 H1]. rewrite (call_eq _ _ _ _ _ H1).
  destruct (calm_ps Hc files (env (called EvAfterSecond e1 w))) as (e2 & c & cs & H2).
  rewrite (call_eq _ _ _ _ _ H2). simpl. eauto.
Qed.

Lemma dockerComposeUpWait_calm fuel (r : testRun) logger files logPath
    (rs : runState) (w : World) :
  calm -> goroutinePoolDead rs = false ->
  exists rs' w',
    dockerComposeUpWait (S fuel) r logger files logPath (rs, w)
      = Some ((rs', w'), Returned None) /\
    goroutinePoolDead rs' = false.
Proof.
  intros Hc Hd. unfold dockerComposeUpWait.
  destruct (calm_create Hc logPath (env w)) as [e1 H1]. rewrite (call_eq _ _ _ _ _ H1).
  rewrite startCompose_eq.
  set (rs2 := {| cleanupFns := _ |}). set (w2 := Info logger _ [] _).
  destruct (discover_calm 29 files w2 Hc) as (w3 & c & cs & ->).
  set (w4 := Info logger _ [] w3).
  destruct (Load_calm rs2 w4 Hc Hd) as (rs5 & w5 & -> & _ & Hd5).
  destruct (waitForContainers_ready fuel r logger (c :: cs) w5) as (w6 & -> & _).
  { intros c' e _. apply (calm_inspect Hc). }
  by exists rs5, w6.
Qed.

(** A step that succeeds in such a world, given one turn of fuel. *)
Definition calmly (s : @step APIClient E) : Prop :=
  forall fuel (r : testRun) (rs : runState) (w : World),
    goroutinePoolDead rs = false ->
    exists rs' w',
      s (S fuel) r (rs, w) = Some ((rs', w'), Returned None) /\
      goroutinePoolDead rs' = false.

Lemma runStep_calm name (r : testRun) body (rs : runState) (w : World) :
  (forall logger w0, exists rs' w',
     body logger (rs, w0) = Some ((rs', w'), Returned None) /\
     goroutinePoolDead rs' = false) ->
  exists rs' w',
    runStep name r body (rs, w) = Some ((rs', w'), Returned None) /\
    goroutinePoolDead rs' = false.
Proof.
  intros Hbody. unfold runStep. cbn [loggerForStep].
  match goal with
  | |- context [body ?l (rs, ?w0)] => destruct (Hbody l w0) as (rs' & w' & -> & Hd)
  end.
  eexists _, _. split; [reflexivity|done].
Qed.

Lemma emptyStep_calm name : calmly (fun _ r => runStep name r returnNil).
Proof.
  intros fuel r rs w Hd. apply runStep_calm. intros logger w0.
  by exists rs, w0.
Qed.

Lemma composeStep_calm fuel (r : testRun) logger paths logPath
    (rs : runState) (w : World) m1 m2 wrap :
  calm -> goroutinePoolDead rs = false ->
  exists rs' w',
    (if (length paths =? 0)%nat then
       Some ((rs, Info logger m1 [] w), Returned None)
     else
       match dockerComposeUpWait (S fuel) r logger paths logPath (rs, w) with
       | None => None
       | Some (st, Returned (Some err)) => Some (st, Returned (Some (wrap err)))
       | Some ((rs, w), Returned None) => Some ((rs, Info logger m2 [] w), Returned None)
       | Some (st, Panicked v) => Some (st, Panicked v)
       end) = Some ((rs', w'), Returned None) /\
    goroutinePoolDead rs' = false.
Proof.
  intros Hc Hd. destruct (length paths =? 0)%nat; [by eexists _, _|].
  destruct (dockerComposeUpWait_calm fuel r logger paths logPath rs w Hc Hd)
    as (rs' & w' & -> & Hd').
  by eexists _, _.
Qed.

Lemma infrastructure_calm : calm -> calmly infrastructure.
Proof.
  intros Hc fuel r rs w Hd. apply runStep_calm. intros logger w0.
  by apply composeStep_calm.
Qed.

Lemma tool_calm : calm -> calmly tool.
Proof.
  intros Hc fuel r rs w Hd. apply runStep_calm. intros logger w0.
  by apply composeStep_calm.
Qed.

Lemma test_calm : calm -> calmly test.
Proof.
  intros Hc fuel r rs w Hd. apply runStep_calm. intros logger w0.
  destruct (time_Now (env w0)) as [e now].
  unfold testLoop; fold (testLoop (W := W)).
  destruct (time_Now _) as [e2 now2].
  match goal with
  | |- context [call EvTestSelect select_test ?w1] =>
      destruct (calm_test Hc (env w1)) as [e3 H3]; rewrite (call_eq _ _ _ _ _ H3)
  end.
  by eexists _, _.
Qed.

Lemma steps_calm : calm -> Forall calmly steps.
Proof.
  intros Hc. unfold steps.
  repeat (apply Forall_cons_2;
          [first [apply emptyStep_calm | by apply infrastructure_calm
                 | by apply tool_calm | by apply test_calm]|]).
  apply Forall_nil_2.
Qed.

Lemma forward_calm todo :
  Forall calmly todo ->
  forall fuel (r : testRun) logger (rs : runState) (w : World),
    goroutinePoolDead rs = false ->
    exists st', forward (S fuel) r logger todo (rs, w) = Some (st', Returned None).
Proof.
  induction 1 as [|s todo Hs _ IH]; intros fuel r logger rs w Hd.
  - simpl. eauto.
  - cbn [forward]. destruct (Hs fuel r rs w Hd) as (rs1 & w1 & -> & Hd1).
    by apply IH.
Qed.

Lemma runAll_calm (us : list composition) (w : World) :
  calm ->
  Forall (fun res => res = None) (snd (runAll (flat_map (fun u => rev (releases u)) us) w)).
Proof.
  intros Hc. revert w. induction us as [|u us IH]; intros w; [by constructor|].
  cbn [flat_map]. rewrite runAll_app. cbn [snd]. apply Forall_app. split; [|apply IH].
  simpl. unfold composeDown, closeFile.
  match goal with
  | |- context [call (EvComposeDown ?f) _ ?w0] =>
      destruct (calm_down Hc f (env w0)) as [e1 H1]; rewrite (call_eq _ _ _ _ _ H1)
  end.
  match goal with
  | |- context [call (EvClose ?p) _ ?w0] =>
      destruct (calm_close Hc p (env w0)) as [e2 H2]; rewrite (call_eq _ _ _ _ _ H2)
  end.
  simpl. by repeat constructor.
Qed.

Lemma deferred_calm (r : testRun) (rs : runState) (w : World) ups :
  calm -> cleanupFns rs = registered ups ->
  snd (deferred r (rs, w) (Returned None)) = Returned None.
Proof.
  intros Hc Hfns. unfold deferred, cleanupSteps. cbn [fold_left].
  unfold preCleanup at 1, runCleanupStep at 1. cbn [loggerForStep].
  rewrite cleanup_unfold. cbv zeta. cbn [loggerForStep fst snd].
  unfold postCleanup, runCleanupStep. cbn [loggerForStep].
  rewrite Hfns, rev_registered.
  match goal with
  | |- context [runAll ?fns ?w0] =>
      pose proof (runAll_calm (rev ups) w0 Hc) as Hres;
      destruct (runAll fns w0) as [w2 results]
  end.
  cbn [fst snd] in *. apply errors_Join_None in Hres. by rewrite Hres.
Qed.

Lemma Run_calm fuel (r : testRun) (rs : runState) (w : World) :
  calm -> cleanupFns rs = [] ->
  exists st',
    Run (S fuel) r (rs, w) = Some (st', Returned None) /\
    stepsEntered (logs (snd st')) = stepsEntered (logs w) ++ stepNames ++ cleanupNames.
Proof.
  intros Hc Hnil.
  destruct (calm_stat Hc (OutPath r) (env w)) as (e1 & err1 & Hs).
  destruct (calm_mkdir Hc (OutPath r) e1) as (e2 & Hm).
  rewrite (Run_proceeds _ r rs w e1 err1 e2 Hs Hm).
  destruct (forward_calm steps (steps_calm Hc) fuel r (runLogger r) (freshPool rs)
              (mkdirWorld r w e2) eq_refl) as [[rs1 w1] Hf].
  rewrite Hf.
  pose proof (forward_tracks _ steps_track _ _ _ _ _ _ Hf) as (ups & Hfns & _).
  destruct (forward_spec _ _ steps_enter _ _ _ _ _ _ Hf)
    as (done & _ & He & _ & (new & Hn & Hok) & Hall).
  rewrite (Hall eq_refl) in He. cbn [fst snd] in He. rewrite stepsEntered_mkdirWorld in He.
  simpl in Hfns, Hn. rewrite Hnil in Hfns, Hn. simpl in Hfns, Hn.
  pose proof (deferred_calm r rs1 w1 ups Hc Hfns) as Ho.
  destruct (deferred r (rs1, w1) (Returned None)) as [st2 o2] eqn:Hd. simpl in Ho. subst o2.
  exists st2. split; [done|].
  apply deferred_spec in Hd as (_ & He2 & _); [|simpl; by rewrite Hn].
  rewrite He2. cbn [snd]. rewrite He. by rewrite <- app_assoc.
Qed.

(** X18. In a world in which nothing fails and every container is ready
    when it is first inspected, [Run] ends as soon as it is given one turn
    of fuel and returns nil: it has entered the nine forward steps and then
    the three cleanup steps, each once and in their order. *)
Theorem Run_succeeds_when_nothing_fails fuel (r : testRun) (rs : runState) (w : World) :
  calm -> cleanupFns rs = [] ->
  exists st',
    Run (S fuel) r (rs, w) = Some (st', Returned None) /\
    stepsEntered (logs (snd st')) = stepsEntered (logs w) ++ stepNames ++ cleanupNames.
Proof. apply Run_calm. Qed.

Lemma runTests_calm fuel i (testRuns : list testRun) (w : World) :
  calm ->
  exists w',
    Package.runTests (S fuel) i testRuns w = Some (w', Returned None) /\
    testsStarted (trace w') = testsStarted (trace w) ++ map OutPath testRuns.
Proof.
  intros Hc. revert i w. induction testRuns as [|tr testRuns IH]; intros i w.
  - exists w. simpl. by rewrite app_nil_r.
  - cbn [Package.runTests].
    destruct (Run_calm fuel tr Package.newRunState w Hc eq_refl) as ([rs1 w1] & HR & _).
    rewrite HR. apply Run_one_test in HR; [|done]. simpl in HR.
    destruct (IH (S i) w1) as (w' & -> & Ht). exists w'. split; [done|].
    rewrite Ht, HR. simpl. by rewrite <- app_assoc.
Qed.

(** X19. In such a world [Run] of the package returns nil as soon as it
    is given one turn of fuel, for every configuration: it has started every
    run that [buildTestRuns] built, each once and in that order. *)
Theorem Package_Run_succeeds_when_nothing_fails
    (Format : Z -> string) fuel cfg (opt : @RunOptions APIClient) (w : World) :
  calm ->
  exists e1 w',
    os_MkdirAll (opt_OutPath opt) (env w) = (e1, None) /\
    Package.Run Format (S fuel) cfg opt w = Some (w', Returned None) /\
    testsStarted (trace w') =
      testsStarted (trace w)
        ++ map OutPath (buildTestRuns (Format (snd (time_Now e1))) cfg opt).
Proof.
  intros Hc. destruct (calm_mkdir Hc (opt_OutPath opt) (env w)) as [e1 Hm].
  rewrite (Package_Run_proceeds Format (S fuel) cfg opt w e1 Hm). cbv zeta.
  destruct (runTests_calm fuel 0 (buildTestRuns (Format (snd (time_Now e1))) cfg opt)
              (identified opt (length (buildTestRuns (Format (snd (time_Now e1))) cfg opt))
                 w e1) Hc) as (w' & HR & Ht).
  exists e1, w'. split; [done|]. split; [done|]. rewrite Ht. simpl.
  rewrite testsStarted_app. simpl. by rewrite app_nil_r.
Qed.

End Engine.

End ComposeProps.

(** ** The queries of the collectors *)

Module QueryProps.

Import mapstructure prometheus kafka MetricsProps.

#[local] Set Warnings "-clear-no-such-hyp".

Section Queries.
Context {lib : GoLib}.

(** The keys of a query. *)
Definition queryKeys : list string := ["name"; "query"; "interval"; "unit"].

Lemma decodeElems_fail {T} (fields : list (field T)) zero name i (elems : list any) data :
  In data elems ->
  (forall nm, exists err, decodeStruct fields zero nm data = inl err) ->
  snd (decodeElems fields zero name i elems) <> [].
Proof.
  intros Hin Hfail. revert i. induction elems as [|d elems IH]; intros i; [done|].
  simpl. destruct (decodeElems fields zero name (S i) elems) as [vals errors] eqn:He.
  destruct Hin as [->|Hin].
  - destruct (Hfail (name +:+ "[" +:+ pretty i +:+ "]")) as [err ->]. done.
  - specialize (IH Hin (S i)). rewrite He in IH. simpl in IH.
    destruct (decodeStruct _ _ _ d); simpl; [done|exact IH].
Qed.

Lemma lookupKey_exact (dataVal : gmap string any) name v :
  dataVal !! name = Some v -> lookupKey dataVal name = Some (name, v).
Proof. intros Hl. unfold lookupKey. by rewrite Hl. Qed.

Lemma decodeField_errors {T} name (dataVal : gmap string any)
    (acc : T * gset string * list error) (f : field T) :
  snd acc <> [] -> snd (decodeField name dataVal acc f) <> [].
Proof.
  destruct acc as [[val unused] errors]. simpl. intros Hne. unfold decodeField.
  destruct (lookupKey dataVal (fieldName f)) as [[k v]|]; [|done].
  destruct v; simpl; try done; destruct (decode f _ _ val); simpl; try done;
    by intros [? ?]%app_eq_nil.
Qed.

Lemma decodeStructFromMap_errors {T} name (fields : list (field T))
    (dataVal : gmap string any) (val : T) :
  snd (fold_left (decodeField name dataVal) fields (val, dom dataVal, [])) <> [] ->
  exists err, decodeStructFromMap name fields dataVal val = inl err.
Proof.
  unfold decodeStructFromMap.
  destruct (fold_left _ fields _) as [[val' unused] errors]. simpl. intros Hne.
  destruct (decide (unused = ∅)); destruct errors; simpl; try done; eauto.
Qed.

(** X20. Strict decoding reaches into the queries: a settings bag whose
    queries hold a query with a key that matches none of name, query,
    interval and unit, neither as it stands nor folded, is refused by
    [parseConfig], whatever else the bag holds. *)
Theorem parseConfig_strict_inside_queries (settings : gmap string any) v q k :
  settings !! "queries" = Some v ->
  (exists l, v = slice_any l /\ In (map_any q) l) \/ (exists l, v = slice_map l /\ In q l) ->
  k ∈ dom q -> (forall name, In name queryKeys -> ~ matches k name) ->
  exists err, parseConfig settings = inl err.
Proof.
  intros Hq Hv Hk Hn.
  assert (forall nm, exists err,
            decodeStruct QueryConfig_fields QueryConfig_zero nm (map_any q) = inl err) as Hfail.
  { intros nm. simpl. apply decodeStructFromMap_unused with (k := k); [done|].
    unfold QueryConfig_fields.
    repeat (apply Forall_cons_2; [apply Hn; unfold queryKeys; simpl; tauto|]).
    apply Forall_nil_2. }
  assert (exists err, decodeSlice QueryConfig_fields QueryConfig_zero "queries" v = inl err)
    as [err Hs].
  { unfold decodeSlice.
    assert (exists elems,
              elems = match v with
                      | slice_any l => l
                      | slice_map l => map map_any l
                      | map_any m => if decide (m = ∅) then [] else [v]
                      | _ => [v]
                      end /\ In (map_any q) elems) as (elems & <- & Hin).
    { destruct Hv as [(l & -> & Hin)|(l & -> & Hin)]; eexists; (split; [done|]);
        [done|by apply in_map]. }
    pose proof (decodeElems_fail QueryConfig_fields QueryConfig_zero "queries" 0 elems
                  (map_any q) Hin Hfail) as Hne.
    destruct (decodeElems _ _ _ _ elems) as [vals errors]. simpl in Hne.
    destruct errors; [done|eauto]. }
  unfold parseConfig.
  destruct (decodeStructFromMap_errors "" Config_fields settings defaultConfig) as [e ->];
    [|eauto].
  unfold Config_fields. cbn [fold_left].
  match goal with
  | |- snd (decodeField _ _ ?acc _) <> [] => destruct acc as [[val unused] errors]
  end.
  unfold decodeField. cbn [fieldName decode]. rewrite (lookupKey_exact _ _ _ Hq).
  assert (v <> nil_any) as Hnil by (by destruct Hv as [(l & -> & _)|(l & -> & _)]).
  change (if ("" =? "")%string then "queries" else "" +:+ "." +:+ "queries") with "queries".
  unfold set. rewrite Hs.
  destruct v; try done; simpl; by intros [? ?]%app_eq_nil.
Qed.

(** *** The queries the kafka collector makes *)

(** A query of [topicQueries] as the generic collector types it. *)
Definition text (v : option any) : string :=
  match v with
  | Some (str s) => s
  | _ => ""
  end.

Definition typedQuery (d : Z) (q : gmap string any) : QueryConfig :=
  {| Name := text (q !! "name");
     QueryString := text (q !! "query");
     Interval := d;
     Unit := text (q !! "unit") |}.

Lemma dom_query n s u :
  dom (query n s u) = ({["name"; "query"; "unit"; "interval"]} : gset string).
Proof. unfold query. rewrite !dom_insert_L, dom_singleton_L. set_solver. Qed.

Lemma decodeStruct_query d nm n s u :
  time_ParseDuration "1s" = inr d ->
  decodeStruct QueryConfig_fields QueryConfig_zero nm (map_any (query n s u)) =
    inr (typedQuery d (query n s u)).
Proof.
  intros Hd. simpl. unfold decodeStructFromMap, QueryConfig_fields. cbn [fold_left].
  unfold decodeField. cbn [fieldName decode].
  rewrite (lookupKey_exact (query n s u) "name" (str n)) by reflexivity.
  cbn match. unfold set at 1. cbn [decodeString].
  rewrite (lookupKey_exact (query n s u) "query" (str s)) by reflexivity.
  cbn match. unfold set at 1. cbn [decodeString].
  rewrite (lookupKey_exact (query n s u) "interval" (str "1s")) by reflexivity.
  cbn match. unfold set at 1. cbn [decodeDuration]. rewrite Hd.
  rewrite (lookupKey_exact (query n s u) "unit" (str u)) by reflexivity.
  cbn match. unfold set at 1. cbn [decodeString].
  rewrite dom_query.
  destruct (decide (_ = ∅)) as [_|Hne]; [reflexivity|].
  exfalso. apply Hne. set_solver.
Qed.

Lemma decodeElems_ok {T} (fields : list (field T)) zero name i (elems : list any)
    (g : any -> T) :
  (forall data nm, In data elems -> decodeStruct fields zero nm data = inr (g data)) ->
  decodeElems fields zero name i elems = (map g elems, []).
Proof.
  revert i. induction elems as [|data elems IH]; intros i Hok; [done|].
  simpl. rewrite IH by (intros; apply Hok; by right).
  by rewrite Hok by by left.
Qed.

Lemma In_topicQueries q topics :
  In q (concat (map topicQueries topics)) -> exists n s u, q = query n s u.
Proof.
  intros (qs & Hqs & Hq)%in_concat. apply in_map_iff in Hqs as (topic & <- & _).
  unfold topicQueries in Hq. simpl in Hq.
  destruct Hq as [<-|[<-|[<-|[]]]]; eauto.
Qed.

Lemma decodeQueries_topics d topics :
  time_ParseDuration "1s" = inr d ->
  decodeQueries "queries" (slice_map (concat (map topicQueries topics))) =
    inr (map (typedQuery d) (concat (map topicQueries topics))).
Proof.
  intros Hd. unfold decodeQueries, decodeSlice.
  rewrite (decodeElems_ok _ _ _ _ _
             (fun data => match data with
                          | map_any q => typedQuery d q
                          | _ => QueryConfig_zero
                          end)).
  - by rewrite map_map.
  - intros data nm (q & <- & Hq)%in_map_iff.
    apply In_topicQueries in Hq as (n & s & u & ->). by apply decodeStruct_query.
Qed.

Section Kafka.
Variable parseConfig : gmap string any -> error + kafka.Config.
Variable Collector_Configure : gmap string any -> option error.

(** X21. The queries the kafka collector makes are queries the generic
    collector takes. For a bag with no other keys than topics, url and
    scrape-interval, the bag [Configure] hands on decodes in [parseConfig]
    of the generic collector exactly when the url and the scrape interval of
    the bag do and the url parses; the configuration then has three queries
    for every topic, in the order of the topics, each with its name, its
    query string, its unit and an interval of one second, and no other
    query. *)
Theorem topic_queries_are_accepted (settings : gmap string any) cfg d :
  folds_apart ->
  time_ParseDuration "1s" = inr d ->
  (forall k, k ∈ dom settings -> k = "topics" \/ k = "url" \/ k = "scrape-interval") ->
  parseConfig settings = inr cfg ->
  let delegated := fst (kafka.Configure parseConfig Collector_Configure settings) in
  forall pcfg,
    prometheus.parseConfig delegated = inr pcfg <->
    fieldOf decodeString "url" settings "" = inr (URL pcfg) /\
    fieldOf decodeDuration "scrape-interval" settings Second = inr (ScrapeInterval pcfg) /\
    Queries pcfg = map (typedQuery d) (concat (map topicQueries (Topics cfg))) /\
    url_Parse (URL pcfg) = None.
Proof.
  intros Hfold Hd Hdom Hp delegated pcfg.
  destruct (Configure_delegated parseConfig Collector_Configure settings cfg Hp)
    as (Htopics & Hqueries & _). fold delegated in Htopics, Hqueries.
  assert (settings !! "queries" = None) as Hnoq.
  { apply not_elem_of_dom. intros [?|[?|?]]%Hdom; done. }
  unfold settingsQueries in Hqueries. rewrite Hnoq, app_nil_r in Hqueries.
  assert (forall k, k <> "topics" -> k <> "queries" -> delegated !! k = settings !! k) as Hframe.
  { intros k Ht Hq. subst delegated. unfold kafka.Configure. rewrite Hp. cbn [fst].
    by rewrite lookup_insert_ne, lookup_delete_ne. }
  assert (forall k, k ∈ dom delegated -> In k recognized) as Hrec.
  { intros k Hk. unfold recognized.
    destruct (decide (k = "queries")) as [->|Hq]; [simpl; tauto|].
    destruct (decide (k = "topics")) as [->|Ht].
    { apply elem_of_dom in Hk as [x Hx]. congruence. }
    apply elem_of_dom in Hk as [x Hx]. rewrite Hframe in Hx by done.
    assert (k ∈ dom settings) as Hks by (apply elem_of_dom; eauto).
    apply Hdom in Hks as [?|[->| ->]]; simpl; tauto. }
  assert (fieldOf decodeString "url" delegated "" = fieldOf decodeString "url" settings "")
    as Hurl by (unfold fieldOf; by rewrite Hframe).
  assert (fieldOf decodeDuration "scrape-interval" delegated Second =
          fieldOf decodeDuration "scrape-interval" settings Second)
    as Hsi by (unfold fieldOf; by rewrite Hframe).
  assert (fieldOf decodeQueries "queries" delegated [] =
          inr (map (typedQuery d) (concat (map topicQueries (Topics cfg))))) as Hqs.
  { unfold fieldOf. rewrite Hqueries. by apply decodeQueries_topics. }
  unfold prometheus.parseConfig, parseURL.
  destruct (decodeStructFromMap "" Config_fields delegated defaultConfig) as [err|cfg'] eqn:Hdec.
  - split; [done|]. intros (Hu & Hs & Hq & _).
    assert (decodeStructFromMap "" Config_fields delegated defaultConfig = inr pcfg) as Hdec'.
    { apply decode_recognized; [done|done|]. rewrite Hurl, Hsi, Hqs, Hq. done. }
    congruence.
  - apply decode_recognized in Hdec as (Hu & Hs & Hq); [|done|done].
    rewrite Hurl in Hu. rewrite Hsi in Hs. rewrite Hqs in Hq. injection Hq as Hq.
    destruct (url_Parse (URL cfg')) as [err|] eqn:Hparse.
    + split; [done|]. intros (Hu' & _ & _ & Hp').
      rewrite Hu in Hu'. injection Hu' as Hu'. congruence.
    + split.
      * intros [= <-]. done.
      * intros (Hu' & Hs' & Hq' & _). f_equal.
        rewrite Hu in Hu'. rewrite Hs in Hs'.
        destruct pcfg, cfg'. simpl in *. congruence.
Qed.

(** X22. [Configure] of the kafka collector changes the bag it is given
    under two keys only. When its own [parseConfig] refuses the bag it
    returns that error wrapped and leaves the bag as it was. Otherwise the
    bag it hands to the embedded collector has lost the key topics, has the
    key queries whether or not it had it before, and holds every other key
    with the value it had; the error of the embedded collector is returned
    as it is. *)
Theorem Configure_touches_topics_and_queries_only (settings : gmap string any) :
  (forall err,
     parseConfig settings = inl err ->
     kafka.Configure parseConfig Collector_Configure settings =
       (settings, Some (fmt_Errorf "failed to parse config: %w" [ArgErr err]))) /\
  (forall cfg,
     parseConfig settings = inr cfg ->
     let delegated := fst (kafka.Configure parseConfig Collector_Configure settings) in
     (forall k, k <> "topics" -> k <> "queries" -> delegated !! k = settings !! k) /\
     dom delegated = dom settings ∖ {["topics"]} ∪ {["queries"]} /\
     snd (kafka.Configure parseConfig Collector_Configure settings) =
       Collector_Configure delegated).
Proof.
  split.
  - intros err Hp. unfold kafka.Configure. by rewrite Hp.
  - intros cfg Hp delegated. subst delegated. unfold kafka.Configure. rewrite Hp.
    cbn [fst snd]. split; [|split; [|done]].
    + intros k Ht Hq. by rewrite lookup_insert_ne, lookup_delete_ne.
    + rewrite dom_insert_L, dom_delete_L. set_solver.
Qed.

(** X23. When the bag holds the queries of the user as a slice of maps,
    [Configure] hands on the three queries of every topic followed by the
    queries of the user, these in their order and none removed: three times
    the number of topics plus the number of the queries of the user. A value
    of any other kind under the key queries is replaced by the queries of
    the topics alone. *)
Theorem Configure_appends_queries_held_as_slice_of_maps (settings : gmap string any) cfg :
  parseConfig settings = inr cfg ->
  let delegated := fst (kafka.Configure parseConfig Collector_Configure settings) in
  (forall user,
     settings !! "queries" = Some (slice_map user) ->
     delegated !! "queries" =
       Some (slice_map (concat (map topicQueries (Topics cfg)) ++ user)) /\
     length (concat (map topicQueries (Topics cfg)) ++ user) =
       3 * length (Topics cfg) + length user) /\
  ((forall user, settings !! "queries" <> Some (slice_map user)) ->
     delegated !! "queries" = Some (slice_map (concat (map topicQueries (Topics cfg))))).
Proof.
  intros Hp delegated.
  destruct (Configure_delegated parseConfig Collector_Configure settings cfg Hp)
    as (_ & Hq & _). fold delegated in Hq. unfold settingsQueries in Hq.
  split.
  - intros user Hu. rewrite Hu in Hq. split; [done|].
    rewrite length_app. f_equal. clear Hq.
    induction (Topics cfg) as [|topic topics IH]; [done|].
    simpl in *. lia.
  - intros Hno. rewrite Hq.
    destruct (settings !! "queries") as [[]|] eqn:Hs; rewrite ?app_nil_r; try done.
    by destruct (Hno l).
Qed.

End Kafka.

End Queries.

End QueryProps.

(** ** The fields of the runs on the example configurations *)

Module RunFieldExamples.

Import config benchi Examples BuilderExamples RunFieldProps.

#[local] Existing Instance exampleLib.

(** The run of flink in [two_scenarios]: its one tool service is the one
    of the scenario, its folder is named by time, scenario and tool. *)
Lemma buildTestRuns_tool_services_witness :
  In flinkRun (buildTestRuns "20250101000000" two_scenarios bench_opt) /\
  exists t, In t (Config.Tests two_scenarios) /\
    OutPath flinkRun = "results/20250101000000_" +:+ Test.Name t +:+ "_flink" /\
    Tools flinkRun = option_list (map_index (Config.Tools two_scenarios) "flink")
                     ++ option_list (map_index (Test.Tools t) "flink") /\
    1 <= length (Tools flinkRun) <= 2.
Proof.
  assert (In flinkRun (buildTestRuns "20250101000000" two_scenarios bench_opt)) as Hin.
  { vm_compute. tauto. }
  split; [exact Hin|].
  destruct (buildTestRuns_tool_services "20250101000000" two_scenarios bench_opt flinkRun Hin)
    as (t & Ht & Hname & _ & _ & _ & Hout & Htools & Hlen).
  exists t. split; [exact Ht|]. split; [|split; [exact Htools|exact Hlen]].
  rewrite Hout. reflexivity.
Defined.

(** Two scenarios and no tool anywhere. *)
Definition no_tools : Config.t :=
  {| Config.Infrastructure := [{| DockerCompose := "kafka.yml" |}];
     Config.Tools := [];
     Config.Metrics := [];
     Config.Tests :=
       [{| Test.Name := "kafka-to-kafka"; Test.Duration := 1000000000; Test.Steps := [];
           Test.Infrastructure := []; Test.Tools := []; Test.Metrics := [] |};
        {| Test.Name := "db-to-kafka"; Test.Duration := 1000000000; Test.Steps := [];
           Test.Infrastructure := []; Test.Tools := []; Test.Metrics := [] |}] |}.

Lemma no_tools_has_none t :
  In t (Config.Tests no_tools) -> Config.Tools no_tools = [] /\ Test.Tools t = [].
Proof. intros [<-|[<-|[]]]; by split. Qed.

(** The services of the run of [bench.yml], as paths. *)
Example collectDockerComposeFiles_bench_yml :
  collectDockerComposeFiles (Tools Sim.run0) =
    ["../tools/compose-conduit.yml"; "./conduit/compose-conduit.override.yml"] /\
  collectDockerComposeFiles [] = [].
Proof. split; reflexivity. Qed.

End RunFieldExamples.

(** ** The compositions of a run on scripted worlds *)

Module ComposeExamples.

Import config benchi Sim EngineProps EngineExamples ComposeProps.

#[local] Existing Instance Examples.exampleLib.

(** [ComposeUp] keeps running and no container is ever listed. *)
Definition nothing_listed : Script :=
  {| folder_exists := false;
     up := fun _ => None;
     listing := fun _ => [];
     inspect := fun _ _ => container "" false false None;
     down := None;
     close := None |}.

(** Container a is healthy by its health check, b runs without one. *)
Definition all_ready : Script :=
  {| folder_exists := false;
     up := fun _ => None;
     listing := fun _ => ["a"; "b"];
     inspect := fun c _ =>
       if String.eqb c "a" then container "/a" true false (Some "healthy")
       else container "/b" true false None;
     down := None;
     close := None |}.

Definition toolFiles : list string :=
  ["../tools/compose-conduit.yml"; "./conduit/compose-conduit.override.yml"].

Definition toolLog : string := "results/20250101000000_kafka-to-kafka_conduit/tools.log".

(** The infrastructure of [bench.yml] with a dead container: the call
    fails, and the two cleanup functions are registered all the same. *)
Lemma dockerComposeUpWait_registers_what_it_acquires_witness :
  exists st' o evs,
    dockerComposeUpWait (W := Sim.env dead_and_slow) 4 run0 [] infraFiles infraLog
      (rs0, world0) = Some (st', o) /\
    cleanupFns (fst st') =
      [closeFile (W := Sim.env dead_and_slow) infraLog;
       composeDown (W := Sim.env dead_and_slow) [] infraFiles] /\
    trace (snd st') = EvCreate infraLog :: EvComposeUp infraFiles :: evs /\
    Forall observing evs.
Proof.
  destruct (dockerComposeUpWait (W := Sim.env dead_and_slow) 4 run0 [] infraFiles infraLog
              (rs0, world0)) as [[st' o]|] eqn:Hd; [|vm_compute in Hd; discriminate Hd].
  destruct (dockerComposeUpWait_registers_what_it_acquires (W := Sim.env dead_and_slow)
              4 run0 [] infraFiles infraLog rs0 world0 st' o Hd)
    as [(e & err & Hc & _)|(e & evs & _ & Hf & Ht & Ho)].
  - discriminate Hc.
  - exists st', o, evs. split; [reflexivity|]. split; [exact Hf|]. split; [exact Ht|exact Ho].
Defined.


(** With nothing listed and [ComposeUp] still running the call returns
    nil after the thirty listings, whatever the fuel. *)
Lemma no_container_listed_is_success_witness :
  exists st3,
    dockerComposeUpWait (W := Sim.env nothing_listed) 0 run0 [] infraFiles infraLog
      (rs0, world0) = Some (st3, Returned None) /\
    trace (snd st3) = EvCreate infraLog :: EvComposeUp infraFiles :: listings 30 infraFiles.
Proof.
  destruct (discover (W := Sim.env nothing_listed) 30 infraFiles
              (snd (startCompose (W := Sim.env nothing_listed) [] infraFiles infraLog
                      (rs0, called (EvCreate infraLog) start world0))))
    as [w2 res] eqn:Hd.
  assert (res = inr []) as -> by (vm_compute in Hd; by injection Hd as _ <-).
  destruct (Load (W := Sim.env nothing_listed)
              (fst (startCompose (W := Sim.env nothing_listed) [] infraFiles infraLog
                      (rs0, called (EvCreate infraLog) start world0)),
               Info [] "Identified 0 containers" [] w2)) as [st3 dead] eqn:HL.
  assert (dead = false) as ->.
  { assert (dead = snd (Load (W := Sim.env nothing_listed)
              (fst (startCompose (W := Sim.env nothing_listed) [] infraFiles infraLog
                      (rs0, called (EvCreate infraLog) start world0)),
               Info [] "Identified 0 containers" [] w2))) as -> by by rewrite HL.
    reflexivity. }
  exists st3.
  exact (no_container_listed_is_success (W := Sim.env nothing_listed) 0 run0 []
           infraFiles infraLog rs0 world0 start w2 st3 eq_refl Hd HL).
Defined.

(** The [ComposeUp] of the infrastructure is in the pool and has failed:
    the tool step's call fails after its first listing, though its own
    container is there. *)
Lemma earlier_failure_fails_later_compose_witness :
  exists st3 calls,
    dockerComposeUpWait (W := Sim.env compose_up_fails_late) 0 run0 [] toolFiles toolLog
      ({| cleanupFns := []; goroutinePool := [infraFiles]; goroutinePoolDead := false |},
       world0) =
      Some (st3, Returned (Some (errors_New "failed to start containers"))) /\
    trace (snd st3) = EvCreate toolLog :: EvComposeUp toolFiles :: calls /\
    Forall (isDiscoveryCall toolFiles) calls.
Proof.
  destruct (discover (W := Sim.env compose_up_fails_late) 30 toolFiles
              (snd (startCompose (W := Sim.env compose_up_fails_late) [] toolFiles toolLog
                      ({| cleanupFns := []; goroutinePool := [infraFiles];
                          goroutinePoolDead := false |},
                       called (EvCreate toolLog) start world0))))
    as [w2 res] eqn:Hd.
  assert (res = inr ["a"]) as -> by (vm_compute in Hd; by injection Hd as _ <-).
  apply (earlier_failure_fails_later_compose (W := Sim.env compose_up_fails_late)
           0 run0 [] toolFiles toolLog
           {| cleanupFns := []; goroutinePool := [infraFiles]; goroutinePoolDead := false |}
           world0 start w2 ["a"] infraFiles).
  - right. split; [by left|]. intros e. eexists. reflexivity.
  - reflexivity.
  - exact Hd.
Defined.

(** Both containers of [all_ready] are ready: two inspections, no wait. *)
Lemma all_ready_is_ready c (e : Sim.t) :
  In c ["a"; "b"] ->
  exists e' resp,
    ContainerInspect (Env := Sim.env all_ready) tt c e = (e', inr resp) /\ ready resp.
Proof.
  intros [<-|[<-|[]]]; eexists; eexists; (split; [reflexivity|]); split; reflexivity.
Qed.

Lemma ready_containers_one_inspection_each_witness :
  exists w' evs,
    waitForContainers (W := Sim.env all_ready) 1 run0 [] ["a"; "b"] world0 =
      Some (w', Returned None) /\
    trace w' = evs /\
    Permutation evs [EvContainerInspect "a"; EvContainerInspect "b"].
Proof.
  exact (ready_containers_one_inspection_each (W := Sim.env all_ready) 0 run0 []
           ["a"; "b"] world0 all_ready_is_ready).
Defined.


(** Container a is dead; b is created and not started, without a health
    check. *)
Definition dead_and_created : Script :=
  {| folder_exists := false;
     up := fun _ => None;
     listing := fun _ => ["a"; "b"];
     inspect := fun c _ =>
       if String.eqb c "a" then container "/a" false true None
       else container "/b" false false None;
     down := None;
     close := None |}.

(** The poll of a returns its error, the poll of b panics: the wait ends
    in the panic and the error of a is gone. *)
Lemma panic_of_a_poll_masks_errors_witness :
  exists w',
    waitForContainers (W := Sim.env dead_and_created) 1 run0 [] ["a"; "b"] world0 =
      Some (w', Panicked nil_dereference).
Proof.
  destruct (waitForContainers (W := Sim.env dead_and_created) 1 run0 [] ["a"; "b"] world0)
    as [[w' o]|] eqn:Hw; [|vm_compute in Hw; discriminate Hw].
  destruct (panic_of_a_poll_masks_errors (W := Sim.env dead_and_created) 1 run0 [] world0
              {| active := ["a"; "b"]; errs := []; recovered := None |} "b" ["a"] []
              {| seconds := 0; inspected := ["a"; "b"] |} (container "/b" false false None)
              eq_refl eq_refl eq_refl eq_refl eq_refl) as [_ Hpanic].
  rewrite (Hpanic w' o eq_refl eq_refl Hw). by exists w'.
Defined.

(** The run with the dead container stops the composition it started. *)
Lemma Run_stops_what_it_started_witness :
  cleanupFns rs0 = [] /\
  exists st' o ups guard evs,
    Run (W := Sim.env dead_and_slow) 10 run0 (rs0, world0) = Some (st', o) /\
    trace (snd st') = guard ++ evs ++ flat_map stops (rev ups) /\
    started evs = map c_files ups /\
    Forall acquiring evs.
Proof.
  split; [reflexivity|].
  destruct (Run (W := Sim.env dead_and_slow) 10 run0 (rs0, world0)) as [[st' o]|] eqn:HR;
    [|vm_compute in HR; discriminate HR].
  destruct (Run_stops_what_it_started (W := Sim.env dead_and_slow) 10 run0 rs0 world0 st' o
              eq_refl HR) as (ups & guard & evs & Ht & _ & Hs & Ha).
  exists st', o, ups, guard, evs. split; [reflexivity|]. split; [exact Ht|].
  split; [exact Hs|exact Ha].
Defined.

(** A run in which everything is ready: infrastructure and tools are
    started in this order and stopped in the other, each log file closed
    after its composition is stopped. *)
Example Run_all_ready :
  option_map (fun res => (snd res, trace (snd (fst res))))
    (Run (W := Sim.env all_ready) 3 run0 (rs0, world0)) =
  Some (Returned None,
        [EvStat (OutPath run0); EvMkdirAll (OutPath run0);
         EvCreate infraLog; EvComposeUp infraFiles; EvAfterSecond; EvComposePs infraFiles;
         EvContainerInspect "a"; EvContainerInspect "b";
         EvCreate toolLog; EvComposeUp toolFiles; EvAfterSecond; EvComposePs toolFiles;
         EvContainerInspect "a"; EvContainerInspect "b";
         EvTestSelect;
         EvComposeDown toolFiles; EvClose toolLog;
         EvComposeDown infraFiles; EvClose infraLog]).
Proof. vm_compute. reflexivity. Qed.


(** The container that is created and not started makes the poll panic:
    the infrastructure step ends in the panic and its last record says
    Step successful. *)
Lemma step_last_record_tells_named_result_witness :
  exists st',
    infrastructure (W := Sim.env created_only) 3 run0 (rs0, world0) =
      Some (st', Panicked nil_dereference) /\
    last (logs (snd st')) =
      Some {| level := LevelInfo; msg := "Step successful";
              attrs := [("test", AttrString "kafka-to-kafka"); ("tool", AttrString "conduit");
                        ("step", AttrString "infrastructure")] |}.
Proof.
  destruct (infrastructure (W := Sim.env created_only) 3 run0 (rs0, world0))
    as [[st' o]|] eqn:Hi; [|vm_compute in Hi; discriminate Hi].
  assert (o = Panicked nil_dereference) as -> by (vm_compute in Hi; by injection Hi as _ <-).
  exists st'. split; [reflexivity|].
  exact (Forall2_lookup_lr _ _ _ 1 "infrastructure" infrastructure
           (step_last_record_tells_named_result (W := Sim.env created_only))
           eq_refl eq_refl 3 run0 (rs0, world0) st' (Panicked nil_dereference) Hi).
Defined.


(** *** [Run] of the package on [bench.yml] *)

Definition at_midnight : Z -> string := fun _ => "20250101000000".


(** Two scenarios, no tool: nothing runs and [Run] returns nil. *)
Lemma Run_without_tools_runs_nothing_witness :
  exists w',
    Package.Run (W := Sim.env dead_and_slow) at_midnight 0 RunFieldExamples.no_tools
      Examples.bench_opt world0 = Some (w', Returned None) /\
    trace w' = [EvMkdirAll "results"].
Proof.
  exists (identified (W := Sim.env dead_and_slow) Examples.bench_opt 0 world0 start).
  exact (Run_without_tools_runs_nothing (W := Sim.env dead_and_slow) at_midnight 0
           RunFieldExamples.no_tools Examples.bench_opt world0 start
           RunFieldExamples.no_tools_has_none eq_refl).
Defined.

(** Filtering for a scenario that does not exist changes nothing. *)
Lemma FilterTests_is_ignored_witness :
  let opt' := {| opt_OutPath := "results"; FilterTests := ["no-such-test"];
                 opt_DockerClient := tt |} in
  buildTestRuns "20250101000000" Examples.bench_yml Examples.bench_opt =
    buildTestRuns "20250101000000" Examples.bench_yml opt' /\
  Package.Run (W := Sim.env all_ready) at_midnight 3 Examples.bench_yml Examples.bench_opt world0 =
    Package.Run (W := Sim.env all_ready) at_midnight 3 Examples.bench_yml opt' world0.
Proof.
  intros opt'.
  destruct (FilterTests_is_ignored (W := Sim.env all_ready) at_midnight 3 Examples.bench_yml
              Examples.bench_opt opt' world0 eq_refl eq_refl) as [Hb HR].
  split; [exact (Hb "20250101000000")|exact HR].
Defined.

(** *** The world of [all_ready] is one in which nothing fails *)

Lemma all_ready_calm : calm (W := Sim.env all_ready).
Proof.
  constructor; intros; simpl.
  - by eexists _, _.
  - by eexists.
  - by eexists.
  - by eexists.
  - eexists _, _. split; [reflexivity|done].
  - by eexists.
  - by eexists _, _, _.
  - destruct (String.eqb c "a"); eexists _, _; (split; [reflexivity|]); by split.
  - by eexists.
  - by eexists.
Qed.

(** The run of [bench.yml] in that world: nil, and the twelve steps. *)
Lemma Run_succeeds_when_nothing_fails_witness :
  exists st',
    Run (W := Sim.env all_ready) 1 run0 (rs0, world0) = Some (st', Returned None) /\
    stepsEntered (logs (snd st')) =
      ["pre-infrastructure"; "infrastructure"; "post-infrastructure";
       "pre-tool"; "tool"; "post-tool"; "pre-test"; "test"; "post-test";
       "pre-cleanup"; "cleanup"; "post-cleanup"].
Proof.
  exact (Run_succeeds_when_nothing_fails (W := Sim.env all_ready) 0 run0 rs0 world0
           all_ready_calm eq_refl).
Defined.

(** [Run] of the package on [two_scenarios] in that world: nil, and the
    five runs started in the order they were built. *)
Lemma Package_Run_succeeds_when_nothing_fails_witness :
  exists w',
    Package.Run (W := Sim.env all_ready) at_midnight 1 Examples.two_scenarios
      Examples.bench_opt world0 = Some (w', Returned None) /\
    testsStarted (trace w') =
      ["results/20250101000000_kafka-to-kafka_conduit";
       "results/20250101000000_kafka-to-kafka_connect";
       "results/20250101000000_db-to-kafka_conduit";
       "results/20250101000000_db-to-kafka_connect";
       "results/20250101000000_db-to-kafka_flink"].
Proof.
  destruct (Package_Run_succeeds_when_nothing_fails (W := Sim.env all_ready) at_midnight 0
              Examples.two_scenarios Examples.bench_opt world0 all_ready_calm)
    as (e1 & w' & Hm & HR & Ht).
  injection Hm as <-.
  exists w'. split; [exact HR|exact Ht].
Defined.

End ComposeExamples.

(** ** The queries on the settings of the example *)

Module QueryExamples.

Import prometheus kafka MetricsProps MetricsExamples QueryProps.

#[local] Existing Instance Examples.exampleLib.

(** A query whose interval is spelled wrong. *)
Definition misspelled : gmap string any :=
  {[ "name" := str "lag"; "query" := str "kafka_consumer_lag"; "intervall" := str "1s" ]}.

Lemma parseConfig_strict_inside_queries_witness :
  exists err,
    parseConfig {[ "url" := str kafka_url; "queries" := slice_any [map_any misspelled] ]}
      = inl err.
Proof.
  apply (parseConfig_strict_inside_queries
           {[ "url" := str kafka_url; "queries" := slice_any [map_any misspelled] ]}
           (slice_any [map_any misspelled]) misspelled "intervall").
  - reflexivity.
  - left. exists [map_any misspelled]. split; [reflexivity|by left].
  - apply elem_of_dom. by eexists.
  - intros name Hn [Hm|Hm]; unfold queryKeys in Hn; simpl in Hn;
      destruct Hn as [<-|[<-|[<-|[<-|[]]]]]; discriminate Hm.
Defined.

Definition bench_settings : gmap string any :=
  {[ "url" := str kafka_url; "topics" := slice_any [str "benchi-in"; str "benchi-out"] ]}.

Lemma bench_settings_keys k :
  k ∈ dom bench_settings -> k = "topics" \/ k = "url" \/ k = "scrape-interval".
Proof.
  unfold bench_settings. rewrite dom_insert_L, dom_singleton_L.
  intros [Hk|Hk]%elem_of_union; apply elem_of_singleton in Hk; tauto.
Qed.

(** The settings of the kafka collector in [bench.yml]: the generic
    collector gets six queries, three for each topic. *)
Lemma topic_queries_are_accepted_witness :
  prometheus.parseConfig (fst (Configure parseTopics prometheus.Configure bench_settings)) =
    inr {| URL := kafka_url;
           ScrapeInterval := Second;
           Queries := map (typedQuery 1000000000)
                        (concat (map topicQueries ["benchi-in"; "benchi-out"])) |} /\
  map (fun q => (Name q, Interval q, Unit q))
    (map (typedQuery 1000000000) (concat (map topicQueries ["benchi-in"; "benchi-out"]))) =
    [("msg-rate-in-per-second[benchi-in]", 1000000000%Z, "msg/s");
     ("msg-megabytes-in-per-second[benchi-in]", 1000000000%Z, "MB/s");
     ("msg-megabytes-out-per-second[benchi-in]", 1000000000%Z, "MB/s");
     ("msg-rate-in-per-second[benchi-out]", 1000000000%Z, "msg/s");
     ("msg-megabytes-in-per-second[benchi-out]", 1000000000%Z, "MB/s");
     ("msg-megabytes-out-per-second[benchi-out]", 1000000000%Z, "MB/s")].
Proof.
  split; [|reflexivity].
  apply (proj2 (topic_queries_are_accepted parseTopics prometheus.Configure bench_settings
                  {| Topics := ["benchi-in"; "benchi-out"] |} 1000000000
                  exampleLib_folds_apart eq_refl
                  bench_settings_keys
                  eq_refl _)).
  repeat split; reflexivity.
Defined.

(** The same settings with a key of the user: it is handed on as it is,
    topics is gone and queries is there. *)
Lemma Configure_touches_topics_and_queries_only_witness :
  let settings := <["timeout" := str "5s"]> bench_settings in
  let delegated := fst (Configure parseTopics prometheus.Configure settings) in
  delegated !! "timeout" = Some (str "5s") /\
  delegated !! "url" = Some (str kafka_url) /\
  dom delegated = dom settings ∖ {["topics"]} ∪ {["queries"]}.
Proof.
  intros settings delegated.
  destruct (Configure_touches_topics_and_queries_only parseTopics prometheus.Configure settings)
    as [_ Hok].
  destruct (Hok {| Topics := ["benchi-in"; "benchi-out"] |} eq_refl) as (Hframe & Hdom & _).
  split; [exact (Hframe "timeout" ltac:(discriminate) ltac:(discriminate))|].
  split; [exact (Hframe "url" ltac:(discriminate) ltac:(discriminate))|exact Hdom].
Defined.

(** One query of the user, held as a slice of maps: it comes fourth. *)
Lemma Configure_appends_queries_held_as_slice_of_maps_witness :
  fst (Configure parseTopics prometheus.Configure typedSettings) !! "queries" =
    Some (slice_map (topicQueries "benchi-in" ++ [userQuery])) /\
  length (topicQueries "benchi-in" ++ [userQuery]) = 4.
Proof.
  destruct (Configure_appends_queries_held_as_slice_of_maps parseTopics prometheus.Configure
              typedSettings {| Topics := ["benchi-in"] |} eq_refl) as [Hok _].
  destruct (Hok [userQuery] eq_refl) as [Hq Hlen].
  split; [exact Hq|exact Hlen].
Defined.

End QueryExamples.
